(** * ByteTrack-style tracking service: a shallow embedding

    Source: [backend/scripts/tracking_service.py].

    Python [float]s are idealised as exact rationals [Q] (no rounding, no
    infinities, no NaN), so a statement that rests on a comparison at an
    exact boundary or on the equality of two computed scores is a statement
    about the idealisation; Python [int]s are [Z].  The two library routines the tracker calls but does not define are
    parameters of the development: [math.sqrt] / [np.std]'s square root
    ([sqrt]) and [scipy.optimize.linear_sum_assignment] ([scipy], [None] when
    the import raises [ImportError]). *)

From Stdlib Require Import ZArith QArith Qpower List Lia Lqa Permutation Sorted.
From stdpp Require Import base gmap strings list fin_maps.
Import ListNotations.
Open Scope Z_scope.

(** ** Python helpers *)

Module Py.

(** [a < b] on floats. *)
Definition ltb (a b : Q) : bool := negb (Qle_bool b a).
(** [a >= b] on floats. *)
Definition geb (a b : Q) : bool := Qle_bool b a.

(** [max(a, b)]: the first argument unless the second is larger. *)
Definition max (a b : Q) : Q := if ltb a b then b else a.
(** [min(a, b)]: the first argument unless the second is smaller. *)
Definition min (a b : Q) : Q := if ltb b a then b else a.

(** [l[-n:]]: the last [n] items, the whole list when it is shorter. *)
Definition last_n {A} (n : nat) (l : list A) : list A :=
  skipn (length l - n) l.

(** [l[:k]] for an integer [k]: the first [k] items, and for a negative
    [k] all but the last [-k]. *)
Definition slice_to {A} (k : Z) (l : list A) : list A :=
  if (0 <=? k)%Z then firstn (Z.to_nat k) l
  else firstn (length l - Z.to_nat (- k)) l.

(** [sum(l)] and [np.mean(l)] over floats. *)
Definition sum (l : list Q) : Q := fold_left Qplus l 0%Q.
Definition mean (l : list Q) : Q := (sum l / inject_Z (Z.of_nat (length l)))%Q.

(** [sorted(l, key=key, reverse=True)]: stable, descending.  An item is
    placed in front of the first later item whose key is not larger. *)
Section Sorted.
Context {A : Type} (key : A -> Q).
Fixpoint insert_desc (x : A) (l : list A) : list A :=
  match l with
  | [] => [x]
  | y :: l' => if Qle_bool (key y) (key x) then x :: y :: l'
               else y :: insert_desc x l'
  end.
Definition sorted_desc (l : list A) : list A :=
  fold_right insert_desc [] l.
End Sorted.

End Py.

(** ** Bounding boxes: [[x1, y1, x2, y2]] *)

Record BBox := mkBBox { b0 : Q; b1 : Q; b2 : Q; b3 : Q }.

(** ** class Detection *)

Module Detection.
Record t := mk {
  bbox : BBox;
  confidence : Q;
  class_id : Z;
  class_name : string
}.
End Detection.

(** ** class Track *)

Inductive TrackState := tentative | confirmed | deleted.

Definition TrackState_eqb (a b : TrackState) : bool :=
  match a, b with
  | tentative, tentative | confirmed, confirmed | deleted, deleted => true
  | _, _ => false
  end.

Module Track.

Record t := mk {
  bbox : BBox;
  confidence : Q;
  class_id : Z;
  class_name : string;
  track_id : Z;
  hits : Z;
  age : Z;
  time_since_update : Z;
  state : TrackState;
  history : list BBox;
  confidence_history : list Q;
  velocity : Q * Q;
  acceleration : Q * Q;
  stability_score : Q;
  consistency_score : Q;
  quality_score : Q
}.

(** [Track.__init__] *)
Definition init (bbox : BBox) (confidence : Q) (class_id : Z)
    (class_name : string) (track_id : Z) : t :=
  {| bbox := bbox;
     confidence := confidence;
     class_id := class_id;
     class_name := class_name;
     track_id := track_id;
     hits := 1;
     age := 0;
     time_since_update := 0;
     state := tentative;
     history := [bbox];
     confidence_history := [confidence];
     velocity := (0, 0)%Q;
     acceleration := (0, 0)%Q;
     stability_score := 1;
     consistency_score := 1;
     quality_score := confidence |}.

(** The box centre, [(b[0] + b[2]) / 2] and [(b[1] + b[3]) / 2]. *)
Definition center_x (b : BBox) : Q := ((b0 b + b2 b) / 2)%Q.
Definition center_y (b : BBox) : Q := ((b1 b + b3 b) / 2)%Q.

(** [Track.predict]: the track after the call and the returned box.  The
    only assignment is to [self.velocity]. *)
Definition predict (self : t) : t * BBox :=
  let h := history self in
  if (2 <=? length h)%nat then
    let prev_bbox := nth (length h - 2) h (bbox self) in   (* history[-2] *)
    let curr_bbox := nth (length h - 1) h (bbox self) in   (* history[-1] *)
    let cx := center_x curr_bbox in
    let cy := center_y curr_bbox in
    let vx := (cx - center_x prev_bbox)%Q in
    let vy := (cy - center_y prev_bbox)%Q in
    let v0 := ((7 # 10) * fst (velocity self) + (3 # 10) * vx)%Q in
    let v1 := ((7 # 10) * snd (velocity self) + (3 # 10) * vy)%Q in
    let self' :=
      {| bbox := bbox self;
         confidence := confidence self;
         class_id := class_id self;
         class_name := class_name self;
         track_id := track_id self;
         hits := hits self;
         age := age self;
         time_since_update := time_since_update self;
         state := state self;
         history := history self;
         confidence_history := confidence_history self;
         velocity := (v0, v1);
         acceleration := acceleration self;
         stability_score := stability_score self;
         consistency_score := consistency_score self;
         quality_score := quality_score self |} in
    let px := (cx + v0)%Q in
    let py := (cy + v1)%Q in
    let width := (b2 curr_bbox - b0 curr_bbox)%Q in
    let height := (b3 curr_bbox - b1 curr_bbox)%Q in
    (self',
     mkBBox (px - width / 2) (py - height / 2)
            (px + width / 2) (py + height / 2))%Q
  else (self, bbox self).

Section WithSqrt.
(** [math.sqrt], also the root inside [np.std]. *)
Variable sqrt : Q -> Q.

(** [Track.calculate_bbox_variation] *)
Definition calculate_bbox_variation (bbox1 bbox2 : BBox) : Q :=
  sqrt ((center_x bbox1 - center_x bbox2) ^ 2
        + (center_y bbox1 - center_y bbox2) ^ 2)%Q.

(** [np.std]: the root of the mean squared deviation from the mean. *)
Definition std (l : list Q) : Q :=
  let m := Py.mean l in
  sqrt (Py.mean (map (fun x => ((x - m) ^ 2)%Q) l)).

(** The variations of consecutive boxes,
    [for i in range(1, len(recent)): variation(recent[i-1], recent[i])]. *)
Fixpoint bbox_variations (recent : list BBox) : list Q :=
  match recent with
  | p :: ((c :: _) as rest) =>
      calculate_bbox_variation p c :: bbox_variations rest
  | _ => []
  end.

(** [Track.update] *)
Definition update (self : t) (bbox' : BBox) (confidence' : Q) : t :=
  let hits' := hits self + 1 in
  let history1 := history self ++ [bbox'] in
  let confidence_history1 := confidence_history self ++ [confidence'] in
  (* keep only the last 15 positions *)
  let '(history', confidence_history') :=
    if (15 <? length history1)%nat
    then (Py.last_n 15 history1, Py.last_n 15 confidence_history1)
    else (history1, confidence_history1) in
  let stability' :=
    if (3 <=? length history')%nat
    then (1 - Py.min 1 (Py.mean (bbox_variations (Py.last_n 3 history'))
                        / 100))%Q
    else stability_score self in
  let consistency' :=
    if (3 <=? length confidence_history')%nat
    then (1 - Py.min 1 (std (Py.last_n 5 confidence_history')))%Q
    else consistency_score self in
  let quality' := ((confidence' + stability' + consistency') / 3)%Q in
  let state' :=
    if (3 <=? hits')%Z && Py.ltb (6 # 10) quality' then confirmed
    else if (1 <=? hits')%Z then tentative
    else state self in
  {| bbox := bbox';
     confidence := confidence';
     class_id := class_id self;
     class_name := class_name self;
     track_id := track_id self;
     hits := hits';
     age := age self + 1;
     time_since_update := 0;
     state := state';
     history := history';
     confidence_history := confidence_history';
     velocity := velocity self;
     acceleration := acceleration self;
     stability_score := stability';
     consistency_score := consistency';
     quality_score := quality' |}.
End WithSqrt.

(** [Track.mark_missed] *)
Definition mark_missed (self : t) : t :=
  {| bbox := bbox self;
     confidence := confidence self;
     class_id := class_id self;
     class_name := class_name self;
     track_id := track_id self;
     hits := hits self;
     age := age self + 1;
     time_since_update := time_since_update self + 1;
     state := state self;
     history := history self;
     confidence_history := confidence_history self;
     velocity := velocity self;
     acceleration := acceleration self;
     stability_score := stability_score self;
     consistency_score := consistency_score self;
     quality_score := (quality_score self * (95 # 100))%Q |}.

(** [Track.get_track_quality] *)
Record quality := mk_quality {
  q_confidence : Q;
  q_stability : Q;
  q_consistency : Q;
  q_quality : Q;
  q_hits : Z;
  q_age : Z
}.

Definition get_track_quality (self : t) : quality :=
  {| q_confidence := confidence self;
     q_stability := stability_score self;
     q_consistency := consistency_score self;
     q_quality := quality_score self;
     q_hits := hits self;
     q_age := age self |}.

End Track.

(** ** Outcomes of a call

    A call returns ([Ret]), lets an exception escape ([Raise], here the
    [IndexError] of an out-of-range subscript), or is still running when the
    fuel given to its loop is spent ([Timeout]). *)

Inductive res (A : Type) : Type :=
  | Ret (a : A)
  | Raise
  | Timeout.
Arguments Ret {A} a.
Arguments Raise {A}.
Arguments Timeout {A}.

#[global] Instance res_ret : MRet res := fun A a => Ret a.
#[global] Instance res_bind : MBind res := fun A B f m =>
  match m with
  | Ret a => f a
  | Raise => Raise
  | Timeout => Timeout
  end.

(** A subscript that raises when it is out of range. *)
Definition subscript {A} (l : list A) (i : nat) : res A :=
  match l !! i with
  | Some a => Ret a
  | None => Raise
  end.

(** ** Object references

    [Track] and [Detection] define no [__eq__], so [in], [not in] and
    [list.remove] compare object identities.

    A track is a mutable object owned by [self.tracks]: it is referred to by
    its position there, and every read of a field goes through the current
    contents of [self.tracks] ([deref]), so an update made through one alias
    is seen through all of them.  A detection is never mutated: a reference
    to one carries its identity, the position in the list passed to [update],
    next to its value (the list holds distinct objects, as
    [detect_objects_in_frame] builds it). *)

Abbreviation track_ref := nat (only parsing).

Definition deref (store : list Track.t) (r : track_ref) : Track.t :=
  match store !! r with
  | Some track => track
  | None => Track.init (mkBBox 0 0 0 0) 0 0 "" 0   (* no reference dangles *)
  end.

(** [track in l] and [l.remove(track)] on references to tracks. *)
Definition mem_track (r : track_ref) (l : list track_ref) : bool :=
  existsb (Nat.eqb r) l.

Fixpoint remove_track (r : track_ref) (l : list track_ref) : list track_ref :=
  match l with
  | [] => []
  | y :: l' => if Nat.eqb y r then l' else y :: remove_track r l'
  end.

Record ref (A : Type) := mkref { oid : nat; val : A }.
Arguments mkref {A} oid val.
Arguments oid {A} r.
Arguments val {A} r.

Definition same_object {A} (x y : ref A) : bool := Nat.eqb (oid x) (oid y).

(** [x in l] on references to detections. *)
Definition mem {A} (x : ref A) (l : list (ref A)) : bool :=
  existsb (same_object x) l.

(** The objects of a list, numbered from [start]. *)
Fixpoint refs_from {A} (start : nat) (l : list A) : list (ref A) :=
  match l with
  | [] => []
  | a :: l' => mkref start a :: refs_from (S start) l'
  end.

(** ** class EnhancedTracker *)

Module EnhancedTracker.

Record t := mk {
  max_age : Z;
  min_hits : Z;
  iou_threshold : Q;
  tracks : list Track.t;
  frame_count : Z;
  next_id : Z
}.

(** [EnhancedTracker.__init__] *)
Definition init (max_age min_hits : Z) (iou_threshold : Q) : t :=
  {| max_age := max_age;
     min_hits := min_hits;
     iou_threshold := iou_threshold;
     tracks := [];
     frame_count := 0;
     next_id := 1 |}.

Definition set_tracks (self : t) (l : list Track.t) : t :=
  {| max_age := max_age self;
     min_hits := min_hits self;
     iou_threshold := iou_threshold self;
     tracks := l;
     frame_count := frame_count self;
     next_id := next_id self |}.

(** [EnhancedTracker.iou] *)
Definition iou (bbox1 bbox2 : BBox) : Q :=
  let x1 := Py.max (b0 bbox1) (b0 bbox2) in
  let y1 := Py.max (b1 bbox1) (b1 bbox2) in
  let x2 := Py.min (b2 bbox1) (b2 bbox2) in
  let y2 := Py.min (b3 bbox1) (b3 bbox2) in
  let intersection := (Py.max 0 (x2 - x1) * Py.max 0 (y2 - y1))%Q in
  let area1 := ((b2 bbox1 - b0 bbox1) * (b3 bbox1 - b1 bbox1))%Q in
  let area2 := ((b2 bbox2 - b0 bbox2) * (b3 bbox2 - b1 bbox2))%Q in
  let union := (area1 + area2 - intersection)%Q in
  if Py.ltb 0 union then (intersection / union)%Q else 0%Q.

(** What an associator returns:
    [matched, unmatched_detections, unmatched_tracks]. *)
Definition association : Type :=
  list (track_ref * ref Detection.t) * list (ref Detection.t)
  * list track_ref.

(** *** [greedy_assignment]

    The [for] statement walks [unmatched_detections] by index and looks
    at the length of the list afresh before each item, so items appended
    by the body are visited too. *)

Record greedy_state := mk_greedy {
  g_next : nat;                            (* index of the next item *)
  g_matched : list (track_ref * ref Detection.t);
  g_unmatched_tracks : list track_ref;
  g_unmatched_detections : list (ref Detection.t)
}.

(** The body of the inner loop, on [(best_track, best_iou)]. *)
Definition consider (self : t) (detection : ref Detection.t)
    (best : option track_ref * Q) (track : track_ref) : option track_ref * Q :=
  let '(best_track, best_iou) := best in
  let iou := iou (Track.bbox (deref (tracks self) track))
                 (Detection.bbox (val detection)) in
  if Py.ltb best_iou iou && Py.ltb (iou_threshold self) iou
  then (Some track, iou)
  else (best_track, best_iou).

(** The inner loop: the track of largest IoU above the threshold, the
    first one among equals. *)
Definition best_track (self : t) (detection : ref Detection.t)
    (unmatched_tracks : list track_ref) : option track_ref * Q :=
  fold_left (consider self detection) unmatched_tracks (None, 0%Q).

(** One turn of the outer loop; [None] once the list is exhausted. *)
Definition greedy_step (self : t) (st : greedy_state) : option greedy_state :=
  match g_unmatched_detections st !! g_next st with
  | None => None
  | Some detection =>
      match fst (best_track self detection (g_unmatched_tracks st)) with
      | Some track =>
          Some {| g_next := S (g_next st);
                  g_matched := g_matched st ++ [(track, detection)];
                  g_unmatched_tracks :=
                    remove_track track (g_unmatched_tracks st);
                  g_unmatched_detections := g_unmatched_detections st |}
      | None =>
          Some {| g_next := S (g_next st);
                  g_matched := g_matched st;
                  g_unmatched_tracks := g_unmatched_tracks st;
                  g_unmatched_detections :=
                    g_unmatched_detections st ++ [detection] |}
      end
  end.

Fixpoint greedy_loop (fuel : nat) (self : t) (st : greedy_state)
    : res association :=
  match fuel with
  | O => Timeout
  | S fuel' =>
      match greedy_step self st with
      | None => Ret (g_matched st, g_unmatched_detections st,
                     g_unmatched_tracks st)
      | Some st' => greedy_loop fuel' self st'
      end
  end.

Definition greedy_start (detections : list (ref Detection.t))
    (tracks : list track_ref) : greedy_state :=
  {| g_next := 0;
     g_matched := [];
     g_unmatched_tracks := tracks;
     g_unmatched_detections :=
       Py.sorted_desc (fun x => Detection.confidence (val x)) detections |}.

Definition greedy_assignment (fuel : nat) (self : t)
    (detections : list (ref Detection.t)) (tracks : list track_ref)
    : res association :=
  greedy_loop fuel self (greedy_start detections tracks).

(** The state after [n] turns of the outer loop (it stays put once the
    list is exhausted). *)
Fixpoint greedy_run (n : nat) (self : t) (st : greedy_state) : greedy_state :=
  match n with
  | O => st
  | S n' =>
      match greedy_step self st with
      | None => st
      | Some st' => greedy_run n' self st'
      end
  end.

(** *** [associate_detections_to_tracks] *)

Definition cost_matrix (self : t) (tracks : list track_ref)
    (detections : list (ref Detection.t)) : list (list Q) :=
  map (fun track =>
         map (fun detection =>
                (1 - iou (Track.bbox (deref (EnhancedTracker.tracks self) track))
                         (Detection.bbox (val detection)))%Q)
             detections)
      tracks.

(** [for i, j in zip(track_indices, detection_indices)] *)
Fixpoint find_matches (self : t) (cost : list (list Q))
    (tracks : list track_ref) (detections : list (ref Detection.t))
    (pairs : list (nat * nat))
    (matched : list (track_ref * ref Detection.t))
    (unmatched_tracks : list track_ref)
    (unmatched_detections : list (ref Detection.t))
    : res (list (track_ref * ref Detection.t) * list track_ref
           * list (ref Detection.t)) :=
  match pairs with
  | [] => Ret (matched, unmatched_tracks, unmatched_detections)
  | (i, j) :: pairs' =>
      row ← subscript cost i;
      c ← subscript row j;
      track ← subscript tracks i;
      detection ← subscript detections j;
      if Py.ltb c (1 - iou_threshold self)%Q
      then find_matches self cost tracks detections pairs'
             (matched ++ [(track, detection)])
             unmatched_tracks unmatched_detections
      else find_matches self cost tracks detections pairs'
             matched
             (unmatched_tracks ++ [track])
             (unmatched_detections ++ [detection])
  end.

(** The items of [l] whose index is not in [indices]. *)
Definition not_indexed {A} (indices : list nat) (l : list A) : list A :=
  map val (List.filter (fun r => negb (existsb (Nat.eqb (oid r)) indices))
                       (refs_from 0 l)).

Section WithScipy.
(** [scipy.optimize.linear_sum_assignment], [None] when the import
    fails; it returns the row indices and the column indices. *)
Variable scipy : option (list (list Q) -> list nat * list nat).

Definition associate_detections_to_tracks (fuel : nat) (self : t)
    (detections : list (ref Detection.t)) (tracks : list track_ref)
    : res association :=
  if (length tracks =? 0)%nat then Ret ([], detections, [])
  else if (length detections =? 0)%nat then Ret ([], [], tracks)
  else
    let cost := cost_matrix self tracks detections in
    match scipy with
    | Some linear_sum_assignment =>
        let '(track_indices, detection_indices) :=
          linear_sum_assignment cost in
        '(matched, unmatched_tracks, unmatched_detections) ←
          find_matches self cost tracks detections
            (combine track_indices detection_indices) [] [] [];
        let unmatched_tracks :=
          unmatched_tracks ++ not_indexed track_indices tracks in
        let unmatched_detections :=
          unmatched_detections
          ++ not_indexed detection_indices detections in
        Ret (matched, unmatched_detections, unmatched_tracks)
    | None => greedy_assignment fuel self detections tracks
    end.
End WithScipy.

(** *** [update] *)

Section WithEnv.
Variable sqrt : Q -> Q.
Variable scipy : option (list (list Q) -> list nat * list nat).

(** [for track, detection in matched: track.update(detection.bbox,
    detection.confidence)] *)
Definition apply_updates (matched : list (track_ref * ref Detection.t))
    (store : list Track.t) : list Track.t :=
  fold_left
    (fun store '(track, detection) =>
       alter (fun tr => Track.update sqrt tr
                          (Detection.bbox (val detection))
                          (Detection.confidence (val detection)))
             track store)
    matched store.

(** [[t for t in self.tracks if t.state == s]] *)
Definition tracks_in_state (s : TrackState) (store : list Track.t)
    : list track_ref :=
  List.filter (fun t => TrackState_eqb (Track.state (deref store t)) s)
              (seq 0 (length store)).

(** The loop that creates the new tracks; it appends to [self.tracks]
    and advances [self.next_id]. *)
Definition create_tracks (unmatched_high_conf : list (ref Detection.t))
    (matched_unconfirmed : list (track_ref * ref Detection.t))
    (store : list Track.t) (next_id : Z) : list Track.t * Z :=
  fold_left
    (fun '(store, next_id) detection =>
       if negb (mem detection (map snd matched_unconfirmed))
       then (store ++ [Track.init (Detection.bbox (val detection))
                                  (Detection.confidence (val detection))
                                  (Detection.class_id (val detection))
                                  (Detection.class_name (val detection))
                                  next_id],
             next_id + 1)
       else (store, next_id))
    unmatched_high_conf (store, next_id).

(** [for track in self.tracks: if track not in all_matched_tracks:
    track.mark_missed()] *)
Definition mark_unmatched (all_matched_tracks : list track_ref)
    (store : list Track.t) : list Track.t :=
  map (fun r => if mem_track (oid r) all_matched_tracks then val r
                else Track.mark_missed (val r))
      (refs_from 0 store).

(** What the three association stages of one call produce, and the
    tracker as they leave it. *)
Record stages := mk_stages {
  high_conf_detections : list (ref Detection.t);
  low_conf_detections : list (ref Detection.t);
  confirmed_tracks : list track_ref;
  unconfirmed_tracks : list track_ref;
  matched_high_conf : list (track_ref * ref Detection.t);
  unmatched_high_conf : list (ref Detection.t);
  unmatched_confirmed : list track_ref;
  matched_unconfirmed : list (track_ref * ref Detection.t);
  unmatched_confirmed_after_high : list track_ref;
  matched_low_conf : list (track_ref * ref Detection.t);
  store_at_A : list Track.t;     (* [self.tracks] when stage A associates *)
  store_at_B : list Track.t;     (* ... when stage B associates *)
  store_at_C : list Track.t;     (* ... when stage C associates *)
  after_stages : t
}.

Definition run_stages (fuel : nat) (self : t)
    (detections : list Detection.t) : res stages :=
  let self := {| max_age := max_age self;
                 min_hits := min_hits self;
                 iou_threshold := iou_threshold self;
                 tracks := tracks self;
                 frame_count := frame_count self + 1;
                 next_id := next_id self |} in
  (* Predict new locations of existing tracks *)
  let self := set_tracks self
                (map (fun track => fst (Track.predict track)) (tracks self)) in
  (* Separate detections into high and low confidence *)
  let dets := refs_from 0 detections in
  let high := List.filter
                (fun det => Py.geb (Detection.confidence (val det)) (1 # 2))
                dets in
  let low := List.filter
               (fun det => negb (Py.geb (Detection.confidence (val det)) (1 # 2)))
               dets in
  let confirmed_tracks := tracks_in_state confirmed (tracks self) in
  let unconfirmed_tracks := tracks_in_state tentative (tracks self) in
  (* First association: high confidence detections, confirmed tracks *)
  let storeA := tracks self in
  '(matched_high_conf, unmatched_high_conf, unmatched_confirmed) ←
    associate_detections_to_tracks scipy fuel self high confirmed_tracks;
  let self := set_tracks self (apply_updates matched_high_conf (tracks self)) in
  (* Remaining high confidence detections, unconfirmed tracks *)
  let storeB := tracks self in
  '(matched_unconfirmed, unmatched_unconfirmed, unmatched_unconfirmed_tracks) ←
    associate_detections_to_tracks scipy fuel self
      unmatched_high_conf unconfirmed_tracks;
  let self := set_tracks self (apply_updates matched_unconfirmed (tracks self)) in
  (* Second association: low confidence detections, unmatched confirmed *)
  let unmatched_confirmed_after_high :=
    List.filter (fun t => negb (mem_track t (map fst matched_unconfirmed)))
                unmatched_confirmed in
  let storeC := tracks self in
  '(matched_low_conf, unmatched_low_conf, _) ←
    associate_detections_to_tracks scipy fuel self
      low unmatched_confirmed_after_high;
  let self := set_tracks self (apply_updates matched_low_conf (tracks self)) in
  Ret {| high_conf_detections := high;
         low_conf_detections := low;
         confirmed_tracks := confirmed_tracks;
         unconfirmed_tracks := unconfirmed_tracks;
         matched_high_conf := matched_high_conf;
         unmatched_high_conf := unmatched_high_conf;
         unmatched_confirmed := unmatched_confirmed;
         matched_unconfirmed := matched_unconfirmed;
         unmatched_confirmed_after_high := unmatched_confirmed_after_high;
         matched_low_conf := matched_low_conf;
         store_at_A := storeA;
         store_at_B := storeB;
         store_at_C := storeC;
         after_stages := self |}.

(** The detections a call creates tracks from, in creation order. *)
Definition creators (s : stages) : list (ref Detection.t) :=
  List.filter (fun detection =>
                 negb (mem detection (map snd (matched_unconfirmed s))))
              (unmatched_high_conf s).

(** Track creation, miss accounting and eviction. *)
Definition finish (s : stages) : t :=
  let self := after_stages s in
  (* Create new tracks for unmatched high confidence detections *)
  let '(store, next_id') :=
    create_tracks (unmatched_high_conf s) (matched_unconfirmed s)
                  (tracks self) (next_id self) in
  (* Mark unmatched tracks as missed *)
  let all_matched_tracks :=
    map fst (matched_high_conf s ++ matched_unconfirmed s
             ++ matched_low_conf s) in
  let store := mark_unmatched all_matched_tracks store in
  (* Remove old tracks *)
  let store :=
    List.filter (fun t => (Track.time_since_update t <? max_age self)%Z)
                store in
  {| max_age := max_age self;
     min_hits := min_hits self;
     iou_threshold := iou_threshold self;
     tracks := store;
     frame_count := frame_count self;
     next_id := next_id' |}.

(** [EnhancedTracker.update]: the tracker after the call; the list the
    call returns is its [tracks]. *)
Definition update (fuel : nat) (self : t) (detections : list Detection.t)
    : res t :=
  s ← run_stages fuel self detections;
  Ret (finish s).

(** A run of calls, one per frame, each on the tracker the call before
    left. *)
Fixpoint updates (fuel : nat) (self : t) (frames : list (list Detection.t))
    : res t :=
  match frames with
  | [] => Ret self
  | detections :: frames' =>
      self' ← update fuel self detections;
      updates fuel self' frames'
  end.

End WithEnv.

End EnhancedTracker.

(** ** class TrackingService *)

Module TrackingService.

Record t := mk {
  confidence_threshold : Q;
  iou_threshold : Q;
  tracker : EnhancedTracker.t;
  min_track_duration : Z;
  max_tracks_per_frame : Z;
  track_confidence_threshold : Q;
  frame_skip : Z
}.

(** [TrackingService.__init__] *)
Definition init (confidence_threshold iou_threshold : Q)
    (max_objects_per_frame : Z) : t :=
  {| confidence_threshold := confidence_threshold;
     iou_threshold := iou_threshold;
     tracker := EnhancedTracker.init 30 3 iou_threshold;
     min_track_duration := 3;
     max_tracks_per_frame := max_objects_per_frame;
     track_confidence_threshold := 6 # 10;
     frame_skip := 2 |}.

Definition set_tracker (self : t) (tr : EnhancedTracker.t) : t :=
  {| confidence_threshold := confidence_threshold self;
     iou_threshold := iou_threshold self;
     tracker := tr;
     min_track_duration := min_track_duration self;
     max_tracks_per_frame := max_tracks_per_frame self;
     track_confidence_threshold := track_confidence_threshold self;
     frame_skip := frame_skip self |}.

(** One entry of a frame's ['tracks'] list; the dummy results carry no
    ['quality']. *)
Record track_data := mk_track_data {
  td_track_id : Z;
  td_bbox : BBox;
  td_confidence : Q;
  td_class_name : string;
  td_class_id : Z;
  td_hits : Z;
  td_age : Z;
  td_state : TrackState;
  td_quality : option Track.quality
}.

Record frame_result := mk_frame_result {
  frame_number : Z;
  timestamp : Z;
  fr_tracks : list track_data
}.

Record tracking_stats := mk_stats {
  st_total_tracks : Z;
  st_total_detections : Z;
  st_avg_track_duration : Q;
  st_track_durations : gmap Z Z
}.

Record result := mk_result {
  total_frames : Z;
  total_tracks : Z;
  frame_results : list frame_result;
  stats : tracking_stats
}.

(** [filter_detections] *)
Definition filter_detections (self : t) (detections : list Detection.t)
    : list Detection.t :=
  let sorted_detections := Py.sorted_desc Detection.confidence detections in
  let max_detections :=
    Z.min (Z.of_nat (length sorted_detections)) (max_tracks_per_frame self) in
  Py.slice_to max_detections sorted_detections.

(** [calculate_tracking_stats]: the body of the inner loop, then the two
    nested loops, then the returned dictionary. *)
Definition count_track (acc : Z * gmap Z Z) (track : track_data)
    : Z * gmap Z Z :=
  let '(total_tracks, track_durations) := acc in
  let track_id := td_track_id track in
  let track_durations :=
    match track_durations !! track_id with
    | None => <[track_id := 0]> track_durations
    | Some _ => track_durations
    end in
  let track_durations :=
    <[track_id := default 0 (track_durations !! track_id) + 1]>
      track_durations in
  (Z.max total_tracks track_id, track_durations).

Definition count_frame (acc : Z * Z * gmap Z Z) (fr : frame_result)
    : Z * Z * gmap Z Z :=
  let '(total_tracks, total_detections, track_durations) := acc in
  let total_detections :=
    total_detections + Z.of_nat (length (fr_tracks fr)) in
  let '(total_tracks, track_durations) :=
    fold_left count_track (fr_tracks fr) (total_tracks, track_durations) in
  (total_tracks, total_detections, track_durations).

(** [sum(track_durations.values())] *)
Definition sum_values (m : gmap Z Z) : Z :=
  map_fold (fun _ v acc => acc + v) 0 m.

Definition calculate_tracking_stats (frame_results : list frame_result)
    : tracking_stats :=
  let '(total_tracks, total_detections, track_durations) :=
    fold_left count_frame frame_results (0, 0, ∅) in
  let avg_track_duration :=
    if (size track_durations =? 0)%nat then 0%Q
    else (inject_Z (sum_values track_durations)
          / inject_Z (Z.of_nat (size track_durations)))%Q in
  {| st_total_tracks := total_tracks;
     st_total_detections := total_detections;
     st_avg_track_duration := avg_track_duration;
     st_track_durations := track_durations |}.

(** The snapshot of a track that is appended to ['tracks']. *)
Definition snapshot (track : Track.t) : track_data :=
  {| td_track_id := Track.track_id track;
     td_bbox := Track.bbox track;
     td_confidence := Track.confidence track;
     td_class_name := Track.class_name track;
     td_class_id := Track.class_id track;
     td_hits := Track.hits track;
     td_age := Track.age track;
     td_state := Track.state track;
     td_quality := Some (Track.get_track_quality track) |}.

(** The part of the loop body after [self.tracker.update]: the cap on
    [tracked_objects], then the loop that appends the stable tracks. *)
Definition emit (self : t) (tracked_objects : list Track.t)
    : list track_data :=
  (* Limit tracks per frame for cost savings *)
  let tracked_objects :=
    if (max_tracks_per_frame self <? Z.of_nat (length tracked_objects))%Z
    then Py.slice_to (max_tracks_per_frame self) tracked_objects
    else tracked_objects in
  fold_left
    (fun tracks track =>
       if (min_track_duration self <=? Track.hits track)%Z
       then tracks ++ [snapshot track]     (* only include stable tracks *)
       else tracks)
    tracked_objects [].

(** [get_dummy_tracking_results] *)
Definition dummy_track : track_data :=
  {| td_track_id := 1;
     td_bbox := mkBBox 100 100 200 200;
     td_confidence := 8 # 10;
     td_class_name := "person";
     td_class_id := 0;
     td_hits := 3;
     td_age := 3;
     td_state := confirmed;
     td_quality := None |}.

Definition get_dummy_tracking_results {Frame} (frames : list Frame) : result :=
  let frame_results :=
    map (fun r => {| frame_number := Z.of_nat (oid r);
                     timestamp := Z.of_nat (oid r) * 500;
                     fr_tracks := [dummy_track] |})
        (List.filter (fun r => (Z.of_nat (oid r) mod 5 =? 0)%Z)
                     (refs_from 0 frames)) in
  let n := Z.of_nat (length frame_results) in
  {| total_frames := Z.of_nat (length frames);
     total_tracks := 1;
     frame_results := frame_results;
     stats := {| st_total_tracks := 1;
                 st_total_detections := n;
                 st_avg_track_duration := inject_Z n;
                 st_track_durations := {[ 1 := n ]} |} |}.

Section WithEnv.
Variable sqrt : Q -> Q.
Variable scipy : option (list (list Q) -> list nat * list nat).
(** The detector: a frame to the boxes YOLO finds in it, [None] when
    the model could not be imported. *)
Variable Frame : Type.
Variable yolo_model : option (Frame -> list Detection.t).

(** [detect_objects_in_frame] *)
Definition detect_objects_in_frame (self : t) (frame : Frame)
    : list Detection.t :=
  match yolo_model with
  | None => []
  | Some model =>
      List.filter
        (fun box => negb (Py.ltb (Detection.confidence box)
                                 (confidence_threshold self)))
        (model frame)
  end.

(** The body of the loop over the frames, for a frame that is not
    skipped: the service after it (its tracker has advanced) and the
    frame's result. *)
Definition process_frame (fuel : nat) (self : t) (frame_idx : Z)
    (frame : Frame) : res (t * frame_result) :=
  let detections := detect_objects_in_frame self frame in
  let filtered_detections := filter_detections self detections in
  tracker' ← EnhancedTracker.update sqrt scipy fuel (tracker self)
               filtered_detections;
  let tracked_objects := EnhancedTracker.tracks tracker' in
  Ret (set_tracker self tracker',
       {| frame_number := frame_idx;
          timestamp := frame_idx * 500;
          fr_tracks := emit self tracked_objects |}).

(** [for frame_idx, frame in enumerate(frames)] *)
Fixpoint frames_loop (fuel : nat) (self : t) (frame_idx : Z)
    (frames : list Frame) (frame_results : list frame_result)
    : res (t * list frame_result) :=
  match frames with
  | [] => Ret (self, frame_results)
  | frame :: frames' =>
      if (frame_skip self =? 0)%Z then Raise     (* ZeroDivisionError *)
      else if negb (frame_idx mod frame_skip self =? 0)%Z
      then frames_loop fuel self (frame_idx + 1) frames' frame_results
      else
        '(self', frame_result) ← process_frame fuel self frame_idx frame;
        frames_loop fuel self' (frame_idx + 1) frames'
          (frame_results ++ [frame_result])
  end.

(** [detect_and_track]; an exception inside the [try] is answered with
    the dummy results. *)
Definition detect_and_track (fuel : nat) (self : t) (frames : list Frame)
    : res result :=
  match yolo_model with
  | None => Ret (get_dummy_tracking_results frames)
  | Some _ =>
      match frames_loop fuel self 0 frames [] with
      | Ret (_, frame_results) =>
          let all_tracks := concat (map fr_tracks frame_results) in
          let ids : gset Z := list_to_set (map td_track_id all_tracks) in
          Ret {| total_frames := Z.of_nat (length frames);
                 total_tracks := Z.of_nat (size ids);
                 frame_results := frame_results;
                 stats := calculate_tracking_stats frame_results |}
      | Raise => Ret (get_dummy_tracking_results frames)
      | Timeout => Timeout
      end
  end.
End WithEnv.

End TrackingService.

(** ** An environment to run the service in

    A square root correct to six decimals and an exhaustive solver of the
    assignment problem: enough to evaluate the service on concrete frames. *)

Module Env.

Definition sqrt (q : Q) : Q :=
  if Qle_bool q 0 then 0%Q
  else Qmake (Z.sqrt (Qnum q * Zpos (Qden q) * 10 ^ 12))
             (Qden q * 1000000).

(** Every way to give each row a column of its own. *)
Fixpoint injections (rows cols : list nat) : list (list (nat * nat)) :=
  match rows with
  | [] => [[]]
  | r :: rows' =>
      flat_map
        (fun c => map (cons (r, c))
                      (injections rows' (List.remove Nat.eq_dec c cols)))
        cols
  end.

Definition entry (cost : list (list Q)) (p : nat * nat) : Q :=
  match cost !! fst p with
  | Some row => default 0%Q (row !! snd p)
  | None => 0%Q
  end.

Definition total (cost : list (list Q)) (a : list (nat * nat)) : Q :=
  fold_left (fun acc p => (acc + entry cost p)%Q) a 0%Q.

(** The first assignment of least total cost. *)
Fixpoint cheapest (cost : list (list Q)) (best : list (nat * nat))
    (candidates : list (list (nat * nat))) : list (nat * nat) :=
  match candidates with
  | [] => best
  | a :: candidates' =>
      cheapest cost (if Py.ltb (total cost a) (total cost best) then a else best)
               candidates'
  end.

Fixpoint insert_by_row (p : nat * nat) (l : list (nat * nat)) : list (nat * nat) :=
  match l with
  | [] => [p]
  | q :: l' => if (fst p <=? fst q)%nat then p :: q :: l'
               else q :: insert_by_row p l'
  end.

Definition linear_sum_assignment (cost : list (list Q)) : list nat * list nat :=
  let n := length cost in
  let m := length (List.hd [] cost) in
  let candidates :=
    if (n <=? m)%nat then injections (seq 0 n) (seq 0 m)
    else map (fun a => fold_right insert_by_row []
                         (map (fun p => (snd p, fst p)) a))
             (injections (seq 0 m) (seq 0 n)) in
  let best :=
    match candidates with
    | [] => []
    | a :: candidates' => cheapest cost a candidates'
    end in
  (map fst best, map snd best).

End Env.

(** ** Concrete inputs *)

Module Examples.

(** Two detections far apart, each of confidence 0.9. *)
Definition dA : Detection.t := Detection.mk (mkBBox 0 0 10 10) (9 # 10) 0 "person".
Definition dB : Detection.t :=
  Detection.mk (mkBBox 100 100 110 110) (9 # 10) 0 "person".


(** The track [Track(dA.bbox, 0.9, 0, "person", 1)]. *)
Definition tA : Track.t := Track.init (mkBBox 0 0 10 10) (9 # 10) 0 "person" 1.

(** A frame is represented by the boxes the detector finds in it. *)
Definition Frame : Type := list Detection.t.
Definition yolo : option (Frame -> list Detection.t) := Some (fun frame => frame).
Definition scipy : option (list (list Q) -> list nat * list nat) :=
  Some Env.linear_sum_assignment.

(** [TrackingService()] with the defaults of [main], and one that emits at
    most one track per frame. *)
Definition service : TrackingService.t := TrackingService.init (1 # 2) (45 # 100) 10.
Definition service1 : TrackingService.t := TrackingService.init (1 # 2) (45 # 100) 1.

(** Seven frames (every other one is sampled): an object at [dA] in frame 0,
    then another at [dB] in frames 2, 4 and 6. *)
Definition video : list Frame := [[dA]; []; [dB]; []; [dB]; []; [dB]].

(** A tracker that holds the one track [tA], and a reference to [dB] as
    the only detection of a frame. *)
Definition trackerA : EnhancedTracker.t :=
  EnhancedTracker.set_tracks (EnhancedTracker.init 30 3 (3 # 10)) [tA].
Definition rA : ref Detection.t := mkref 0 dA.
Definition rB : ref Detection.t := mkref 0 dB.

(** Two malformed detections: a box with [x2 < x1] and [y2 < y1], and a
    confidence of 1.5. *)
Definition d_bad : Detection.t :=
  Detection.mk (mkBBox 10 10 5 5) (9 # 10) 0 "person".
Definition d_over : Detection.t :=
  Detection.mk (mkBBox 50 50 60 60) (3 # 2) 0 "person".

(** A tracker whose only track, with id 1, has gone 29 frames without a
    match. *)
Definition tracker_old : EnhancedTracker.t :=
  {| EnhancedTracker.max_age := 30;
     EnhancedTracker.min_hits := 3;
     EnhancedTracker.iou_threshold := 3 # 10;
     EnhancedTracker.tracks := [Nat.iter 29 Track.mark_missed tA];
     EnhancedTracker.frame_count := 29;
     EnhancedTracker.next_id := 2 |}.


(** The tracker after three frames showing [dA], run without [scipy]: its
    one track is confirmed. *)
Definition tracker_confirmed : EnhancedTracker.t :=
  Eval vm_compute in
    match EnhancedTracker.updates Env.sqrt None 2
            (EnhancedTracker.init 30 3 (3 # 10)) (repeat [dA] 3) with
    | Ret tracker => tracker
    | _ => EnhancedTracker.init 30 3 (3 # 10)
    end.

End Examples.


(** ** Vocabulary of the statements *)

(** The IoU of a track, read through [self.tracks], and a detection. *)
Definition iou_of (self : EnhancedTracker.t) (r : track_ref)
    (d : ref Detection.t) : Q :=
  EnhancedTracker.iou (Track.bbox (deref (EnhancedTracker.tracks self) r))
                      (Detection.bbox (val d)).

(** A pair whose IoU exceeds [self.iou_threshold]. *)
Definition above_threshold (self : EnhancedTracker.t)
    (p : track_ref * ref Detection.t) : Prop :=
  (EnhancedTracker.iou_threshold self < iou_of self (fst p) (snd p))%Q.

(** A track the greedy matcher can pick for a detection: the IoU is
    positive and above the threshold. *)
Definition matchable (self : EnhancedTracker.t) (d : ref Detection.t)
    (r : track_ref) : bool :=
  Py.ltb 0 (iou_of self r d)
  && Py.ltb (EnhancedTracker.iou_threshold self) (iou_of self r d).

(** A state of the greedy loop in which a detection that is still to be
    visited has no matchable track among the unmatched ones. *)
Definition stuck (self : EnhancedTracker.t)
    (st : EnhancedTracker.greedy_state) : Prop :=
  exists k d, (EnhancedTracker.g_next st <= k)%nat
    /\ EnhancedTracker.g_unmatched_detections st !! k = Some d
    /\ forall r, In r (EnhancedTracker.g_unmatched_tracks st)
                 -> matchable self d r = false.

(** The stable tracks, those with [hits >= self.min_track_duration]. *)
Definition stable (self : TrackingService.t) (track : Track.t) : bool :=
  (TrackingService.min_track_duration self <=? Track.hits track)%Z.

(** The emission in the order the specification words it: the output
    filter first, the cap on the filtered list second. *)
Definition emit_filter_then_cap (self : TrackingService.t)
    (tracked_objects : list Track.t) : list TrackingService.track_data :=
  map TrackingService.snapshot
      (firstn (Z.to_nat (TrackingService.max_tracks_per_frame self))
              (List.filter (stable self) tracked_objects)).

(** Every entry a video emitted, frame after frame, and their track ids. *)
Definition emitted (frame_results : list TrackingService.frame_result)
    : list TrackingService.track_data :=
  concat (map TrackingService.fr_tracks frame_results).

Definition emitted_ids (frame_results : list TrackingService.frame_result)
    : list Z :=
  map TrackingService.td_track_id (emitted frame_results).

(** The number of distinct track ids among the emitted entries. *)
Definition distinct_ids (frame_results : list TrackingService.frame_result)
    : nat :=
  size (list_to_set (emitted_ids frame_results) : gset Z).

(** [track_durations[track_id] += 1], with the entry created at need. *)
Definition bump (m : gmap Z Z) (id : Z) : gmap Z Z :=
  <[id := default 0 (m !! id) + 1]> m.

(** A detection the specification calls malformed (the coordinates of the
    model are rationals, so all of them are finite). *)
Definition malformed (d : Detection.t) : bool :=
  Qle_bool (b2 (Detection.bbox d)) (b0 (Detection.bbox d))
  || Qle_bool (b3 (Detection.bbox d)) (b1 (Detection.bbox d))
  || Py.ltb (Detection.confidence d) 0
  || Py.ltb 1 (Detection.confidence d).

(** A detection with its box replaced. *)
Definition with_bbox (f : BBox -> BBox) (d : Detection.t) : Detection.t :=
  Detection.mk (f (Detection.bbox d)) (Detection.confidence d)
               (Detection.class_id d) (Detection.class_name d).

(** The detections of confidence 0.5 or more. *)
Definition high_confidence (d : Detection.t) : bool :=
  Py.geb (Detection.confidence d) (1 # 2).

(** The tracks [Track(d.bbox, d.confidence, d.class_id, d.class_name, id)]
    for the detections of a list, with the ids [next_id], [next_id + 1], ... *)
Fixpoint new_tracks (dets : list (ref Detection.t)) (next_id : Z)
    : list Track.t :=
  match dets with
  | [] => []
  | d :: dets' =>
      Track.init (Detection.bbox (val d)) (Detection.confidence (val d))
                 (Detection.class_id (val d)) (Detection.class_name (val d))
                 next_id
      :: new_tracks dets' (next_id + 1)
  end.

(** The ids of the active tracks. *)
Definition ids (self : EnhancedTracker.t) : list Z :=
  map Track.track_id (EnhancedTracker.tracks self).


(** What the tracker relies on from [linear_sum_assignment]: no row and no
    column is assigned twice. *)
Definition assigns_once (lsa : list (list Q) -> list nat * list nat) : Prop :=
  forall cost, NoDup (fst (lsa cost)) /\ NoDup (snd (lsa cost)).

(** The solver's indices point into the cost matrix. *)
Definition in_range (lsa : list (list Q) -> list nat * list nat) : Prop :=
  forall cost,
    Forall (fun i => (i < length cost)%nat) (fst (lsa cost))
    /\ Forall (fun j => (j < length (List.hd [] cost))%nat) (snd (lsa cost)).


(** *** Boxes *)

(** The length of the overlap of two intervals, as [iou] computes it for
    each axis, and the area of a box. *)
Definition overlap (lo1 hi1 lo2 hi2 : Q) : Q :=
  Py.max 0 (Py.min hi1 hi2 - Py.max lo1 lo2).

Definition area (b : BBox) : Q := ((b2 b - b0 b) * (b3 b - b1 b))%Q.

(** A box with positive width and height. *)
Definition well_formed (b : BBox) : Prop := (b0 b < b2 b)%Q /\ (b1 b < b3 b)%Q.

(** *** Tracks *)

(** The counters and the histories of a track agree: the track was hit at
    least once, every call that aged it either hit or missed it, the
    histories hold the last 15 hits and end in the current box and
    confidence. *)
Record consistent (t : Track.t) : Prop := {
  hits_ge_1 : 1 <= Track.hits t;
  misses_ge_0 : 0 <= Track.time_since_update t;
  calls_counted : Track.hits t + Track.time_since_update t <= Track.age t + 1;
  history_length :
    Z.of_nat (length (Track.history t)) = Z.min (Track.hits t) 15;
  confidence_history_length :
    length (Track.confidence_history t) = length (Track.history t);
  history_last : last (Track.history t) = Some (Track.bbox t);
  confidence_history_last :
    last (Track.confidence_history t) = Some (Track.confidence t)
}.

Definition in_unit (q : Q) : Prop := (0 <= q)%Q /\ (q <= 1)%Q.

(** The confidence and the three scores of a track lie in [[0, 1]]. *)
Record scored (t : Track.t) : Prop := {
  confidence_in_unit : in_unit (Track.confidence t);
  stability_in_unit : in_unit (Track.stability_score t);
  consistency_in_unit : in_unit (Track.consistency_score t);
  quality_in_unit : in_unit (Track.quality_score t)
}.

(** What is assumed of [math.sqrt] where a bound on the scores needs it. *)
Definition nonnegative (sqrt : Q -> Q) : Prop := forall x, (0 <= sqrt x)%Q.

(** A track that was just updated from the detection [d]. *)
Definition carries (t' : Track.t) (d : Detection.t) : Prop :=
  Track.bbox t' = Detection.bbox d
  /\ Track.confidence t' = Detection.confidence d
  /\ Track.time_since_update t' = 0.

(** *** Trackers and frame results *)

(** The ids of the active tracks grow along [self.tracks] and lie between 1
    and [next_id]. *)
Definition ordered_ids (self : EnhancedTracker.t) : Prop :=
  StronglySorted Z.lt (ids self)
  /\ Forall (fun id => 1 <= id < EnhancedTracker.next_id self) (ids self).

(** What a tracker that started from the constructor satisfies. *)
Record sound (tracker : EnhancedTracker.t) : Prop := {
  sound_ids : ordered_ids tracker;
  sound_next_id : 1 <= EnhancedTracker.next_id tracker;
  sound_tracks : Forall consistent (EnhancedTracker.tracks tracker);
  sound_states :
    Forall (fun t => Track.state t <> deleted) (EnhancedTracker.tracks tracker)
}.

(** [a] is at least as confident as [b]. *)
Definition at_least (a b : Detection.t) : Prop :=
  (Detection.confidence b <= Detection.confidence a)%Q.

(** What holds of an entry of a frame's ['tracks']. *)
Record reported (self : TrackingService.t) (td : TrackingService.track_data)
    : Prop := {
  reported_id : 1 <= TrackingService.td_track_id td;
  reported_hits :
    TrackingService.min_track_duration self <= TrackingService.td_hits td;
  reported_age : TrackingService.td_hits td <= TrackingService.td_age td + 1;
  reported_state : TrackingService.td_state td <> deleted
}.

(** A frame result that lists no id twice, and only entries as above. *)
Definition well_reported (self : TrackingService.t)
    (fr : TrackingService.frame_result) : Prop :=
  NoDup (map TrackingService.td_track_id (TrackingService.fr_tracks fr))
  /\ Forall (reported self) (TrackingService.fr_tracks fr).

(** *** The solver's contract, and what follows from it *)

(** The solver returns as many row indices as column indices. *)
Definition pairs_up (lsa : list (list Q) -> list nat * list nat) : Prop :=
  forall cost, length (fst (lsa cost)) = length (snd (lsa cost)).

(** A track that has been through a call: every hit but the first aged it,
    and it is no older than the tracker. *)
Definition seasoned (frame_count : Z) (t : Track.t) : Prop :=
  Track.hits t <= Track.age t /\ Track.age t <= frame_count.

(** The entries of the [k]-th frame result have at most [k + 1] hits. *)
Definition hits_within (frs : list TrackingService.frame_result) : Prop :=
  forall k fr, frs !! k = Some fr ->
    Forall (fun td => TrackingService.td_hits td <= Z.of_nat k + 1)
           (TrackingService.fr_tracks fr).

(** Two boxes that share a region of positive area. *)
Definition overlapping (a b : BBox) : Prop :=
  (Py.max (b0 a) (b0 b) < Py.min (b2 a) (b2 b))%Q
  /\ (Py.max (b1 a) (b1 b) < Py.min (b3 a) (b3 b))%Q.

(** A square root that is at most 0.01 at 0: the exact one, and one that
    is off by rounding. *)
Definition small_at_zero (sqrt : Q -> Q) : Prop :=
  forall x, (x == 0)%Q -> (sqrt x <= 1 # 100)%Q.

(** Two trackers with the same threshold whose tracks have, position by
    position, the same [bbox]. *)
Definition same_boxes (a b : EnhancedTracker.t) : Prop :=
  EnhancedTracker.iou_threshold a = EnhancedTracker.iou_threshold b
  /\ forall r, Track.bbox (deref (EnhancedTracker.tracks a) r)
               = Track.bbox (deref (EnhancedTracker.tracks b) r).

(** A track that no detection has been matched to since it was created:
    [hits] is 1 in the constructor and only [Track.update] adds to it. *)
Definition never_matched (t : Track.t) : Prop := Track.hits t = 1.

(** The scores of such a track: the stability and the consistency the
    constructor gave it, and a quality that has lost 5% in every call since
    (the call that created it included); it still holds the box and the
    confidence of the detection it was created from, and nothing else. *)
Record unscored (t : Track.t) : Prop := {
  unscored_stability : Track.stability_score t = 1%Q;
  unscored_consistency : Track.consistency_score t = 1%Q;
  unscored_misses : 0 <= Track.time_since_update t;
  unscored_age : Track.age t = Track.time_since_update t;
  unscored_history : Track.history t = [Track.bbox t];
  unscored_confidences : Track.confidence_history t = [Track.confidence t];
  unscored_quality :
    (Track.quality_score t
     == Track.confidence t * (95 # 100) ^ Track.time_since_update t)%Q
}.

(** The hit count is positive, and a track with one hit is as the
    constructor and the misses since left it. *)
Definition counted (t : Track.t) : Prop :=
  1 <= Track.hits t /\ (never_matched t -> unscored t).
(** * Properties *)

(** ** Comparisons *)

Lemma ltb_lt (a b : Q) : Py.ltb a b = true <-> (a < b)%Q.
Proof.
  unfold Py.ltb. rewrite negb_true_iff. split.
  - intros H. apply Qnot_le_lt. intros Hle. apply Qle_bool_iff in Hle. congruence.
  - intros H. destruct (Qle_bool b a) eqn:E; [|done].
    apply Qle_bool_iff in E. lra.
Qed.

Lemma ltb_ge (a b : Q) : Py.ltb a b = false <-> (b <= a)%Q.
Proof.
  unfold Py.ltb. rewrite negb_false_iff. apply Qle_bool_iff.
Qed.

Lemma geb_le (a b : Q) : Py.geb a b = true <-> (b <= a)%Q.
Proof. apply Qle_bool_iff. Qed.

(** ** Track *)

(** The hit count of a track is positive from its creation on. *)
Lemma hits_positive_init bbox confidence class_id class_name track_id :
  1 <= Track.hits (Track.init bbox confidence class_id class_name track_id).
Proof. simpl. lia. Qed.

Lemma hits_update sqrt self bbox confidence :
  Track.hits (Track.update sqrt self bbox confidence) = Track.hits self + 1.
Proof. unfold Track.update. destruct (15 <? _)%nat; reflexivity. Qed.

Lemma hits_mark_missed self :
  Track.hits (Track.mark_missed self) = Track.hits self.
Proof. reflexivity. Qed.

(** C5.  After [update(bbox, confidence)] on a track (its hit count is
    never negative), the quality is the mean of the confidence, the
    stability and the consistency just stored; the state is [confirmed]
    exactly when [hits >= 3] and [quality_score > 0.6], and it is
    [tentative], with [hits >= 1], otherwise. *)
Theorem C5_confirmation_rule (sqrt : Q -> Q) (self : Track.t) (bbox : BBox)
    (confidence : Q) :
  0 <= Track.hits self ->
  let t' := Track.update sqrt self bbox confidence in
  Track.quality_score t'
  = ((Track.confidence t' + Track.stability_score t'
      + Track.consistency_score t') / 3)%Q
  /\ (Track.state t' = confirmed
      <-> 3 <= Track.hits t' /\ (6 # 10 < Track.quality_score t')%Q)
  /\ (Track.state t' <> confirmed
      -> Track.state t' = tentative /\ 1 <= Track.hits t').
Proof.
  intros Hh. unfold Track.update.
  destruct (15 <? _)%nat; simpl.
  all: split; [reflexivity|].
  all: destruct (3 <=? Track.hits self + 1) eqn:E3; simpl.
  all: try match goal with
           | |- context [Py.ltb ?a ?b] => destruct (Py.ltb a b) eqn:EL
           end; simpl.
  all: try (apply ltb_lt in EL).
  all: try (apply ltb_ge in EL).
  all: try (apply Z.leb_le in E3).
  all: try (apply Z.leb_gt in E3).
  all: try (destruct (1 <=? Track.hits self + 1) eqn:E1;
            [|apply Z.leb_gt in E1; lia]).
  all: split; [split; [intros H|intros [H1 H2]]|intros H].
  all: try done; try lia; try (split; [done|lia]).
  all: exfalso; revert EL H2; apply Qle_not_lt.
Qed.

(** C5 at the track [Examples.tA], updated with the box it was created from. *)
Lemma C5_confirmation_rule_witness :
  let t' := Track.update Env.sqrt Examples.tA (mkBBox 0 0 10 10) (9 # 10) in
  Track.quality_score t'
  = ((Track.confidence t' + Track.stability_score t'
      + Track.consistency_score t') / 3)%Q
  /\ (Track.state t' = confirmed
      <-> 3 <= Track.hits t' /\ (6 # 10 < Track.quality_score t')%Q)
  /\ (Track.state t' <> confirmed
      -> Track.state t' = tentative /\ 1 <= Track.hits t').
Proof.
  apply (C5_confirmation_rule Env.sqrt Examples.tA (mkBBox 0 0 10 10) (9 # 10)).
  simpl. lia.
Defined.

(** [predict] leaves every field but the velocity as it is. *)
Lemma predict_bbox (self : Track.t) :
  Track.bbox (fst (Track.predict self)) = Track.bbox self.
Proof. unfold Track.predict. destruct (2 <=? _)%nat; reflexivity. Qed.

Lemma predict_state (self : Track.t) :
  Track.state (fst (Track.predict self)) = Track.state self.
Proof. unfold Track.predict. destruct (2 <=? _)%nat; reflexivity. Qed.

Lemma predict_track_id (self : Track.t) :
  Track.track_id (fst (Track.predict self)) = Track.track_id self.
Proof. unfold Track.predict. destruct (2 <=? _)%nat; reflexivity. Qed.

Lemma predict_time_since_update (self : Track.t) :
  Track.time_since_update (fst (Track.predict self))
  = Track.time_since_update self.
Proof. unfold Track.predict. destruct (2 <=? _)%nat; reflexivity. Qed.

(** ** The associator *)

Lemma subscript_Ret {A} (l : list A) (i : nat) (a : A) :
  subscript l i = Ret a <-> l !! i = Some a.
Proof. unfold subscript. destruct (l !! i); split; congruence. Qed.

Lemma In_remove_track (r x : track_ref) (l : list track_ref) :
  In x (remove_track r l) -> In x l.
Proof.
  induction l as [|y l IH]; simpl; [tauto|].
  destruct (Nat.eqb y r); simpl; tauto.
Qed.

Section Associator.
Variable self : EnhancedTracker.t.

Lemma best_track_acc (d : ref Detection.t) (trs : list track_ref)
    (acc : option track_ref * Q) :
  (forall r, fst acc = Some r -> above_threshold self (r, d)) ->
  forall r, fst (fold_left (EnhancedTracker.consider self d) trs acc) = Some r ->
  above_threshold self (r, d).
Proof.
  revert acc. induction trs as [|t trs IH]; intros [bt bi] Hacc r; simpl.
  - apply Hacc.
  - apply IH. intros r'.
    destruct (Py.ltb bi _ && Py.ltb _ _) eqn:E; simpl.
    + intros [= <-]. apply andb_true_iff in E as [_ E].
      apply ltb_lt in E. exact E.
    + apply Hacc.
Qed.

(** The track the inner loop of the greedy matcher settles on is above the
    threshold. *)
Lemma best_track_above (d : ref Detection.t) (trs : list track_ref)
    (r : track_ref) :
  fst (EnhancedTracker.best_track self d trs) = Some r ->
  above_threshold self (r, d).
Proof.
  unfold EnhancedTracker.best_track. apply best_track_acc. simpl. discriminate.
Qed.

Lemma greedy_step_above (st st' : EnhancedTracker.greedy_state) :
  Forall (above_threshold self) (EnhancedTracker.g_matched st) ->
  EnhancedTracker.greedy_step self st = Some st' ->
  Forall (above_threshold self) (EnhancedTracker.g_matched st').
Proof.
  intros Hm. unfold EnhancedTracker.greedy_step.
  destruct (_ !! _) as [d|]; [|discriminate].
  destruct (fst _) as [r|] eqn:E; intros [= <-]; simpl; [|exact Hm].
  apply Forall_app. split; [exact Hm|].
  constructor; [|constructor]. apply (best_track_above _ _ _ E).
Qed.

Lemma greedy_run_above (n : nat) (st : EnhancedTracker.greedy_state) :
  Forall (above_threshold self) (EnhancedTracker.g_matched st) ->
  Forall (above_threshold self)
    (EnhancedTracker.g_matched (EnhancedTracker.greedy_run n self st)).
Proof.
  revert st. induction n as [|n IH]; intros st Hm; simpl; [exact Hm|].
  destruct (EnhancedTracker.greedy_step self st) as [st'|] eqn:E; [|exact Hm].
  apply IH. apply (greedy_step_above _ _ Hm E).
Qed.

Lemma greedy_loop_above (fuel : nat) (st : EnhancedTracker.greedy_state)
    m ud ut :
  Forall (above_threshold self) (EnhancedTracker.g_matched st) ->
  EnhancedTracker.greedy_loop fuel self st = Ret (m, ud, ut) ->
  Forall (above_threshold self) m.
Proof.
  revert st. induction fuel as [|n IH]; intros st Hm; simpl; [discriminate|].
  destruct (EnhancedTracker.greedy_step self st) as [st'|] eqn:E.
  - apply IH. apply (greedy_step_above _ _ Hm E).
  - intros [= <- _ _]. exact Hm.
Qed.

(** Once a track has been picked the inner loop ends with a track. *)
Lemma best_track_acc_some (d : ref Detection.t) (trs : list track_ref)
    (r : track_ref) (bi : Q) :
  exists r' bi',
    fold_left (EnhancedTracker.consider self d) trs (Some r, bi) = (Some r', bi').
Proof.
  revert r bi. induction trs as [|t trs IH]; intros r bi; simpl; [eauto|].
  destruct (_ && _); apply IH.
Qed.

(** The inner loop finds no track exactly when none is matchable. *)
Lemma best_track_none (d : ref Detection.t) (trs : list track_ref) :
  fst (EnhancedTracker.best_track self d trs) = None
  <-> forall r, In r trs -> matchable self d r = false.
Proof.
  unfold EnhancedTracker.best_track.
  induction trs as [|t trs IH]; simpl.
  - split; [intros _ r []|reflexivity].
  - fold (iou_of self t d).
    destruct (Py.ltb 0 (iou_of self t d)
              && Py.ltb (EnhancedTracker.iou_threshold self) (iou_of self t d))
      eqn:E.
    + split.
      * destruct (best_track_acc_some d trs t (iou_of self t d))
          as (r' & bi' & ->).
        discriminate.
      * intros H. specialize (H t (or_introl eq_refl)).
        unfold matchable in H. congruence.
    + rewrite IH. split.
      * intros H r [<-|Hr]; [exact E|auto].
      * intros H r Hr. apply H. right. exact Hr.
Qed.

(** A stuck state steps to a stuck state: a detection without a track is
    appended to the list that is being walked, and the tracks it could
    match only get fewer. *)
Lemma stuck_step (st : EnhancedTracker.greedy_state) :
  stuck self st ->
  exists st', EnhancedTracker.greedy_step self st = Some st' /\ stuck self st'.
Proof.
  intros (k & d & Hk & Hd & Hnone).
  unfold EnhancedTracker.greedy_step.
  destruct (EnhancedTracker.g_unmatched_detections st
              !! EnhancedTracker.g_next st) as [d0|] eqn:E0.
  2:{ apply lookup_ge_None in E0. apply lookup_lt_Some in Hd. lia. }
  destruct (fst (EnhancedTracker.best_track self d0 _)) as [r|] eqn:Eb.
  - eexists. split; [reflexivity|].
    exists k, d. simpl. split; [|split; [exact Hd|]].
    + destruct (decide (k = EnhancedTracker.g_next st)) as [->|]; [|lia].
      exfalso. rewrite Hd in E0. injection E0 as <-.
      apply best_track_none in Hnone. congruence.
    + intros r' Hr'. apply Hnone. eapply In_remove_track. exact Hr'.
  - eexists. split; [reflexivity|].
    exists (length (EnhancedTracker.g_unmatched_detections st)), d0. simpl.
    split; [|split].
    + apply lookup_lt_Some in E0. lia.
    + rewrite lookup_app_r by lia. rewrite Nat.sub_diag. reflexivity.
    + apply best_track_none. exact Eb.
Qed.

(** The greedy loop does not return from a stuck state, whatever the fuel. *)
Lemma stuck_never_returns (fuel : nat) (st : EnhancedTracker.greedy_state) :
  stuck self st -> EnhancedTracker.greedy_loop fuel self st = Timeout.
Proof.
  revert st. induction fuel as [|n IH]; intros st Hst; simpl; [reflexivity|].
  destruct (stuck_step st Hst) as (st' & -> & Hst'). apply IH. exact Hst'.
Qed.

(** An entry of the cost matrix is [1 - IoU] of its track and detection. *)
Lemma cost_matrix_lookup trs dets i j row c r d :
  EnhancedTracker.cost_matrix self trs dets !! i = Some row ->
  row !! j = Some c -> trs !! i = Some r -> dets !! j = Some d ->
  c = (1 - iou_of self r d)%Q.
Proof.
  unfold EnhancedTracker.cost_matrix. rewrite list_lookup_fmap.
  intros Hrow Hc Hr Hd. rewrite Hr in Hrow. simpl in Hrow.
  injection Hrow as <-. rewrite list_lookup_fmap, Hd in Hc. simpl in Hc.
  injection Hc as <-. reflexivity.
Qed.

(** The loop over the solver's pairs: it accepts a pair only above the
    threshold and pushes every other pair to the two unmatched lists. *)
Lemma find_matches_spec trs dets pairs :
  forall m ut ud m' ut' ud',
  EnhancedTracker.find_matches self (EnhancedTracker.cost_matrix self trs dets)
    trs dets pairs m ut ud = Ret (m', ut', ud') ->
  Forall (above_threshold self) m ->
  Forall (above_threshold self) m'
  /\ (forall x, In x ut -> In x ut') /\ (forall x, In x ud -> In x ud')
  /\ (forall i j r d, In (i, j) pairs ->
        trs !! i = Some r -> dets !! j = Some d ->
        ~ above_threshold self (r, d) -> In r ut' /\ In d ud').
Proof.
  induction pairs as [|[i j] pairs IH]; intros m ut ud m' ut' ud'; simpl.
  - intros H Hm. injection H as <- <- <-. repeat split; auto; contradiction.
  - destruct (subscript (EnhancedTracker.cost_matrix self trs dets) i)
      as [row| |] eqn:Erow; simpl; try discriminate.
    destruct (subscript row j) as [c| |] eqn:Ec; simpl; try discriminate.
    destruct (subscript trs i) as [r| |] eqn:Er; simpl; try discriminate.
    destruct (subscript dets j) as [d| |] eqn:Ed; simpl; try discriminate.
    apply subscript_Ret in Erow, Ec, Er, Ed.
    pose proof (cost_matrix_lookup _ _ _ _ _ _ _ _ Erow Ec Er Ed) as Hc.
    destruct (Py.ltb c _) eqn:El; intros Hfm Hm.
    + apply ltb_lt in El.
      apply IH in Hfm as (H1 & H2 & H3 & H4).
      * split; [|split; [|split]]; auto.
        intros i' j' r' d' [[= <- <-]|Hin] Hr' Hd' Hn.
        -- exfalso. apply Hn. unfold above_threshold. simpl.
           rewrite Er in Hr'. rewrite Ed in Hd'.
           injection Hr' as <-. injection Hd' as <-. subst c. lra.
        -- eapply H4; eauto.
      * apply Forall_app. split; [exact Hm|]. constructor; [|constructor].
        unfold above_threshold. simpl. subst c. lra.
    + apply IH in Hfm as (H1 & H2 & H3 & H4); [|exact Hm].
      split; [|split; [|split]]; auto.
      * intros x Hx. apply H2. apply in_or_app. auto.
      * intros x Hx. apply H3. apply in_or_app. auto.
      * intros i' j' r' d' [[= <- <-]|Hin] Hr' Hd' Hn.
        -- rewrite Er in Hr'. rewrite Ed in Hd'.
           injection Hr' as <-. injection Hd' as <-.
           split; [apply H2|apply H3]; apply in_or_app; right; left;
             reflexivity.
        -- eapply H4; eauto.
Qed.

(** C8.  Whatever an associator call returns, through the solver or through
    the greedy fallback, every pair of [matched] has an IoU above
    [iou_threshold].  With the solver, a proposed pair that is not above the
    threshold ends in [unmatched_tracks] and [unmatched_detections] and not
    in [matched].  In the greedy loop the pairs matched so far are above the
    threshold after any number of turns, also in a run that never returns. *)
Theorem C8_accepted_matches_above_threshold
    (scipy : option (list (list Q) -> list nat * list nat)) (fuel : nat)
    (dets : list (ref Detection.t)) (trs : list track_ref)
    (m : list (track_ref * ref Detection.t)) (ud : list (ref Detection.t))
    (ut : list track_ref) :
  EnhancedTracker.associate_detections_to_tracks scipy fuel self dets trs
  = Ret (m, ud, ut) ->
  Forall (above_threshold self) m
  /\ (forall linear_sum_assignment i j r d,
        scipy = Some linear_sum_assignment ->
        let cost := EnhancedTracker.cost_matrix self trs dets in
        In (i, j) (combine (fst (linear_sum_assignment cost))
                           (snd (linear_sum_assignment cost))) ->
        trs !! i = Some r -> dets !! j = Some d ->
        ~ above_threshold self (r, d) ->
        In r ut /\ In d ud /\ ~ In (r, d) m)
  /\ (forall n,
        Forall (above_threshold self)
          (EnhancedTracker.g_matched
             (EnhancedTracker.greedy_run n self
                (EnhancedTracker.greedy_start dets trs)))).
Proof.
  intros Hret.
  assert (Hm : Forall (above_threshold self) m).
  { revert Hret. unfold EnhancedTracker.associate_detections_to_tracks.
    destruct (length trs =? 0)%nat; [intros [= <- _ _]; constructor|].
    destruct (length dets =? 0)%nat; [intros [= <- _ _]; constructor|].
    destruct scipy as [lsa|].
    - destruct (lsa _) as [ti di].
      destruct (EnhancedTracker.find_matches _ _ _ _ _ _ _ _)
        as [[[m0 ut0] ud0]| |] eqn:Efm; simpl; try discriminate.
      intros [= <- _ _].
      apply find_matches_spec in Efm as (H & _); [exact H|constructor].
    - apply greedy_loop_above. constructor. }
  split; [exact Hm|]. split.
  - intros lsa i j r d -> cost Hin Hr Hd Hn.
    assert (Hnm : ~ In (r, d) m).
    { intros Hin'. apply Hn. apply (proj1 (List.Forall_forall _ _) Hm _ Hin'). }
    revert Hret. unfold EnhancedTracker.associate_detections_to_tracks.
    destruct (length trs =? 0)%nat eqn:El1.
    { apply Nat.eqb_eq in El1. destruct trs; [|discriminate]. discriminate. }
    destruct (length dets =? 0)%nat eqn:El2.
    { apply Nat.eqb_eq in El2. destruct dets; [|discriminate]. discriminate. }
    fold cost. fold cost in Hin. destruct (lsa cost) as [ti di]. simpl in Hin.
    destruct (EnhancedTracker.find_matches _ _ _ _ _ _ _ _)
      as [[[m0 ut0] ud0]| |] eqn:Efm; simpl; try discriminate.
    intros [= <- <- <-].
    apply find_matches_spec in Efm as (_ & _ & _ & H); [|constructor].
    destruct (H i j r d Hin Hr Hd Hn) as [H1 H2].
    split; [|split]; [apply in_or_app; auto|apply in_or_app; auto|exact Hnm].
  - intros n. apply greedy_run_above. constructor.
Qed.

End Associator.

(** C8 at the tracker that holds [tA] and the detection [dA] on top of it:
    the solver proposes the pair and it is accepted. *)
Lemma C8_accepted_matches_above_threshold_witness :
  Forall (above_threshold Examples.trackerA) [(0%nat, Examples.rA)]
  /\ (forall linear_sum_assignment i j r d,
        Examples.scipy = Some linear_sum_assignment ->
        let cost := EnhancedTracker.cost_matrix Examples.trackerA [0%nat]
                      [Examples.rA] in
        In (i, j) (combine (fst (linear_sum_assignment cost))
                           (snd (linear_sum_assignment cost))) ->
        [0%nat] !! i = Some r -> [Examples.rA] !! j = Some d ->
        ~ above_threshold Examples.trackerA (r, d) ->
        In r [] /\ In d [] /\ ~ In (r, d) [(0%nat, Examples.rA)])
  /\ (forall n,
        Forall (above_threshold Examples.trackerA)
          (EnhancedTracker.g_matched
             (EnhancedTracker.greedy_run n Examples.trackerA
                (EnhancedTracker.greedy_start [Examples.rA] [0%nat])))).
Proof.
  apply (C8_accepted_matches_above_threshold Examples.trackerA Examples.scipy
           0 [Examples.rA] [0%nat]).
  vm_compute. reflexivity.
Defined.

(** ** Sorting by descending key *)

Lemma insert_desc_perm {A} (key : A -> Q) (x : A) (l : list A) :
  Permutation (Py.insert_desc key x l) (x :: l).
Proof.
  induction l as [|y l IH]; simpl; [reflexivity|].
  destruct (Qle_bool (key y) (key x)); [reflexivity|].
  rewrite IH. apply perm_swap.
Qed.

Lemma sorted_desc_perm {A} (key : A -> Q) (l : list A) :
  Permutation (Py.sorted_desc key l) l.
Proof.
  induction l as [|x l IH]; simpl; [reflexivity|].
  rewrite insert_desc_perm. apply perm_skip. exact IH.
Qed.

(** ** The greedy fallback *)

(** A detection without a matchable track keeps the greedy matcher from
    returning: the loop appends it to the list it is walking, again and
    again. *)
Lemma greedy_unmatched_never_returns (self : EnhancedTracker.t)
    (dets : list (ref Detection.t)) (trs : list track_ref)
    (d : ref Detection.t) (fuel : nat) :
  In d dets ->
  (forall r, In r trs -> matchable self d r = false) ->
  EnhancedTracker.greedy_assignment fuel self dets trs = Timeout.
Proof.
  intros Hd Hnone. apply stuck_never_returns.
  assert (Hin : In d (Py.sorted_desc (fun x => Detection.confidence (val x)) dets)).
  { eapply Permutation_in; [symmetry; apply sorted_desc_perm|exact Hd]. }
  apply list_elem_of_In, list_elem_of_lookup in Hin as [k Hk].
  exists k, d. simpl. split; [lia|]. split; [exact Hk|exact Hnone].
Qed.

(** C2 (the code departs from it).  With the one track [tA] and the one
    detection [dB], which do not overlap, [greedy_assignment] does not
    return for any amount of fuel: the unmatched detection is appended to
    the list the [for] loop is iterating over. *)
Theorem C2_greedy_never_returns (fuel : nat) :
  EnhancedTracker.greedy_assignment fuel Examples.trackerA
    [Examples.rB] [0%nat] = Timeout.
Proof.
  apply (greedy_unmatched_never_returns _ _ _ Examples.rB).
  - left. reflexivity.
  - intros r [<-|[]]. vm_compute. reflexivity.
Qed.

(** When the greedy matcher does return, every detection was matched and
    yet the list of unmatched detections it returns holds all of them: a
    matched detection is never taken out of it. *)
Lemma greedy_loop_returns (self : EnhancedTracker.t) (fuel : nat)
    (st : EnhancedTracker.greedy_state) m ud ut :
  EnhancedTracker.greedy_loop fuel self st = Ret (m, ud, ut) ->
  ud = EnhancedTracker.g_unmatched_detections st
  /\ map snd m
     = map snd (EnhancedTracker.g_matched st)
       ++ skipn (EnhancedTracker.g_next st) ud.
Proof.
  revert st. induction fuel as [|n IH]; intros st; simpl; [discriminate|].
  destruct (EnhancedTracker.greedy_step self st) as [st'|] eqn:E.
  - intros Hret. revert E. unfold EnhancedTracker.greedy_step.
    destruct (_ !! _) as [d0|] eqn:E0; [|discriminate].
    destruct (fst _) as [r|] eqn:Eb; intros [= <-].
    + apply IH in Hret as [-> Hm]. simpl in *. split; [reflexivity|].
      rewrite Hm, map_app, <- app_assoc. simpl.
      rewrite <- (drop_S _ _ _ E0). reflexivity.
    + exfalso. rewrite stuck_never_returns in Hret; [discriminate|].
      exists (length (EnhancedTracker.g_unmatched_detections st)), d0. simpl.
      split; [|split].
      * apply lookup_lt_Some in E0. lia.
      * rewrite lookup_app_r by lia. rewrite Nat.sub_diag. reflexivity.
      * apply best_track_none. exact Eb.
  - intros [= <- <- <-]. split; [reflexivity|].
    unfold EnhancedTracker.greedy_step in E.
    destruct (_ !! _) eqn:E0.
    + destruct (fst _); discriminate.
    + apply lookup_ge_None in E0.
      rewrite skipn_all2 by lia. rewrite app_nil_r. reflexivity.
Qed.

Lemma greedy_assignment_returns (self : EnhancedTracker.t) (fuel : nat)
    (dets : list (ref Detection.t)) (trs : list track_ref) m ud ut :
  EnhancedTracker.greedy_assignment fuel self dets trs = Ret (m, ud, ut) ->
  ud = Py.sorted_desc (fun x => Detection.confidence (val x)) dets
  /\ map snd m = ud.
Proof.
  intros H. apply greedy_loop_returns in H as [-> H]. split; [reflexivity|].
  exact H.
Qed.

(** The failing call of C2 inside a frame: a tracker that holds the
    tentative track [tA] is given the detection [dB] while [scipy] cannot
    be imported.  Stage B hands both to the greedy matcher, and [update]
    does not return. *)
Lemma update_never_returns_without_scipy (fuel : nat) :
  EnhancedTracker.update Env.sqrt None fuel Examples.trackerA [Examples.dB]
  = Timeout.
Proof.
  unfold EnhancedTracker.update, EnhancedTracker.run_stages.
  cbn -[EnhancedTracker.greedy_assignment].
  rewrite (greedy_unmatched_never_returns _ _ _ Examples.rB).
  - reflexivity.
  - left. reflexivity.
  - intros r [<-|[]]. vm_compute. reflexivity.
Qed.

(** ** The per-frame result *)

Lemma fold_left_append_if {A B} (p : A -> bool) (f : A -> B) (l : list A)
    (acc : list B) :
  fold_left (fun acc x => if p x then acc ++ [f x] else acc) l acc
  = acc ++ map f (List.filter p l).
Proof.
  revert acc. induction l as [|x l IH]; intros acc; simpl.
  - rewrite app_nil_r. reflexivity.
  - destruct (p x); rewrite IH; simpl; [|reflexivity].
    rewrite <- app_assoc. reflexivity.
Qed.

Lemma filter_length_le {A} (p : A -> bool) (l : list A) :
  (length (List.filter p l) <= length l)%nat.
Proof.
  induction l as [|x l IH]; simpl; [lia|]. destruct (p x); simpl; lia.
Qed.

(** [emit] caps the list the tracker returned and filters what is left. *)
Lemma emit_caps_then_filters (self : TrackingService.t)
    (tracked_objects : list Track.t) :
  0 <= TrackingService.max_tracks_per_frame self ->
  TrackingService.emit self tracked_objects
  = map TrackingService.snapshot
        (List.filter (stable self)
           (firstn (Z.to_nat (TrackingService.max_tracks_per_frame self))
                   tracked_objects)).
Proof.
  intros HK. unfold TrackingService.emit.
  rewrite (fold_left_append_if (stable self) TrackingService.snapshot).
  simpl. f_equal. f_equal.
  destruct (_ <? _) eqn:E.
  - unfold Py.slice_to. destruct (0 <=? _) eqn:E0; [reflexivity|].
    apply Z.leb_gt in E0. lia.
  - apply Z.ltb_ge in E. rewrite firstn_all2; [reflexivity|lia].
Qed.

(** C1, amended.  With a cap that is not negative, a processed frame first
    truncates the list [Tracker.update] returned to its first
    [max_tracks_per_frame] tracks, in the tracker's order, and then emits
    those of them with [hits >= min_track_duration]; so at most
    [max_tracks_per_frame] tracks are emitted, and a stable track beyond the
    cap is not.  The tracker the service keeps is the one [update] left,
    with every track that was cut or filtered out still in it. *)
Theorem C1_frame_result_caps_then_filters (sqrt : Q -> Q)
    (scipy : option (list (list Q) -> list nat * list nat)) (Frame : Type)
    (yolo_model : option (Frame -> list Detection.t)) (fuel : nat)
    (self : TrackingService.t) (frame_idx : Z) (frame : Frame) :
  0 <= TrackingService.max_tracks_per_frame self ->
  let K := Z.to_nat (TrackingService.max_tracks_per_frame self) in
  TrackingService.process_frame sqrt scipy Frame yolo_model fuel self
    frame_idx frame
  = (tracker' ← EnhancedTracker.update sqrt scipy fuel
                  (TrackingService.tracker self)
                  (TrackingService.filter_detections self
                     (TrackingService.detect_objects_in_frame Frame yolo_model
                        self frame));
     Ret (TrackingService.set_tracker self tracker',
          {| TrackingService.frame_number := frame_idx;
             TrackingService.timestamp := frame_idx * 500;
             TrackingService.fr_tracks :=
               map TrackingService.snapshot
                   (List.filter (stable self)
                      (firstn K (EnhancedTracker.tracks tracker'))) |}))
  /\ forall tracked_objects,
       (length (TrackingService.emit self tracked_objects) <= K)%nat.
Proof.
  intros HK K. split.
  - unfold TrackingService.process_frame.
    destruct (EnhancedTracker.update _ _ _ _ _) as [tracker'| |]; simpl;
      try reflexivity.
    rewrite (emit_caps_then_filters _ _ HK). reflexivity.
  - intros tracked. rewrite (emit_caps_then_filters _ _ HK).
    rewrite length_map.
    etransitivity; [apply filter_length_le|]. apply firstn_le_length.
Qed.

(** C1 at the service that emits one track per frame, on a frame that shows
    [dA]. *)
Lemma C1_frame_result_caps_then_filters_witness :
  let self := Examples.service1 in
  let K := Z.to_nat (TrackingService.max_tracks_per_frame self) in
  TrackingService.process_frame Env.sqrt Examples.scipy Examples.Frame
    Examples.yolo 0 self 0 [Examples.dA]
  = (tracker' ← EnhancedTracker.update Env.sqrt Examples.scipy 0
                  (TrackingService.tracker self)
                  (TrackingService.filter_detections self
                     (TrackingService.detect_objects_in_frame Examples.Frame
                        Examples.yolo self [Examples.dA]));
     Ret (TrackingService.set_tracker self tracker',
          {| TrackingService.frame_number := 0;
             TrackingService.timestamp := 0 * 500;
             TrackingService.fr_tracks :=
               map TrackingService.snapshot
                   (List.filter (stable self)
                      (firstn K (EnhancedTracker.tracks tracker'))) |}))
  /\ forall tracked_objects,
       (length (TrackingService.emit self tracked_objects) <= K)%nat.
Proof.
  apply (C1_frame_result_caps_then_filters Env.sqrt Examples.scipy
           Examples.Frame Examples.yolo 0 Examples.service1 0 [Examples.dA]).
  simpl. lia.
Defined.

(** C1 as stated fails.  The service that emits one track per frame runs on
    [Examples.video]; the last sampled frame leaves the tracker with track 1
    (one hit) in front of track 2 (three hits).  The code cuts the list to
    track 1 and then drops it for its single hit, so the frame emits
    nothing; filtering first and capping second would emit track 2. *)
Lemma C1_filter_then_cap_counterexample :
  match TrackingService.frames_loop Env.sqrt Examples.scipy Examples.Frame
          Examples.yolo 0 Examples.service1 0 Examples.video [] with
  | Ret (self', frame_results) =>
      let tracked_objects :=
        EnhancedTracker.tracks (TrackingService.tracker self') in
      map (fun t => (Track.track_id t, Track.hits t)) tracked_objects
      = [(1, 1); (2, 3)]
      /\ map TrackingService.fr_tracks frame_results = [[]; []; []; []]
      /\ TrackingService.emit Examples.service1 tracked_objects = []
      /\ map TrackingService.td_track_id
           (emit_filter_then_cap Examples.service1 tracked_objects) = [2]
  | _ => False
  end.
Proof. vm_compute. repeat split. Qed.

(** ** The statistics of a video *)

Lemma count_track_bump tt m track :
  TrackingService.count_track (tt, m) track
  = (Z.max tt (TrackingService.td_track_id track),
     bump m (TrackingService.td_track_id track)).
Proof.
  unfold TrackingService.count_track, bump. f_equal.
  destruct (m !! _) as [v|] eqn:E.
  - rewrite E. reflexivity.
  - rewrite lookup_insert_eq. simpl. rewrite insert_insert_eq. reflexivity.
Qed.

Lemma fold_count_track tracks : forall tt m,
  fold_left TrackingService.count_track tracks (tt, m)
  = (fold_left Z.max (map TrackingService.td_track_id tracks) tt,
     fold_left bump (map TrackingService.td_track_id tracks) m).
Proof.
  induction tracks as [|t tracks IH]; intros tt m; cbn [fold_left map];
    [reflexivity|].
  rewrite count_track_bump. apply IH.
Qed.

Lemma fold_count_frame frs : forall tt td m,
  fold_left TrackingService.count_frame frs (tt, td, m)
  = (fold_left Z.max (emitted_ids frs) tt,
     td + Z.of_nat (length (emitted frs)),
     fold_left bump (emitted_ids frs) m).
Proof.
  induction frs as [|fr frs IH]; intros tt td m; cbn [fold_left].
  - f_equal. f_equal. unfold emitted. simpl. lia.
  - unfold TrackingService.count_frame at 2. rewrite fold_count_track.
    rewrite IH. unfold emitted_ids, emitted. simpl.
    rewrite !map_app, !fold_left_app, length_app. f_equal. f_equal. lia.
Qed.

Lemma sum_values_bump m id :
  TrackingService.sum_values (bump m id) = TrackingService.sum_values m + 1.
Proof.
  unfold TrackingService.sum_values, bump.
  destruct (m !! id) as [v|] eqn:E; simpl.
  - rewrite <- (insert_delete_eq m id (v + 1)).
    rewrite map_fold_insert_L; [|intros; lia|apply lookup_delete_eq].
    rewrite (map_fold_delete_L _ _ id v m); [lia|intros; lia|exact E].
  - rewrite map_fold_insert_L; [lia|intros; lia|exact E].
Qed.

Lemma sum_values_fold ids : forall m,
  TrackingService.sum_values (fold_left bump ids m)
  = TrackingService.sum_values m + Z.of_nat (length ids).
Proof.
  induction ids as [|i ids IH]; intros m; simpl; [lia|].
  rewrite IH, sum_values_bump. lia.
Qed.

Lemma dom_fold_bump ids : forall m : gmap Z Z,
  dom (fold_left bump ids m) = dom m ∪ list_to_set ids.
Proof.
  induction ids as [|i ids IH]; intros m; simpl.
  - rewrite union_empty_r_L. reflexivity.
  - rewrite IH. unfold bump. rewrite dom_insert_L.
    rewrite (union_comm_L {[i]} (dom m)), <- union_assoc_L. reflexivity.
Qed.

Lemma lookup_fold_bump ids : forall (m : gmap Z Z) id,
  fold_left bump ids m !! id
  = (let n := Z.of_nat (count_occ Z.eq_dec ids id) in
     match m !! id with
     | Some v => Some (v + n)
     | None => if (n =? 0) then None else Some n
     end).
Proof.
  induction ids as [|i ids IH]; intros m id; simpl.
  - destruct (m !! id); [f_equal; lia|reflexivity].
  - rewrite IH. unfold bump. destruct (Z.eq_dec i id) as [->|Hne].
    + rewrite lookup_insert_eq. destruct (m !! id); simpl; f_equal; lia.
    + rewrite lookup_insert_ne by exact Hne. reflexivity.
Qed.

(** What [calculate_tracking_stats] reports: the number of emitted entries,
    per id the number of entries that carry it, their average over the
    distinct ids, and as [total_tracks] the largest id that was emitted. *)
Lemma calculate_tracking_stats_spec
    (frame_results : list TrackingService.frame_result) :
  let s := TrackingService.calculate_tracking_stats frame_results in
  TrackingService.st_total_detections s
  = Z.of_nat (length (emitted frame_results))
  /\ (forall id,
        TrackingService.st_track_durations s !! id
        = (let n := Z.of_nat (count_occ Z.eq_dec (emitted_ids frame_results) id) in
           if n =? 0 then None else Some n))
  /\ size (TrackingService.st_track_durations s) = distinct_ids frame_results
  /\ TrackingService.st_avg_track_duration s
     = (if (distinct_ids frame_results =? 0)%nat then 0%Q
        else (inject_Z (Z.of_nat (length (emitted frame_results)))
              / inject_Z (Z.of_nat (distinct_ids frame_results)))%Q)
  /\ TrackingService.st_total_tracks s
     = fold_left Z.max (emitted_ids frame_results) 0.
Proof.
  unfold TrackingService.calculate_tracking_stats.
  rewrite fold_count_frame. cbv zeta.
  assert (Hsize : size (fold_left bump (emitted_ids frame_results) ∅)
                  = distinct_ids frame_results).
  { rewrite <- size_dom, dom_fold_bump, dom_empty_L, union_empty_l_L.
    reflexivity. }
  rewrite Hsize. simpl. split; [lia|]. split; [|split; [exact Hsize|split]].
  - intros id. rewrite lookup_fold_bump, lookup_empty. reflexivity.
  - destruct (distinct_ids frame_results =? 0)%nat; [reflexivity|].
    rewrite sum_values_fold. unfold emitted_ids. rewrite length_map.
    reflexivity.
  - reflexivity.
Qed.

(** C3 (the code departs from it).  The default service runs on
    [Examples.video].  Track 1 never reaches three hits and is never
    emitted; track 2 is emitted once.  So one distinct id is emitted, and
    the result's own [total_tracks] says 1, but
    [tracking_stats.total_tracks] says 2: it is computed as the largest
    emitted id and not as the number of ids. *)
Theorem C3_stats_total_tracks_is_largest_id :
  match TrackingService.detect_and_track Env.sqrt Examples.scipy Examples.Frame
          Examples.yolo 0 Examples.service Examples.video with
  | Ret r =>
      emitted_ids (TrackingService.frame_results r) = [2]
      /\ distinct_ids (TrackingService.frame_results r) = 1%nat
      /\ TrackingService.total_tracks r = 1
      /\ TrackingService.st_total_tracks (TrackingService.stats r) = 2
      /\ TrackingService.st_total_detections (TrackingService.stats r) = 1
  | _ => False
  end.
Proof. vm_compute. repeat split. Qed.

(** ** Detections on their way into the tracker *)

Lemma insert_desc_map {A B} (key : B -> Q) (g : A -> B) (x : A) (l : list A) :
  Py.insert_desc key (g x) (map g l)
  = map g (Py.insert_desc (fun a => key (g a)) x l).
Proof.
  induction l as [|y l IH]; simpl; [reflexivity|].
  destruct (Qle_bool _ _); simpl; [reflexivity|]. rewrite IH. reflexivity.
Qed.

Lemma sorted_desc_map {A B} (key : B -> Q) (g : A -> B) (l : list A) :
  Py.sorted_desc key (map g l) = map g (Py.sorted_desc (fun a => key (g a)) l).
Proof.
  induction l as [|x l IH]; simpl; [reflexivity|].
  rewrite IH. apply insert_desc_map.
Qed.

Lemma slice_to_map {A B} (g : A -> B) (k : Z) (l : list A) :
  Py.slice_to k (map g l) = map g (Py.slice_to k l).
Proof.
  unfold Py.slice_to. rewrite length_map.
  destruct (0 <=? k); apply firstn_map.
Qed.

Lemma filter_detections_ignores_boxes self f dets :
  TrackingService.filter_detections self (map (with_bbox f) dets)
  = map (with_bbox f) (TrackingService.filter_detections self dets).
Proof.
  unfold TrackingService.filter_detections.
  rewrite (sorted_desc_map Detection.confidence (with_bbox f)). simpl.
  rewrite slice_to_map, length_map. reflexivity.
Qed.

Lemma create_tracks_spec uhc mu : forall store n,
  EnhancedTracker.create_tracks uhc mu store n
  = (let cs := List.filter (fun d => negb (mem d (map snd mu))) uhc in
     (store ++ new_tracks cs n, n + Z.of_nat (length cs))).
Proof.
  unfold EnhancedTracker.create_tracks.
  induction uhc as [|d uhc IH]; intros store n; simpl.
  - rewrite app_nil_r. f_equal. lia.
  - destruct (negb _); simpl; rewrite IH; simpl.
    + rewrite <- app_assoc. simpl. f_equal. lia.
    + reflexivity.
Qed.


Lemma filter_refs_from {A} (p : A -> bool) (l : list A) : forall k,
  map val (List.filter (fun r => p (val r)) (refs_from k l)) = List.filter p l.
Proof.
  induction l as [|x l IH]; intros k; simpl; [reflexivity|].
  destruct (p x); simpl; rewrite IH; reflexivity.
Qed.




(** C6 as stated fails.  A frame shows a box with [x2 < x1] and a detection
    of confidence 1.5.  Neither is rejected: [filter_detections] passes
    both, and after the frame the tracker holds a track for each, with the
    inverted box and the confidence 1.5. *)
Lemma C6_malformed_detections_counterexample :
  malformed Examples.d_bad = true
  /\ malformed Examples.d_over = true
  /\ TrackingService.filter_detections Examples.service
       [Examples.d_bad; Examples.d_over]
     = [Examples.d_over; Examples.d_bad]
  /\ match TrackingService.process_frame Env.sqrt Examples.scipy
             Examples.Frame Examples.yolo 0 Examples.service 0
             [Examples.d_bad; Examples.d_over] with
     | Ret (self', _) =>
         map (fun t => (Track.track_id t, Track.bbox t, Track.confidence t))
             (EnhancedTracker.tracks (TrackingService.tracker self'))
         = [(1, mkBBox 50 50 60 60, (3 # 2)%Q); (2, mkBBox 10 10 5 5, (9 # 10)%Q)]
     | _ => False
     end.
Proof. vm_compute. repeat split. Qed.

(** ** The tracker: eviction and ids *)

Lemma update_track_id sqrt self bbox confidence :
  Track.track_id (Track.update sqrt self bbox confidence) = Track.track_id self.
Proof. unfold Track.update. destruct (15 <? _)%nat; reflexivity. Qed.

Lemma map_alter_preserved {A B} (f : A -> B) (g : A -> A) (i : nat) (l : list A) :
  (forall x, f (g x) = f x) -> map f (alter g i l) = map f l.
Proof.
  intros H. revert i. induction l as [|x l IH]; intros [|i]; simpl;
    try reflexivity.
  - rewrite H. reflexivity.
  - f_equal. apply IH.
Qed.

Section Tracker.
Variable sqrt : Q -> Q.
Variable scipy : option (list (list Q) -> list nat * list nat).

Lemma apply_updates_ids m : forall store,
  map Track.track_id (EnhancedTracker.apply_updates sqrt m store)
  = map Track.track_id store.
Proof.
  unfold EnhancedTracker.apply_updates.
  induction m as [|[r d] m IH]; intros store; simpl; [reflexivity|].
  rewrite IH. apply map_alter_preserved. intros x. apply update_track_id.
Qed.

Lemma run_stages_frame fuel self dets s :
  EnhancedTracker.run_stages sqrt scipy fuel self dets = Ret s ->
  map Track.track_id (EnhancedTracker.tracks (EnhancedTracker.after_stages s))
  = map Track.track_id (EnhancedTracker.tracks self)
  /\ EnhancedTracker.next_id (EnhancedTracker.after_stages s)
     = EnhancedTracker.next_id self
  /\ EnhancedTracker.max_age (EnhancedTracker.after_stages s)
     = EnhancedTracker.max_age self.
Proof.
  unfold EnhancedTracker.run_stages.
  destruct (EnhancedTracker.associate_detections_to_tracks _ _ _ _ _)
    as [[[mA uA] tA]| |]; simpl; try discriminate.
  destruct (EnhancedTracker.associate_detections_to_tracks _ _ _ _ _)
    as [[[mB uB] tB]| |]; simpl; try discriminate.
  destruct (EnhancedTracker.associate_detections_to_tracks _ _ _ _ _)
    as [[[mC uC] tC]| |]; simpl; try discriminate.
  intros [= <-]. simpl. rewrite !apply_updates_ids, map_map.
  split; [|split; reflexivity].
  apply map_ext. intros t. apply predict_track_id.
Qed.

Lemma mark_unmatched_ids all store :
  map Track.track_id (EnhancedTracker.mark_unmatched all store)
  = map Track.track_id store.
Proof.
  unfold EnhancedTracker.mark_unmatched. generalize 0%nat.
  induction store as [|t store IH]; intros k; simpl; [reflexivity|].
  rewrite IH. destruct (mem_track _ _); reflexivity.
Qed.

Lemma new_tracks_ids ds : forall n t,
  In t (new_tracks ds n) -> n <= Track.track_id t < n + Z.of_nat (length ds).
Proof.
  induction ds as [|d ds IH]; intros n t; simpl; [tauto|].
  intros [<-|H]; simpl; [lia|]. apply IH in H. lia.
Qed.

Lemma finish_spec s :
  EnhancedTracker.finish s
  = let self := EnhancedTracker.after_stages s in
    {| EnhancedTracker.max_age := EnhancedTracker.max_age self;
       EnhancedTracker.min_hits := EnhancedTracker.min_hits self;
       EnhancedTracker.iou_threshold := EnhancedTracker.iou_threshold self;
       EnhancedTracker.tracks :=
         List.filter
           (fun t => Track.time_since_update t <? EnhancedTracker.max_age self)
           (EnhancedTracker.mark_unmatched
              (map fst (EnhancedTracker.matched_high_conf s
                        ++ EnhancedTracker.matched_unconfirmed s
                        ++ EnhancedTracker.matched_low_conf s))
              (EnhancedTracker.tracks self
               ++ new_tracks (EnhancedTracker.creators s)
                             (EnhancedTracker.next_id self)));
       EnhancedTracker.frame_count := EnhancedTracker.frame_count self;
       EnhancedTracker.next_id :=
         EnhancedTracker.next_id self
         + Z.of_nat (length (EnhancedTracker.creators s)) |}.
Proof.
  unfold EnhancedTracker.finish. rewrite create_tracks_spec. reflexivity.
Qed.

Lemma update_spec fuel self dets self' :
  EnhancedTracker.update sqrt scipy fuel self dets = Ret self' ->
  EnhancedTracker.max_age self' = EnhancedTracker.max_age self
  /\ EnhancedTracker.next_id self <= EnhancedTracker.next_id self'
  /\ (forall t, In t (EnhancedTracker.tracks self') ->
        Track.time_since_update t < EnhancedTracker.max_age self)
  /\ (forall t, In t (EnhancedTracker.tracks self') ->
        In (Track.track_id t) (ids self)
        \/ EnhancedTracker.next_id self <= Track.track_id t
           < EnhancedTracker.next_id self').
Proof.
  unfold EnhancedTracker.update.
  destruct (EnhancedTracker.run_stages _ _ _ _ _) as [s| |] eqn:Es; simpl;
    try discriminate.
  intros [= <-]. apply run_stages_frame in Es as (Hids & Hnext & Hage).
  rewrite finish_spec. cbv zeta. cbn [EnhancedTracker.max_age
    EnhancedTracker.next_id EnhancedTracker.tracks].
  rewrite Hnext, Hage. split; [reflexivity|]. split; [lia|]. split.
  - intros t Ht. apply filter_In in Ht as [_ Ht]. apply Z.ltb_lt. exact Ht.
  - intros t Ht. apply filter_In in Ht as [Ht _].
    apply (in_map Track.track_id) in Ht.
    rewrite mark_unmatched_ids, map_app in Ht. apply in_app_or in Ht as [Ht|Ht].
    + left. unfold ids. rewrite <- Hids. exact Ht.
    + right. apply in_map_iff in Ht as (t' & <- & Ht').
      apply new_tracks_ids in Ht'. exact Ht'.
Qed.



End Tracker.

(** The eviction scenario end to end, from the tracker the constructor
    builds: three frames showing [dA] confirm track 1, thirty frames
    without detections follow, and the object shows again.  The track is
    active, with 29 misses, after the twenty-ninth empty frame; the
    thirtieth returns no track; the detection then starts the track 2. *)
Lemma eviction_scenario :
  let tracker := EnhancedTracker.init 30 3 (3 # 10) in
  let seen := repeat [Examples.dA] 3 in
  let run frames :=
    match EnhancedTracker.updates Env.sqrt Examples.scipy 0 tracker frames with
    | Ret self =>
        Some (map (fun t => (Track.track_id t, Track.state t,
                             Track.time_since_update t))
                  (EnhancedTracker.tracks self))
    | _ => None
    end in
  run seen = Some [(1, confirmed, 0)]
  /\ run (seen ++ repeat [] 29) = Some [(1, confirmed, 29)]
  /\ run (seen ++ repeat [] 30) = Some []
  /\ run (seen ++ repeat [] 30 ++ [[Examples.dA]]) = Some [(2, tentative, 1)].
Proof. vm_compute. repeat split. Qed.

(** ** The hit count of the active tracks *)

Lemma hits_predict self :
  Track.hits (fst (Track.predict self)) = Track.hits self.
Proof. unfold Track.predict. destruct (2 <=? _)%nat; reflexivity. Qed.

Section Hits.
Variable sqrt : Q -> Q.
Variable scipy : option (list (list Q) -> list nat * list nat).

Lemma apply_updates_hits m : forall store,
  Forall (fun t => 1 <= Track.hits t) store ->
  Forall (fun t => 1 <= Track.hits t)
         (EnhancedTracker.apply_updates sqrt m store).
Proof.
  unfold EnhancedTracker.apply_updates.
  induction m as [|[r d] m IH]; intros store H; simpl; [exact H|].
  apply IH. apply Forall_alter; [exact H|].
  intros t _ Ht. rewrite hits_update. lia.
Qed.

Lemma mark_unmatched_hits all store :
  Forall (fun t => 1 <= Track.hits t) store ->
  Forall (fun t => 1 <= Track.hits t)
         (EnhancedTracker.mark_unmatched all store).
Proof.
  unfold EnhancedTracker.mark_unmatched. generalize 0%nat.
  induction store as [|t store IH]; intros k H; simpl; [constructor|].
  apply Forall_cons in H as [Ht H]. constructor; [|apply IH; exact H].
  destruct (mem_track _ _); simpl; exact Ht.
Qed.

Lemma new_tracks_hits ds : forall n,
  Forall (fun t => 1 <= Track.hits t) (new_tracks ds n).
Proof.
  induction ds as [|d ds IH]; intros n; simpl; constructor; [simpl; lia|].
  apply IH.
Qed.

(** Every track of a tracker has at least one hit: it is so for the
    tracker the constructor builds, which has no track, and every call of
    [update] keeps it so. *)
Lemma update_hits_positive fuel self dets self' :
  Forall (fun t => 1 <= Track.hits t) (EnhancedTracker.tracks self) ->
  EnhancedTracker.update sqrt scipy fuel self dets = Ret self' ->
  Forall (fun t => 1 <= Track.hits t) (EnhancedTracker.tracks self').
Proof.
  intros Hh Hup. unfold EnhancedTracker.update in Hup.
  destruct (EnhancedTracker.run_stages _ _ _ _ _) as [s| |] eqn:Es;
    simpl in Hup; try discriminate.
  injection Hup as <-. rewrite finish_spec. cbv zeta.
  cbn [EnhancedTracker.tracks].
  apply List.Forall_forall. intros t Ht. apply filter_In in Ht as [Ht _].
  revert t Ht. apply List.Forall_forall. apply mark_unmatched_hits.
  apply Forall_app. split; [|apply new_tracks_hits].
  unfold EnhancedTracker.run_stages in Es.
  repeat match type of Es with
  | context [EnhancedTracker.associate_detections_to_tracks ?a ?b ?c ?d ?e] =>
      destruct (EnhancedTracker.associate_detections_to_tracks a b c d e)
        as [[[? ?] ?]| |]; simpl in Es; try discriminate
  end.
  injection Es as <-. simpl.
  repeat apply apply_updates_hits.
  apply List.Forall_forall. intros t Ht. apply in_map_iff in Ht as (t0 & <- & Ht0).
  rewrite hits_predict. revert t0 Ht0. apply List.Forall_forall. exact Hh.
Qed.
End Hits.

(** ** The stages of a call *)

Lemma refs_from_oid {A} (l : list A) : forall k,
  map oid (refs_from k l) = seq k (length l).
Proof.
  induction l as [|x l IH]; intros k; simpl; [reflexivity|].
  rewrite IH. reflexivity.
Qed.

Lemma refs_from_lookup {A} (l : list A) : forall k i r,
  refs_from k l !! i = Some r -> oid r = (k + i)%nat /\ l !! i = Some (val r).
Proof.
  induction l as [|x l IH]; intros k [|i] r; simpl; try discriminate.
  - intros [= <-]. simpl. split; [lia|reflexivity].
  - intros H. apply IH in H as [-> H]. split; [lia|exact H].
Qed.

Lemma not_indexed_spec {A} (indices : list nat) (l : list A) (x : A) :
  In x (EnhancedTracker.not_indexed indices l)
  <-> exists i, l !! i = Some x /\ ~ In i indices.
Proof.
  unfold EnhancedTracker.not_indexed. rewrite in_map_iff. split.
  - intros (r & <- & Hr). apply filter_In in Hr as [Hr Hn].
    apply list_elem_of_In, list_elem_of_lookup in Hr as [i Hi].
    apply refs_from_lookup in Hi as [Ho Hi]. simpl in Ho.
    exists i. split; [exact Hi|]. intros Hin.
    apply negb_true_iff in Hn. apply not_true_iff_false in Hn. apply Hn.
    apply existsb_exists. exists i. split; [exact Hin|].
    apply Nat.eqb_eq. lia.
  - intros (i & Hi & Hn).
    assert (Hr : refs_from 0 l !! i = Some (mkref i x)).
    { clear Hn. change i with (0 + i)%nat at 2. generalize 0%nat.
      revert i Hi. induction l as [|y l IH]; intros [|i] Hi k; simpl in *;
        try discriminate.
      - injection Hi as <-. rewrite Nat.add_0_r. reflexivity.
      - rewrite (IH i Hi (S k)). f_equal. f_equal. lia. }
    exists (mkref i x). split; [reflexivity|]. apply filter_In. split.
    + apply list_elem_of_In, list_elem_of_lookup. exists i. exact Hr.
    + simpl. apply negb_true_iff. apply not_true_iff_false. intros H.
      apply existsb_exists in H as (j & Hj & Heq). apply Nat.eqb_eq in Heq.
      subst j. exact (Hn Hj).
Qed.


Lemma combine_fst_in {A B} (l : list A) (l' : list B) (x : A) :
  In x (map fst (combine l l')) -> In x l.
Proof.
  intros H. apply in_map_iff in H as ([a b] & <- & H).
  apply in_combine_l in H. exact H.
Qed.

Lemma combine_snd_in {A B} (l : list A) (l' : list B) (y : B) :
  In y (map snd (combine l l')) -> In y l'.
Proof.
  intros H. apply in_map_iff in H as ([a b] & <- & H).
  apply in_combine_r in H. exact H.
Qed.

Lemma combine_fst_NoDup {A B} (l : list A) (l' : list B) :
  NoDup l -> NoDup (map fst (combine l l')).
Proof.
  intros H. revert l'. induction H as [|x l Hx Hl IH]; intros [|y l']; simpl;
    try constructor.
  - intros Hin. apply Hx. apply list_elem_of_In.
    apply list_elem_of_In in Hin. eapply combine_fst_in. exact Hin.
  - apply IH.
Qed.

Lemma combine_snd_NoDup {A B} (l : list A) (l' : list B) :
  NoDup l' -> NoDup (map snd (combine l l')).
Proof.
  intros H. revert l. induction H as [|y l' Hy Hl IH]; intros [|x l]; simpl;
    try constructor.
  - intros Hin. apply Hy. apply list_elem_of_In.
    apply list_elem_of_In in Hin. eapply combine_snd_in. exact Hin.
  - apply IH.
Qed.

(** Distinct positions of a list without duplicates hold distinct items. *)
Lemma picked_NoDup {A} (l : list A) (positions : list nat) (picked : list A) :
  NoDup l -> NoDup positions ->
  Forall2 (fun i x => l !! i = Some x) positions picked ->
  NoDup picked.
Proof.
  intros Hl Hp HF. induction HF as [|i x positions picked Hi HF IH].
  - constructor.
  - apply NoDup_cons in Hp as [Hi' Hp]. constructor; [|apply IH; exact Hp].
    intros Hx. apply Hi'.
    apply list_elem_of_lookup in Hx as [k Hk].
    destruct (Forall2_lookup_r _ _ _ _ _ HF Hk) as (i' & Hi'' & Hl').
    rewrite (NoDup_lookup _ _ _ _ Hl Hi Hl').
    apply list_elem_of_lookup. exists k. exact Hi''.
Qed.

Lemma picked_in {A} (l : list A) (positions : list nat) (picked : list A) (x : A) :
  Forall2 (fun i x => l !! i = Some x) positions picked ->
  In x picked -> exists i, In i positions /\ l !! i = Some x.
Proof.
  intros HF. induction HF as [|i y positions picked Hi HF IH]; simpl; [tauto|].
  intros [<-|Hx]; [exists i; auto|].
  destruct (IH Hx) as (i' & H1 & H2). exists i'. auto.
Qed.

Section Partition.
Variable self : EnhancedTracker.t.

(** The loop over the solver's pairs moves the track and the detection of
    every pair either to [matched] or to the two unmatched lists. *)
Lemma find_matches_perm trs dets cost pairs :
  forall m ut ud m' ut' ud',
  EnhancedTracker.find_matches self cost trs dets pairs m ut ud
  = Ret (m', ut', ud') ->
  exists pt pd,
    Forall2 (fun i r => trs !! i = Some r) (map fst pairs) pt
    /\ Forall2 (fun j d => dets !! j = Some d) (map snd pairs) pd
    /\ Permutation (map fst m' ++ ut') (map fst m ++ ut ++ pt)
    /\ Permutation (map snd m' ++ ud') (map snd m ++ ud ++ pd).
Proof.
  induction pairs as [|[i j] pairs IH]; intros m ut ud m' ut' ud'; simpl.
  - intros H. injection H as <- <- <-. exists [], [].
    rewrite !app_nil_r. repeat split; constructor || reflexivity.
  - destruct (subscript cost i) as [row| |]; simpl; try discriminate.
    destruct (subscript row j) as [c| |]; simpl; try discriminate.
    destruct (subscript trs i) as [r0| |] eqn:Er; simpl; try discriminate.
    destruct (subscript dets j) as [d0| |] eqn:Ed; simpl; try discriminate.
    apply subscript_Ret in Er, Ed.
    destruct (Py.ltb c _); intros Hfm;
      apply IH in Hfm as (pt & pd & H1 & H2 & H3 & H4);
      exists (r0 :: pt), (d0 :: pd);
      (split; [constructor; assumption|]);
      (split; [constructor; assumption|]).
    + rewrite H3, H4, !map_app. simpl. split; solve_Permutation.
    + rewrite H3, H4. split; solve_Permutation.
Qed.

Lemma not_indexed_sublist {A} (indices : list nat) (l : list A) :
  sublist (EnhancedTracker.not_indexed indices l) l.
Proof.
  unfold EnhancedTracker.not_indexed. generalize 0%nat.
  induction l as [|x l IH]; intros k; simpl; [constructor|].
  destruct (negb _); simpl; [apply sublist_skip|apply sublist_cons]; apply IH.
Qed.

Lemma not_indexed_map {A B} (f : A -> B) (indices : list nat) (l : list A) :
  EnhancedTracker.not_indexed indices (map f l)
  = map f (EnhancedTracker.not_indexed indices l).
Proof.
  unfold EnhancedTracker.not_indexed. generalize 0%nat.
  induction l as [|x l IH]; intros k; simpl; [reflexivity|].
  destruct (negb _); simpl; rewrite IH; reflexivity.
Qed.

(** Items picked at distinct positions among [indices], followed by the
    items at the positions outside [indices]: no item comes twice. *)
Lemma picked_and_rest_NoDup {A} (l : list A) (indices positions : list nat)
    (picked : list A) :
  NoDup l -> NoDup positions ->
  (forall i, In i positions -> In i indices) ->
  Forall2 (fun i x => l !! i = Some x) positions picked ->
  NoDup (picked ++ EnhancedTracker.not_indexed indices l).
Proof.
  intros Hl Hp Hsub HF. apply NoDup_app. split; [|split].
  - eapply picked_NoDup; eassumption.
  - intros x Hx Hx'. apply list_elem_of_In in Hx, Hx'.
    destruct (picked_in _ _ _ _ HF Hx) as (i & Hi & Hli).
    apply not_indexed_spec in Hx' as (i' & Hli' & Hni).
    apply Hni. rewrite <- (NoDup_lookup _ _ _ _ Hl Hli Hli').
    apply Hsub. exact Hi.
  - eapply sublist_NoDup; [exact Hl|apply not_indexed_sublist].
Qed.

(** With a solver that assigns no row and no column twice, the tracks of
    [matched] and [unmatched_tracks] are distinct tracks of the call, and
    the detections of [matched] and [unmatched_detections] are distinct
    detections of the call. *)
Lemma associate_solver_partition lsa fuel trs dets m ud ut :
  assigns_once lsa -> NoDup trs -> NoDup (map oid dets) ->
  EnhancedTracker.associate_detections_to_tracks (Some lsa) fuel self dets trs
  = Ret (m, ud, ut) ->
  NoDup (map fst m ++ ut)
  /\ NoDup (map oid (map snd m ++ ud))
  /\ (forall r, In r (map fst m ++ ut) -> In r trs)
  /\ (forall d, In d (map snd m ++ ud) -> In d dets).
Proof.
  intros Hlsa Htrs Hdets. unfold EnhancedTracker.associate_detections_to_tracks.
  destruct (length trs =? 0)%nat eqn:E1.
  { intros [= <- <- <-]. simpl.
    split; [apply NoDup_nil_2|]. split; [exact Hdets|]. split; tauto. }
  destruct (length dets =? 0)%nat eqn:E2.
  { intros [= <- <- <-]. simpl.
    split; [exact Htrs|]. split; [apply NoDup_nil_2|]. split; tauto. }
  destruct (Hlsa (EnhancedTracker.cost_matrix self trs dets)) as [Hti Hdi].
  destruct (lsa _) as [ti di]. simpl in Hti, Hdi.
  destruct (EnhancedTracker.find_matches _ _ _ _ _ _ _ _)
    as [[[m0 ut0] ud0]| |] eqn:Efm; simpl; try discriminate.
  intros [= <- <- <-].
  apply find_matches_perm in Efm as (pt & pd & Hpt & Hpd & Ht & Hd).
  simpl in Ht, Hd.
  assert (Ht' : Permutation (map fst m0 ++ ut0
                             ++ EnhancedTracker.not_indexed ti trs)
                            (pt ++ EnhancedTracker.not_indexed ti trs)).
  { rewrite app_assoc, Ht. reflexivity. }
  assert (Hd' : Permutation (map snd m0 ++ ud0
                             ++ EnhancedTracker.not_indexed di dets)
                            (pd ++ EnhancedTracker.not_indexed di dets)).
  { rewrite app_assoc, Hd. reflexivity. }
  split; [|split; [|split]].
  - rewrite Ht'.
    apply (picked_and_rest_NoDup trs ti (map fst (combine ti di)) pt Htrs).
    + apply combine_fst_NoDup. exact Hti.
    + intros i Hi. eapply combine_fst_in. exact Hi.
    + exact Hpt.
  - rewrite Hd', map_app, <- not_indexed_map.
    apply (picked_and_rest_NoDup (map oid dets) di (map snd (combine ti di))
             (map oid pd) Hdets).
    + apply combine_snd_NoDup. exact Hdi.
    + intros j Hj. eapply combine_snd_in. exact Hj.
    + clear -Hpd. induction Hpd as [|j d cols pd Hj HF IH]; constructor;
        [|exact IH].
      rewrite list_lookup_fmap, Hj. reflexivity.
  - intros r Hr. eapply Permutation_in in Hr; [|exact Ht'].
    apply in_app_or in Hr as [Hr|Hr].
    + destruct (picked_in _ _ _ _ Hpt Hr) as (i & _ & Hi).
      apply list_elem_of_In, list_elem_of_lookup. exists i. exact Hi.
    + apply not_indexed_spec in Hr as (i & Hi & _).
      apply list_elem_of_In, list_elem_of_lookup. exists i. exact Hi.
  - intros d Hd0. eapply Permutation_in in Hd0; [|exact Hd'].
    apply in_app_or in Hd0 as [Hd0|Hd0].
    + destruct (picked_in _ _ _ _ Hpd Hd0) as (j & _ & Hj).
      apply list_elem_of_In, list_elem_of_lookup. exists j. exact Hj.
    + apply not_indexed_spec in Hd0 as (j & Hj & _).
      apply list_elem_of_In, list_elem_of_lookup. exists j. exact Hj.
Qed.

(** *** The greedy matcher keeps the tracks apart *)

Lemma consider_in d trs0 : forall trs acc,
  (forall r, fst acc = Some r -> In r trs0) ->
  (forall r, In r trs -> In r trs0) ->
  forall r, fst (fold_left (EnhancedTracker.consider self d) trs acc) = Some r ->
  In r trs0.
Proof.
  induction trs as [|t trs IH]; intros [bt bi] Hacc Hsub r; simpl.
  - apply Hacc.
  - apply IH.
    + intros r'. destruct (_ && _); simpl.
      * intros [= <-]. apply Hsub. left. reflexivity.
      * apply Hacc.
    + intros r' Hr'. apply Hsub. right. exact Hr'.
Qed.

Lemma best_track_in d trs r :
  fst (EnhancedTracker.best_track self d trs) = Some r -> In r trs.
Proof.
  unfold EnhancedTracker.best_track. apply (consider_in d trs); auto.
  simpl. discriminate.
Qed.

Lemma remove_track_perm r l :
  In r l -> Permutation (r :: remove_track r l) l.
Proof.
  induction l as [|y l IH]; simpl; [tauto|].
  destruct (Nat.eqb y r) eqn:E.
  - apply Nat.eqb_eq in E. subst y. reflexivity.
  - intros [->|H]; [rewrite Nat.eqb_refl in E; discriminate|].
    rewrite perm_swap. apply perm_skip. apply IH. exact H.
Qed.

Lemma greedy_step_tracks st st' :
  EnhancedTracker.greedy_step self st = Some st' ->
  Permutation
    (map fst (EnhancedTracker.g_matched st')
     ++ EnhancedTracker.g_unmatched_tracks st')
    (map fst (EnhancedTracker.g_matched st)
     ++ EnhancedTracker.g_unmatched_tracks st).
Proof.
  unfold EnhancedTracker.greedy_step.
  destruct (_ !! _) as [d|]; [|discriminate].
  destruct (fst _) as [r|] eqn:E; intros [= <-]; simpl; [|reflexivity].
  apply best_track_in in E. rewrite map_app. simpl.
  rewrite <- app_assoc. simpl. apply Permutation_app_head.
  apply remove_track_perm. exact E.
Qed.

Lemma greedy_loop_tracks fuel : forall st m ud ut,
  EnhancedTracker.greedy_loop fuel self st = Ret (m, ud, ut) ->
  Permutation (map fst m ++ ut)
    (map fst (EnhancedTracker.g_matched st)
     ++ EnhancedTracker.g_unmatched_tracks st).
Proof.
  induction fuel as [|n IH]; intros st m ud ut; simpl; [discriminate|].
  destruct (EnhancedTracker.greedy_step self st) as [st'|] eqn:E.
  - intros H. rewrite (IH _ _ _ _ H). apply greedy_step_tracks. exact E.
  - intros [= <- <- <-]. reflexivity.
Qed.

(** On either path, under the solver's contract: the tracks of [matched]
    and [unmatched_tracks] are distinct tracks of the call, and the
    detections that come back are detections of the call. *)
Lemma associate_partition scipy fuel trs dets m ud ut :
  (forall lsa, scipy = Some lsa -> assigns_once lsa) ->
  NoDup trs -> NoDup (map oid dets) ->
  EnhancedTracker.associate_detections_to_tracks scipy fuel self dets trs
  = Ret (m, ud, ut) ->
  NoDup (map fst m ++ ut)
  /\ NoDup (map oid ud)
  /\ (forall r, In r (map fst m ++ ut) -> In r trs)
  /\ (forall d, In d (map snd m ++ ud) -> In d dets).
Proof.
  intros Hok Htrs Hdets Hret. destruct scipy as [lsa|].
  - destruct (associate_solver_partition lsa fuel trs dets m ud ut
                (Hok lsa eq_refl) Htrs Hdets Hret) as (H1 & H2 & H3 & H4).
    split; [exact H1|]. split; [|auto].
    rewrite map_app in H2. apply NoDup_app in H2 as (_ & _ & H2). exact H2.
  - revert Hret. unfold EnhancedTracker.associate_detections_to_tracks.
    destruct (length trs =? 0)%nat.
    { intros [= <- <- <-]. simpl. split; [apply NoDup_nil_2|].
      split; [exact Hdets|]. split; [intros r []|intros d Hd; exact Hd]. }
    destruct (length dets =? 0)%nat.
    { intros [= <- <- <-]. simpl. split; [exact Htrs|].
      split; [apply NoDup_nil_2|].
      split; [intros r Hr; exact Hr|intros d []]. }
    intros Hret. pose proof (greedy_loop_tracks _ _ _ _ _ Hret) as Hp.
    simpl in Hp. apply greedy_assignment_returns in Hret as [-> Hm].
    pose proof (sorted_desc_perm (fun x => Detection.confidence (val x)) dets)
      as Hs.
    split; [rewrite Hp; exact Htrs|]. split; [rewrite Hs; exact Hdets|]. split.
    + intros r Hr. eapply Permutation_in; [exact Hp|exact Hr].
    + intros d Hd. rewrite Hm in Hd. apply in_app_or in Hd.
      apply (Permutation_in _ Hs). destruct Hd; assumption.
Qed.
End Partition.

(** *** The three stages *)

Lemma list_filter_sublist {A} (p : A -> bool) (l : list A) :
  sublist (List.filter p l) l.
Proof.
  induction l as [|x l IH]; simpl; [constructor|].
  destruct (p x); [apply sublist_skip|apply sublist_cons]; exact IH.
Qed.

Lemma tracks_in_state_spec st store r :
  In r (EnhancedTracker.tracks_in_state st store) ->
  Track.state (deref store r) = st.
Proof.
  unfold EnhancedTracker.tracks_in_state. intros H.
  apply filter_In in H as [_ H].
  destruct (Track.state (deref store r)), st; simpl in H; congruence.
Qed.

Lemma tracks_in_state_NoDup st store :
  NoDup (EnhancedTracker.tracks_in_state st store).
Proof.
  eapply sublist_NoDup; [apply NoDup_seq|apply list_filter_sublist].
Qed.

Lemma refs_filter_NoDup {A} (p : ref A -> bool) (l : list A) :
  NoDup (map oid (List.filter p (refs_from 0 l))).
Proof.
  apply (sublist_NoDup _ (map oid (refs_from 0 l))).
  - rewrite refs_from_oid. apply NoDup_seq.
  - apply (fmap_sublist oid). apply list_filter_sublist.
Qed.

Lemma mem_In {A} (d : ref A) (l : list (ref A)) :
  mem d l = true <-> In (oid d) (map oid l).
Proof.
  unfold mem. rewrite existsb_exists, in_map_iff. split.
  - intros (x & Hx & E). apply Nat.eqb_eq in E. exists x. auto.
  - intros (x & E & Hx). exists x. split; [exact Hx|].
    apply Nat.eqb_eq. auto.
Qed.

Lemma mem_track_In (r : track_ref) (l : list track_ref) :
  mem_track r l = true <-> In r l.
Proof.
  unfold mem_track. rewrite existsb_exists. split.
  - intros (x & Hx & E). apply Nat.eqb_eq in E. subst. exact Hx.
  - intros H. exists r. split; [exact H|apply Nat.eqb_refl].
Qed.

Lemma deref_alter_ne (f : Track.t -> Track.t) (store : list Track.t)
    (i r : track_ref) :
  i <> r -> deref (alter f i store) r = deref store r.
Proof.
  intros H. unfold deref. rewrite list_lookup_alter_ne by exact H. reflexivity.
Qed.

Section Stages.
Variable sqrt : Q -> Q.
Variable scipy : option (list (list Q) -> list nat * list nat).

(** A track no pair of [matched] refers to is not touched by the updates. *)
Lemma apply_updates_other m : forall store r,
  ~ In r (map fst m) ->
  deref (EnhancedTracker.apply_updates sqrt m store) r = deref store r.
Proof.
  unfold EnhancedTracker.apply_updates.
  induction m as [|[r0 d0] m IH]; intros store r Hr; simpl; [reflexivity|].
  rewrite IH.
  - apply deref_alter_ne. intros ->. apply Hr. left. reflexivity.
  - intros H. apply Hr. right. exact H.
Qed.

(** The three associator calls behind the stages of a call that returns. *)
Lemma run_stages_inv fuel self dets s :
  EnhancedTracker.run_stages sqrt scipy fuel self dets = Ret s ->
  exists selfA selfB selfC uB tB uC tC,
    EnhancedTracker.tracks selfA = EnhancedTracker.store_at_A s
    /\ EnhancedTracker.tracks selfB = EnhancedTracker.store_at_B s
    /\ EnhancedTracker.tracks selfC = EnhancedTracker.store_at_C s
    /\ EnhancedTracker.associate_detections_to_tracks scipy fuel selfA
         (EnhancedTracker.high_conf_detections s)
         (EnhancedTracker.confirmed_tracks s)
       = Ret (EnhancedTracker.matched_high_conf s,
              EnhancedTracker.unmatched_high_conf s,
              EnhancedTracker.unmatched_confirmed s)
    /\ EnhancedTracker.associate_detections_to_tracks scipy fuel selfB
         (EnhancedTracker.unmatched_high_conf s)
         (EnhancedTracker.unconfirmed_tracks s)
       = Ret (EnhancedTracker.matched_unconfirmed s, uB, tB)
    /\ EnhancedTracker.associate_detections_to_tracks scipy fuel selfC
         (EnhancedTracker.low_conf_detections s)
         (EnhancedTracker.unmatched_confirmed_after_high s)
       = Ret (EnhancedTracker.matched_low_conf s, uC, tC)
    /\ EnhancedTracker.store_at_B s
       = EnhancedTracker.apply_updates sqrt (EnhancedTracker.matched_high_conf s)
           (EnhancedTracker.store_at_A s)
    /\ EnhancedTracker.store_at_C s
       = EnhancedTracker.apply_updates sqrt (EnhancedTracker.matched_unconfirmed s)
           (EnhancedTracker.store_at_B s)
    /\ EnhancedTracker.high_conf_detections s
       = List.filter (fun d => high_confidence (val d)) (refs_from 0 dets)
    /\ EnhancedTracker.low_conf_detections s
       = List.filter (fun d => negb (high_confidence (val d))) (refs_from 0 dets)
    /\ EnhancedTracker.confirmed_tracks s
       = EnhancedTracker.tracks_in_state confirmed (EnhancedTracker.store_at_A s)
    /\ EnhancedTracker.unconfirmed_tracks s
       = EnhancedTracker.tracks_in_state tentative (EnhancedTracker.store_at_A s)
    /\ EnhancedTracker.unmatched_confirmed_after_high s
       = List.filter
           (fun t => negb (mem_track t
                             (map fst (EnhancedTracker.matched_unconfirmed s))))
           (EnhancedTracker.unmatched_confirmed s).
Proof.
  intros H. unfold EnhancedTracker.run_stages in H.
  match type of H with
  | context [EnhancedTracker.associate_detections_to_tracks ?a ?b ?c ?d ?e] =>
      destruct (EnhancedTracker.associate_detections_to_tracks a b c d e)
        as [[[mA uA] tA]| |] eqn:EA; simpl in H; try discriminate
  end.
  match type of H with
  | context [EnhancedTracker.associate_detections_to_tracks ?a ?b ?c ?d ?e] =>
      destruct (EnhancedTracker.associate_detections_to_tracks a b c d e)
        as [[[mB uB] tB]| |] eqn:EB; simpl in H; try discriminate
  end.
  match type of H with
  | context [EnhancedTracker.associate_detections_to_tracks ?a ?b ?c ?d ?e] =>
      destruct (EnhancedTracker.associate_detections_to_tracks a b c d e)
        as [[[mC uC] tC]| |] eqn:EC; simpl in H; try discriminate
  end.
  injection H as Hs. subst s. simpl.
  eexists _, _, _, uB, tB, uC, tC.
  split; [|split; [|split; [|split; [exact EA|split; [exact EB|split;
    [exact EC|]]]]]]; try reflexivity.
  repeat split; reflexivity.
Qed.

(** What each stage may match and what may start a track, on either path
    (under the solver's contract when the solver is used):
    - a track is started only from a detection of confidence 0.5 or more;
    - stages A and B match such detections only, stage A to tracks that are
      confirmed and stage B to tracks that are tentative when the stage
      associates;
    - stage C matches the other detections only, and only to tracks that are
      confirmed when it associates and that stages A and B left unmatched. *)
Lemma stages_respect_confidence fuel self dets s :
  (forall lsa, scipy = Some lsa -> assigns_once lsa) ->
  EnhancedTracker.run_stages sqrt scipy fuel self dets = Ret s ->
  (forall d, In d (EnhancedTracker.creators s) ->
     high_confidence (val d) = true)
  /\ (forall r d,
        In (r, d) (EnhancedTracker.matched_high_conf s
                   ++ EnhancedTracker.matched_unconfirmed s) ->
        high_confidence (val d) = true)
  /\ (forall r d, In (r, d) (EnhancedTracker.matched_high_conf s) ->
        Track.state (deref (EnhancedTracker.store_at_A s) r) = confirmed)
  /\ (forall r d, In (r, d) (EnhancedTracker.matched_unconfirmed s) ->
        Track.state (deref (EnhancedTracker.store_at_B s) r) = tentative)
  /\ (forall r d, In (r, d) (EnhancedTracker.matched_low_conf s) ->
        high_confidence (val d) = false
        /\ Track.state (deref (EnhancedTracker.store_at_C s) r) = confirmed
        /\ ~ In r (map fst (EnhancedTracker.matched_high_conf s
                            ++ EnhancedTracker.matched_unconfirmed s))).
Proof.
  intros Hok Hrun.
  destruct (run_stages_inv _ _ _ _ Hrun)
    as (selfA & selfB & selfC & uB & tB & uC & tC & _ & _ & _
        & EA & EB & EC & HsB & HsC & Hhigh & Hlow & Hconf & Hunconf & Hafter).
  assert (Hnh : NoDup (map oid (EnhancedTracker.high_conf_detections s))).
  { rewrite Hhigh. apply refs_filter_NoDup. }
  assert (Hnl : NoDup (map oid (EnhancedTracker.low_conf_detections s))).
  { rewrite Hlow. apply refs_filter_NoDup. }
  assert (Hnc : NoDup (EnhancedTracker.confirmed_tracks s)).
  { rewrite Hconf. apply tracks_in_state_NoDup. }
  assert (Hnu : NoDup (EnhancedTracker.unconfirmed_tracks s)).
  { rewrite Hunconf. apply tracks_in_state_NoDup. }
  destruct (associate_partition _ _ _ _ _ _ _ _ Hok Hnc Hnh EA)
    as (PA1 & PA2 & PA3 & PA4).
  destruct (associate_partition _ _ _ _ _ _ _ _ Hok Hnu PA2 EB)
    as (PB1 & PB2 & PB3 & PB4).
  assert (Hna : NoDup (EnhancedTracker.unmatched_confirmed_after_high s)).
  { rewrite Hafter. eapply sublist_NoDup; [|apply list_filter_sublist].
    apply NoDup_app in PA1 as (_ & _ & PA1). exact PA1. }
  destruct (associate_partition _ _ _ _ _ _ _ _ Hok Hna Hnl EC)
    as (PC1 & PC2 & PC3 & PC4).
  assert (HinA : forall d, In d (EnhancedTracker.unmatched_high_conf s) ->
                   high_confidence (val d) = true).
  { intros d Hd. specialize (PA4 d (in_or_app _ _ _ (or_intror Hd))).
    rewrite Hhigh in PA4. apply filter_In in PA4 as [_ H]. exact H. }
  assert (HmA : forall r, In r (map fst (EnhancedTracker.matched_high_conf s)) ->
                  Track.state (deref (EnhancedTracker.store_at_A s) r) = confirmed).
  { intros r Hr. specialize (PA3 r (in_or_app _ _ _ (or_introl Hr))).
    rewrite Hconf in PA3. apply tracks_in_state_spec in PA3. exact PA3. }
  split; [|split; [|split; [|split]]].
  - intros d Hd. apply filter_In in Hd as [Hd _]. apply HinA. exact Hd.
  - intros r d Hrd. apply in_app_or in Hrd as [Hrd|Hrd].
    + apply (in_map snd) in Hrd. simpl in Hrd.
      specialize (PA4 d (in_or_app _ _ _ (or_introl Hrd))).
      rewrite Hhigh in PA4. apply filter_In in PA4 as [_ H]. exact H.
    + apply (in_map snd) in Hrd. simpl in Hrd. apply HinA.
      apply PB4. apply in_or_app. left. exact Hrd.
  - intros r d Hrd. apply HmA. apply (in_map fst) in Hrd. exact Hrd.
  - intros r d Hrd. apply (in_map fst) in Hrd. simpl in Hrd.
    specialize (PB3 r (in_or_app _ _ _ (or_introl Hrd))).
    rewrite Hunconf in PB3. apply tracks_in_state_spec in PB3.
    rewrite HsB, apply_updates_other; [exact PB3|].
    intros HA. apply HmA in HA. congruence.
  - intros r d Hrd.
    pose proof (in_map snd _ _ Hrd) as Hd. simpl in Hd.
    pose proof (in_map fst _ _ Hrd) as Hr. simpl in Hr.
    specialize (PC4 d (in_or_app _ _ _ (or_introl Hd))).
    rewrite Hlow in PC4. apply filter_In in PC4 as [_ Hlowd].
    apply negb_true_iff in Hlowd.
    specialize (PC3 r (in_or_app _ _ _ (or_introl Hr))).
    rewrite Hafter in PC3. apply filter_In in PC3 as [Huc HnB].
    apply negb_true_iff in HnB.
    assert (HnotB : ~ In r (map fst (EnhancedTracker.matched_unconfirmed s))).
    { intros H. apply mem_track_In in H. congruence. }
    assert (HnotA : ~ In r (map fst (EnhancedTracker.matched_high_conf s))).
    { apply NoDup_app in PA1 as (_ & PA1 & _). intros H.
      apply (PA1 r); apply list_elem_of_In; assumption. }
    split; [exact Hlowd|]. split.
    + rewrite HsC, apply_updates_other by exact HnotB.
      rewrite HsB, apply_updates_other by exact HnotA.
      specialize (PA3 r (in_or_app _ _ _ (or_intror Huc))).
      rewrite Hconf in PA3. apply tracks_in_state_spec in PA3. exact PA3.
    + rewrite map_app. intros H. apply in_app_or in H. tauto.
Qed.
End Stages.

(** With the solver, a detection that starts a track is one that neither
    stage A nor stage B has matched. *)
Lemma creators_unmatched_with_solver sqrt lsa fuel self dets s :
  assigns_once lsa ->
  EnhancedTracker.run_stages sqrt (Some lsa) fuel self dets = Ret s ->
  forall d, In d (EnhancedTracker.creators s) ->
    In d (EnhancedTracker.high_conf_detections s)
    /\ mem d (map snd (EnhancedTracker.matched_high_conf s)) = false
    /\ mem d (map snd (EnhancedTracker.matched_unconfirmed s)) = false.
Proof.
  intros Hlsa Hrun d Hd.
  destruct (run_stages_inv _ _ _ _ _ _ Hrun)
    as (selfA & selfB & selfC & uB & tB & uC & tC & _ & _ & _
        & EA & _ & _ & _ & _ & Hhigh & _ & Hconf & _).
  apply filter_In in Hd as [Hd HnB]. apply negb_true_iff in HnB.
  assert (Hnh : NoDup (map oid (EnhancedTracker.high_conf_detections s))).
  { rewrite Hhigh. apply refs_filter_NoDup. }
  assert (Hnc : NoDup (EnhancedTracker.confirmed_tracks s)).
  { rewrite Hconf. apply tracks_in_state_NoDup. }
  destruct (associate_solver_partition _ _ _ _ _ _ _ _ Hlsa Hnc Hnh EA)
    as (_ & P2 & _ & P4).
  split; [apply P4; apply in_or_app; right; exact Hd|]. split; [|exact HnB].
  destruct (mem d (map snd (EnhancedTracker.matched_high_conf s))) eqn:E;
    [|reflexivity].
  exfalso.
  apply mem_In in E. rewrite map_app in P2.
  apply NoDup_app in P2 as (_ & P2 & _).
  apply (P2 (oid d)); apply list_elem_of_In; [exact E|].
  apply in_map. exact Hd.
Qed.


(** C7 (the code departs from it when [scipy] cannot be imported).  The
    tracker holds one confirmed track at [dA] and the frame shows [dA]
    again.  Stage A, through the greedy matcher, matches the detection to
    the track, and the matcher still returns it as unmatched; no tentative
    track takes it in stage B, so the creation step starts a second track
    from a detection that stage A has matched. *)
Theorem C7_greedy_matched_detection_starts_track :
  match EnhancedTracker.run_stages Env.sqrt None 2 Examples.tracker_confirmed
          [Examples.dA] with
  | Ret s =>
      map (fun t => (Track.track_id t, Track.state t))
          (EnhancedTracker.tracks Examples.tracker_confirmed)
      = [(1, confirmed)]
      /\ EnhancedTracker.matched_high_conf s = [(0%nat, Examples.rA)]
      /\ EnhancedTracker.unmatched_high_conf s = [Examples.rA]
      /\ EnhancedTracker.matched_unconfirmed s = []
      /\ EnhancedTracker.creators s = [Examples.rA]
      /\ map (fun t => (Track.track_id t, Track.hits t, Track.bbox t))
             (EnhancedTracker.tracks (EnhancedTracker.finish s))
         = [(1, 4, mkBBox 0 0 10 10); (2, 1, mkBBox 0 0 10 10)]
  | _ => False
  end.
Proof. vm_compute. repeat split. Qed.

(** ** The exhaustive solver, and calls that return *)

Lemma remove_sublist (c : nat) (l : list nat) :
  sublist (List.remove Nat.eq_dec c l) l.
Proof.
  induction l as [|x l IH]; simpl; [constructor|].
  destruct (Nat.eq_dec c x); [apply sublist_cons|apply sublist_skip]; exact IH.
Qed.

Lemma injections_spec rows : forall cols a,
  NoDup cols -> In a (Env.injections rows cols) ->
  map fst a = rows /\ NoDup (map snd a)
  /\ (forall c, In c (map snd a) -> In c cols).
Proof.
  induction rows as [|r rows IH]; intros cols a Hcols; simpl.
  - intros [<-|[]]. simpl. split; [reflexivity|]. split; [constructor|tauto].
  - intros Ha. apply in_flat_map in Ha as (c & Hc & Ha).
    apply in_map_iff in Ha as (a' & <- & Ha').
    apply IH in Ha' as (H1 & H2 & H3).
    2:{ eapply sublist_NoDup; [exact Hcols|apply remove_sublist]. }
    simpl. split; [f_equal; exact H1|]. split.
    + constructor; [|exact H2]. intros Hin. apply list_elem_of_In in Hin.
      apply H3 in Hin. apply in_remove in Hin as [_ Hne]. congruence.
    + intros c' [<-|Hc']; [exact Hc|].
      apply H3 in Hc'. apply in_remove in Hc' as [Hc' _]. exact Hc'.
Qed.

Lemma cheapest_in cost cands : forall best,
  In (Env.cheapest cost best cands) (best :: cands).
Proof.
  induction cands as [|a cands IH]; intros best; simpl; [auto|].
  destruct (IH (if Py.ltb (Env.total cost a) (Env.total cost best)
                then a else best)) as [H|H]; [|auto].
  rewrite <- H. destruct (Py.ltb _ _); auto.
Qed.

Lemma insert_by_row_perm p l : Permutation (Env.insert_by_row p l) (p :: l).
Proof.
  induction l as [|q l IH]; simpl; [reflexivity|].
  destruct (fst p <=? fst q)%nat; [reflexivity|].
  rewrite IH. apply perm_swap.
Qed.

Lemma sort_by_row_perm l :
  Permutation (fold_right Env.insert_by_row [] l) l.
Proof.
  induction l as [|p l IH]; simpl; [reflexivity|].
  rewrite insert_by_row_perm. apply perm_skip. exact IH.
Qed.

(** What the exhaustive solver returns: an assignment that gives rows below
    [n] columns below [m], no row and no column twice. *)
Lemma linear_sum_assignment_spec cost :
  let n := length cost in
  let m := length (List.hd [] cost) in
  let a := Env.linear_sum_assignment cost in
  NoDup (fst a) /\ NoDup (snd a)
  /\ (forall i, In i (fst a) -> (i < n)%nat)
  /\ (forall j, In j (snd a) -> (j < m)%nat).
Proof.
  intros n m. unfold Env.linear_sum_assignment. fold n. fold m. cbv zeta.
  set (cands := if (n <=? m)%nat then _ else _).
  assert (Hc : forall a, In a cands ->
            NoDup (map fst a) /\ NoDup (map snd a)
            /\ (forall i, In i (map fst a) -> (i < n)%nat)
            /\ (forall j, In j (map snd a) -> (j < m)%nat)).
  { intros a Ha. subst cands. destruct (n <=? m)%nat.
    - apply injections_spec in Ha as (H1 & H2 & H3); [|apply NoDup_seq].
      rewrite H1. split; [apply NoDup_seq|]. split; [exact H2|]. split.
      + intros i Hi. apply in_seq in Hi. lia.
      + intros j Hj. apply H3 in Hj. apply in_seq in Hj. lia.
    - apply in_map_iff in Ha as (b & <- & Hb).
      apply injections_spec in Hb as (H1 & H2 & H3); [|apply NoDup_seq].
      pose proof (sort_by_row_perm (map (fun p => (snd p, fst p)) b)) as Hp.
      assert (Hf : Permutation
                (map fst (fold_right Env.insert_by_row []
                            (map (fun p => (snd p, fst p)) b)))
                (map snd b)).
      { rewrite Hp, map_map. reflexivity. }
      assert (Hs : Permutation
                (map snd (fold_right Env.insert_by_row []
                            (map (fun p => (snd p, fst p)) b)))
                (map fst b)).
      { rewrite Hp, map_map. reflexivity. }
      split; [rewrite Hf; exact H2|].
      split; [rewrite Hs, H1; apply NoDup_seq|]. split.
      + intros i Hi. eapply Permutation_in in Hi; [|exact Hf].
        apply H3 in Hi. apply in_seq in Hi. lia.
      + intros j Hj. eapply Permutation_in in Hj; [|exact Hs].
        rewrite H1 in Hj. apply in_seq in Hj. lia. }
  destruct cands as [|a0 cands'].
  - simpl. split; [constructor|]. split; [constructor|]. split; intros ? [].
  - simpl. apply Hc. apply cheapest_in.
Qed.

Lemma Env_assigns_once : assigns_once Env.linear_sum_assignment.
Proof.
  intros cost. pose proof (linear_sum_assignment_spec cost) as (H1 & H2 & _).
  auto.
Qed.

Lemma Env_in_range : in_range Env.linear_sum_assignment.
Proof.
  intros cost. pose proof (linear_sum_assignment_spec cost) as (_ & _ & H3 & H4).
  split; apply List.Forall_forall; assumption.
Qed.

Lemma cheapest_le cost cands : forall best a,
  In a (best :: cands) ->
  (Env.total cost (Env.cheapest cost best cands) <= Env.total cost a)%Q.
Proof.
  induction cands as [|c cands IH]; intros best a; simpl.
  - intros [<-|[]]. apply Qle_refl.
  - destruct (Py.ltb (Env.total cost c) (Env.total cost best)) eqn:E.
    + apply ltb_lt in E. intros [<-|[<-|Ha]].
      * eapply Qle_trans; [apply (IH c c); left; reflexivity|].
        apply Qlt_le_weak. exact E.
      * apply IH. left. reflexivity.
      * apply IH. right. exact Ha.
    + apply ltb_ge in E. intros [<-|[<-|Ha]].
      * apply IH. left. reflexivity.
      * eapply Qle_trans; [apply (IH best best); left; reflexivity|exact E].
      * apply IH. right. exact Ha.
Qed.

Section Total.
Variable sqrt : Q -> Q.
Variable lsa : list (list Q) -> list nat * list nat.
Hypothesis lsa_in_range : in_range lsa.

Lemma find_matches_total self trs dets pairs :
  (forall i j, In (i, j) pairs -> (i < length trs)%nat /\ (j < length dets)%nat) ->
  forall m ut ud, exists r,
    EnhancedTracker.find_matches self (EnhancedTracker.cost_matrix self trs dets)
      trs dets pairs m ut ud = Ret r.
Proof.
  induction pairs as [|[i j] pairs IH]; intros Hr m ut ud; simpl; [eauto|].
  destruct (Hr i j (or_introl eq_refl)) as [Hi Hj].
  destruct (lookup_lt_is_Some_2 trs i Hi) as [r Er].
  destruct (lookup_lt_is_Some_2 dets j Hj) as [d Ed].
  assert (Hrow : exists row,
            EnhancedTracker.cost_matrix self trs dets !! i = Some row
            /\ exists c, row !! j = Some c).
  { unfold EnhancedTracker.cost_matrix. rewrite list_lookup_fmap, Er. simpl.
    eexists. split; [reflexivity|]. rewrite list_lookup_fmap, Ed. simpl.
    eauto. }
  destruct Hrow as (row & Erow & c & Ec).
  apply subscript_Ret in Erow, Ec, Er, Ed. rewrite Erow. simpl.
  rewrite Ec. simpl. rewrite Er. simpl. rewrite Ed. simpl.
  assert (Hr' : forall i j, In (i, j) pairs ->
                  (i < length trs)%nat /\ (j < length dets)%nat).
  { intros i' j' H. apply Hr. right. exact H. }
  destruct (Py.ltb _ _); apply IH; exact Hr'.
Qed.

Lemma associate_returns fuel self dets trs :
  exists r,
    EnhancedTracker.associate_detections_to_tracks (Some lsa) fuel self dets trs
    = Ret r.
Proof.
  unfold EnhancedTracker.associate_detections_to_tracks.
  destruct (length trs =? 0)%nat eqn:E1; [eauto|].
  destruct (length dets =? 0)%nat eqn:E2; [eauto|].
  destruct (lsa_in_range (EnhancedTracker.cost_matrix self trs dets))
    as [Hti Hdi].
  destruct (lsa _) as [ti di]. simpl in Hti, Hdi.
  destruct (find_matches_total self trs dets (combine ti di)) with
    (m := @nil (nat * ref Detection.t)) (ut := @nil nat)
    (ud := @nil (ref Detection.t)) as [[[m0 ut0] ud0] E].
  - intros i j Hin. split.
    + apply in_combine_l in Hin.
      apply (proj1 (List.Forall_forall _ _) Hti) in Hin.
      unfold EnhancedTracker.cost_matrix in Hin. rewrite length_map in Hin.
      exact Hin.
    + apply in_combine_r in Hin.
      apply (proj1 (List.Forall_forall _ _) Hdi) in Hin.
      unfold EnhancedTracker.cost_matrix in Hin.
      destruct trs; [discriminate|]. simpl in Hin.
      rewrite length_map in Hin. exact Hin.
  - rewrite E. simpl. eauto.
Qed.

(** With a solver whose indices are in range, [update] returns. *)
Lemma update_returns_with_solver fuel self dets :
  exists self', EnhancedTracker.update sqrt (Some lsa) fuel self dets = Ret self'.
Proof.
  unfold EnhancedTracker.update, EnhancedTracker.run_stages.
  repeat match goal with
  | |- context [EnhancedTracker.associate_detections_to_tracks ?a ?b ?c ?d ?e] =>
      let E := fresh "E" in
      destruct (associate_returns b c d e) as [[[? ?] ?] E];
      rewrite E; simpl
  end.
  eauto.
Qed.
End Total.

(** * Further properties of the code *)

(** ** Intersection over union *)

Ltac py_cases :=
  unfold Py.max, Py.min in *;
  repeat match goal with
  | |- context [Py.ltb ?a ?b] =>
      lazymatch a with context [Py.ltb _ _] => fail | _ => idtac end;
      lazymatch b with context [Py.ltb _ _] => fail | _ => idtac end;
      let E := fresh "E" in
      destruct (Py.ltb a b) eqn:E;
      [apply ltb_lt in E | apply ltb_ge in E]
  end.

Lemma overlap_nonneg lo1 hi1 lo2 hi2 : (0 <= overlap lo1 hi1 lo2 hi2)%Q.
Proof. unfold overlap. py_cases; lra. Qed.

Lemma overlap_le_l lo1 hi1 lo2 hi2 :
  (lo1 <= hi1)%Q -> (overlap lo1 hi1 lo2 hi2 <= hi1 - lo1)%Q.
Proof. unfold overlap. intros H. py_cases; lra. Qed.

Lemma overlap_le_r lo1 hi1 lo2 hi2 :
  (lo2 <= hi2)%Q -> (overlap lo1 hi1 lo2 hi2 <= hi2 - lo2)%Q.
Proof. unfold overlap. intros H. py_cases; lra. Qed.

Lemma overlap_comm lo1 hi1 lo2 hi2 :
  (overlap lo1 hi1 lo2 hi2 == overlap lo2 hi2 lo1 hi1)%Q.
Proof. unfold overlap. py_cases; lra. Qed.

Lemma overlap_self lo hi : (lo <= hi)%Q -> (overlap lo hi lo hi == hi - lo)%Q.
Proof. unfold overlap. intros H. py_cases; lra. Qed.

Lemma overlap_disjoint lo1 hi1 lo2 hi2 :
  (hi1 <= lo2)%Q \/ (hi2 <= lo1)%Q -> (overlap lo1 hi1 lo2 hi2 == 0)%Q.
Proof. unfold overlap. intros H. py_cases; lra. Qed.

Lemma overlap_positive lo1 hi1 lo2 hi2 :
  (0 < overlap lo1 hi1 lo2 hi2)%Q -> (lo1 < hi1)%Q /\ (lo2 < hi2)%Q.
Proof. unfold overlap. py_cases; intros H; lra. Qed.

(** [iou] is the product of the overlaps on the two axes over the sum of
    the areas less that product, and 0 when that denominator is not
    positive. *)
Lemma iou_unfold a b :
  EnhancedTracker.iou a b
  = (let i := (overlap (b0 a) (b2 a) (b0 b) (b2 b)
               * overlap (b1 a) (b3 a) (b1 b) (b3 b))%Q in
     let u := (area a + area b - i)%Q in
     if Py.ltb 0 u then (i / u)%Q else 0%Q).
Proof. reflexivity. Qed.

Lemma mult_le_compat (x y X Y : Q) :
  (0 <= x)%Q -> (x <= X)%Q -> (0 <= y)%Q -> (y <= Y)%Q -> (x * y <= X * Y)%Q.
Proof. intros. nra. Qed.

Lemma div_self_1 (i u : Q) : (0 < u)%Q -> (i == u)%Q -> (i / u == 1)%Q.
Proof.
  intros Hu Hi. rewrite Hi. unfold Qdiv. apply Qmult_inv_r. lra.
Qed.

(** X1.  [iou] returns a value between 0 and 1 for any two boxes, also for
    boxes whose corners are swapped or that have no extent: an intersection
    that is not empty forces both boxes to have positive width and height,
    and then it is no larger than either area. *)
Theorem iou_in_unit_interval (a b : BBox) :
  (0 <= EnhancedTracker.iou a b)%Q /\ (EnhancedTracker.iou a b <= 1)%Q.
Proof.
  rewrite iou_unfold. cbv zeta.
  pose proof (overlap_nonneg (b0 a) (b2 a) (b0 b) (b2 b)) as Hx.
  pose proof (overlap_nonneg (b1 a) (b3 a) (b1 b) (b3 b)) as Hy.
  destruct (Py.ltb 0 _) eqn:E; [|split; lra]. apply ltb_lt in E. split.
  - apply Qle_shift_div_l; [exact E|]. rewrite Qmult_0_l.
    apply Qmult_le_0_compat; assumption.
  - apply Qle_shift_div_r; [exact E|]. rewrite Qmult_1_l.
    destruct (Qlt_le_dec 0 (overlap (b0 a) (b2 a) (b0 b) (b2 b))) as [Px|Zx];
      [destruct (Qlt_le_dec 0 (overlap (b1 a) (b3 a) (b1 b) (b3 b)))
         as [Py|Zy]|].
    + apply overlap_positive in Px as [Ha1 Hb1].
      apply overlap_positive in Py as [Ha2 Hb2].
      pose proof (mult_le_compat _ _ _ _ Hx
        (overlap_le_l (b0 a) (b2 a) (b0 b) (b2 b) (Qlt_le_weak _ _ Ha1)) Hy
        (overlap_le_l (b1 a) (b3 a) (b1 b) (b3 b) (Qlt_le_weak _ _ Ha2)))
        as H1.
      pose proof (mult_le_compat _ _ _ _ Hx
        (overlap_le_r (b0 a) (b2 a) (b0 b) (b2 b) (Qlt_le_weak _ _ Hb1)) Hy
        (overlap_le_r (b1 a) (b3 a) (b1 b) (b3 b) (Qlt_le_weak _ _ Hb2)))
        as H2.
      unfold area. lra.
    + assert (Hz : (overlap (b1 a) (b3 a) (b1 b) (b3 b) == 0)%Q) by lra.
      rewrite Hz in E |- *. lra.
    + assert (Hz : (overlap (b0 a) (b2 a) (b0 b) (b2 b) == 0)%Q) by lra.
      rewrite Hz in E |- *. lra.
Qed.

(** X2.  [iou] is symmetric: the two boxes can be passed in either order. *)
Theorem iou_symmetric (a b : BBox) :
  (EnhancedTracker.iou a b == EnhancedTracker.iou b a)%Q.
Proof.
  rewrite !iou_unfold. cbv zeta.
  pose proof (overlap_comm (b0 a) (b2 a) (b0 b) (b2 b)) as Hx.
  pose proof (overlap_comm (b1 a) (b3 a) (b1 b) (b3 b)) as Hy.
  set (i := (overlap (b0 a) (b2 a) (b0 b) (b2 b)
             * overlap (b1 a) (b3 a) (b1 b) (b3 b))%Q).
  set (i' := (overlap (b0 b) (b2 b) (b0 a) (b2 a)
              * overlap (b1 b) (b3 b) (b1 a) (b3 a))%Q).
  assert (Hi : (i == i')%Q) by (subst i i'; rewrite Hx, Hy; reflexivity).
  assert (Hu : (area a + area b - i == area b + area a - i')%Q) by lra.
  clearbody i i'.
  destruct (Py.ltb 0 (area a + area b - i)) eqn:E1,
           (Py.ltb 0 (area b + area a - i')) eqn:E2.
  - apply Qdiv_comp; [exact Hi|exact Hu].
  - apply ltb_lt in E1. apply ltb_ge in E2. lra.
  - apply ltb_ge in E1. apply ltb_lt in E2. lra.
  - reflexivity.
Qed.

(** X3.  The [iou] of a box of positive width and height with itself is 1. *)
Theorem iou_self_is_1 (b : BBox) :
  well_formed b -> (EnhancedTracker.iou b b == 1)%Q.
Proof.
  intros [H1 H2]. rewrite iou_unfold. cbv zeta.
  pose proof (overlap_self (b0 b) (b2 b) (Qlt_le_weak _ _ H1)) as Hx.
  pose proof (overlap_self (b1 b) (b3 b) (Qlt_le_weak _ _ H2)) as Hy.
  assert (Hi : (overlap (b0 b) (b2 b) (b0 b) (b2 b)
                * overlap (b1 b) (b3 b) (b1 b) (b3 b) == area b)%Q).
  { rewrite Hx, Hy. reflexivity. }
  assert (Ha : (0 < area b)%Q) by (unfold area; nra).
  destruct (Py.ltb 0 _) eqn:E.
  - apply ltb_lt in E. apply div_self_1; [exact E|]. rewrite Hi. lra.
  - apply ltb_ge in E. rewrite Hi in E. lra.
Qed.

(** X3 at the box of [Examples.dA]. *)
Lemma iou_self_is_1_witness :
  (EnhancedTracker.iou (Detection.bbox Examples.dA)
                       (Detection.bbox Examples.dA) == 1)%Q.
Proof.
  apply (iou_self_is_1 (Detection.bbox Examples.dA)).
  split; reflexivity.
Defined.

(** X4.  Two boxes that are apart on one axis, one ending where the other
    begins or before, have an [iou] of 0. *)
Theorem iou_disjoint_is_0 (a b : BBox) :
  (b2 a <= b0 b)%Q \/ (b2 b <= b0 a)%Q \/ (b3 a <= b1 b)%Q \/ (b3 b <= b1 a)%Q ->
  (EnhancedTracker.iou a b == 0)%Q.
Proof.
  intros H. rewrite iou_unfold. cbv zeta.
  assert (Hi : (overlap (b0 a) (b2 a) (b0 b) (b2 b)
                * overlap (b1 a) (b3 a) (b1 b) (b3 b) == 0)%Q).
  { destruct H as [H|[H|[H|H]]].
    - rewrite (overlap_disjoint (b0 a) (b2 a) (b0 b) (b2 b)) by tauto. lra.
    - rewrite (overlap_disjoint (b0 a) (b2 a) (b0 b) (b2 b)) by tauto. lra.
    - rewrite (overlap_disjoint (b1 a) (b3 a) (b1 b) (b3 b)) by tauto. lra.
    - rewrite (overlap_disjoint (b1 a) (b3 a) (b1 b) (b3 b)) by tauto. lra. }
  destruct (Py.ltb 0 _); [|reflexivity].
  rewrite Hi. unfold Qdiv. lra.
Qed.

(** X4 at the boxes of [Examples.dA] and [Examples.dB]. *)
Lemma iou_disjoint_is_0_witness :
  (EnhancedTracker.iou (Detection.bbox Examples.dA)
                       (Detection.bbox Examples.dB) == 0)%Q.
Proof.
  apply (iou_disjoint_is_0 (Detection.bbox Examples.dA)
                           (Detection.bbox Examples.dB)).
  left. vm_compute. discriminate.
Defined.

(** ** What a call of [update] keeps *)

Lemma refs_from_val {A} (l : list A) : forall k r,
  In r (refs_from k l) -> In (val r) l.
Proof.
  induction l as [|x l IH]; intros k r; simpl; [tauto|].
  intros [<-|H]; [left; reflexivity|right; eapply IH; exact H].
Qed.

Section Incl.
Variable sqrt : Q -> Q.
Variable scipy : option (list (list Q) -> list nat * list nat).

(** What an associator call returns is made of the tracks and the
    detections it was given. *)
Lemma associate_incl fuel self dets trs m ud ut :
  EnhancedTracker.associate_detections_to_tracks scipy fuel self dets trs
  = Ret (m, ud, ut) ->
  (forall r, In r (map fst m ++ ut) -> In r trs)
  /\ (forall d, In d (map snd m ++ ud) -> In d dets).
Proof.
  unfold EnhancedTracker.associate_detections_to_tracks.
  destruct (length trs =? 0)%nat.
  { intros [= <- <- <-]. simpl. split; [intros r []|intros d Hd; exact Hd]. }
  destruct (length dets =? 0)%nat.
  { intros [= <- <- <-]. simpl. split; [intros r Hr; exact Hr|intros d []]. }
  destruct scipy as [lsa|].
  - destruct (lsa _) as [ti di].
    destruct (EnhancedTracker.find_matches _ _ _ _ _ _ _ _)
      as [[[m0 ut0] ud0]| |] eqn:Efm; simpl; try discriminate.
    intros [= <- <- <-].
    apply find_matches_perm in Efm as (pt & pd & Hpt & Hpd & Ht & Hd).
    simpl in Ht, Hd. split.
    + intros r Hr. rewrite app_assoc in Hr. apply in_app_or in Hr as [Hr|Hr].
      * eapply Permutation_in in Hr; [|exact Ht].
        destruct (picked_in _ _ _ _ Hpt Hr) as (i & _ & Hi).
        apply list_elem_of_In, list_elem_of_lookup. exists i. exact Hi.
      * apply not_indexed_spec in Hr as (i & Hi & _).
        apply list_elem_of_In, list_elem_of_lookup. exists i. exact Hi.
    + intros d Hd0. rewrite app_assoc in Hd0.
      apply in_app_or in Hd0 as [Hd0|Hd0].
      * eapply Permutation_in in Hd0; [|exact Hd].
        destruct (picked_in _ _ _ _ Hpd Hd0) as (j & _ & Hj).
        apply list_elem_of_In, list_elem_of_lookup. exists j. exact Hj.
      * apply not_indexed_spec in Hd0 as (j & Hj & _).
        apply list_elem_of_In, list_elem_of_lookup. exists j. exact Hj.
  - intros Hret. pose proof (greedy_loop_tracks _ _ _ _ _ _ Hret) as Hp.
    simpl in Hp. apply greedy_assignment_returns in Hret as [-> Hm].
    split.
    + intros r Hr. eapply Permutation_in; [exact Hp|exact Hr].
    + intros d Hd. rewrite Hm in Hd. apply in_app_or in Hd.
      apply (Permutation_in _
               (sorted_desc_perm (fun x => Detection.confidence (val x)) dets)).
      destruct Hd; assumption.
Qed.

(** The tracker the stages leave, against the one they were given. *)
Lemma run_stages_after fuel self dets s :
  EnhancedTracker.run_stages sqrt scipy fuel self dets = Ret s ->
  EnhancedTracker.store_at_A s
  = map (fun track => fst (Track.predict track)) (EnhancedTracker.tracks self)
  /\ EnhancedTracker.tracks (EnhancedTracker.after_stages s)
     = EnhancedTracker.apply_updates sqrt (EnhancedTracker.matched_low_conf s)
         (EnhancedTracker.store_at_C s)
  /\ EnhancedTracker.frame_count (EnhancedTracker.after_stages s)
     = EnhancedTracker.frame_count self + 1
  /\ EnhancedTracker.iou_threshold (EnhancedTracker.after_stages s)
     = EnhancedTracker.iou_threshold self
  /\ EnhancedTracker.min_hits (EnhancedTracker.after_stages s)
     = EnhancedTracker.min_hits self.
Proof.
  intros H. unfold EnhancedTracker.run_stages in H.
  repeat match type of H with
  | context [EnhancedTracker.associate_detections_to_tracks ?a ?b ?c ?d ?e] =>
      destruct (EnhancedTracker.associate_detections_to_tracks a b c d e)
        as [[[? ?] ?]| |]; simpl in H; try discriminate
  end.
  injection H as Hs. subst s. simpl. repeat split; reflexivity.
Qed.

(** Every detection a stage matches, and every detection that starts a
    track, is a detection of the call. *)
Lemma stage_detections_incl fuel self dets s :
  EnhancedTracker.run_stages sqrt scipy fuel self dets = Ret s ->
  (forall r d, In (r, d) (EnhancedTracker.matched_high_conf s
                          ++ EnhancedTracker.matched_unconfirmed s
                          ++ EnhancedTracker.matched_low_conf s) ->
     In (val d) dets)
  /\ (forall d, In d (EnhancedTracker.creators s) -> In (val d) dets)
  /\ (forall r d, In (r, d) (EnhancedTracker.matched_high_conf s
                            ++ EnhancedTracker.matched_unconfirmed s
                            ++ EnhancedTracker.matched_low_conf s) ->
       (r < length (EnhancedTracker.tracks self))%nat).
Proof.
  intros Hrun.
  destruct (run_stages_inv _ _ _ _ _ _ Hrun)
    as (selfA & selfB & selfC & uB & tB & uC & tC & _ & _ & _
        & EA & EB & EC & _ & _ & Hhigh & Hlow & Hconf & Hunconf & Hafter).
  destruct (run_stages_after _ _ _ _ Hrun) as (HsA & _).
  destruct (associate_incl _ _ _ _ _ _ _ EA) as [TA DA].
  destruct (associate_incl _ _ _ _ _ _ _ EB) as [TB DB].
  destruct (associate_incl _ _ _ _ _ _ _ EC) as [TC DC].
  assert (Hh : forall d, In d (EnhancedTracker.high_conf_detections s) ->
                 In (val d) dets).
  { intros d Hd. rewrite Hhigh in Hd. apply filter_In in Hd as [Hd _].
    eapply refs_from_val. exact Hd. }
  assert (Hl : forall d, In d (EnhancedTracker.low_conf_detections s) ->
                 In (val d) dets).
  { intros d Hd. rewrite Hlow in Hd. apply filter_In in Hd as [Hd _].
    eapply refs_from_val. exact Hd. }
  assert (Hst : forall st r,
            In r (EnhancedTracker.tracks_in_state st
                    (EnhancedTracker.store_at_A s)) ->
            (r < length (EnhancedTracker.tracks self))%nat).
  { intros st r Hr. apply filter_In in Hr as [Hr _]. apply in_seq in Hr.
    rewrite HsA, length_map in Hr. lia. }
  split; [|split].
  - intros r d Hrd. apply in_app_or in Hrd as [Hrd|Hrd];
      [|apply in_app_or in Hrd as [Hrd|Hrd]];
      apply (in_map snd) in Hrd; simpl in Hrd.
    + apply Hh, DA. apply in_or_app. left. exact Hrd.
    + apply Hh, DA. apply in_or_app. right. apply DB. apply in_or_app.
      left. exact Hrd.
    + apply Hl, DC. apply in_or_app. left. exact Hrd.
  - intros d Hd. apply filter_In in Hd as [Hd _].
    apply Hh, DA. apply in_or_app. right. exact Hd.
  - intros r d Hrd. apply in_app_or in Hrd as [Hrd|Hrd];
      [|apply in_app_or in Hrd as [Hrd|Hrd]];
      apply (in_map fst) in Hrd; simpl in Hrd.
    + apply (Hst confirmed). rewrite <- Hconf. apply TA.
      apply in_or_app. left. exact Hrd.
    + apply (Hst tentative). rewrite <- Hunconf. apply TB.
      apply in_or_app. left. exact Hrd.
    + apply (Hst confirmed). rewrite <- Hconf. apply TA.
      apply in_or_app. right.
      specialize (TC r (in_or_app _ _ _ (or_introl Hrd))).
      rewrite Hafter in TC. apply filter_In in TC as [TC _]. exact TC.
Qed.

Section Preserve.
Variable P : Track.t -> Prop.
Variable D : Detection.t -> Prop.
Hypothesis P_predict : forall t, P t -> P (fst (Track.predict t)).
Hypothesis P_update : forall t d, P t -> D d ->
  P (Track.update sqrt t (Detection.bbox d) (Detection.confidence d)).
Hypothesis P_missed : forall t, P t -> P (Track.mark_missed t).
Hypothesis P_init : forall d id, D d ->
  P (Track.init (Detection.bbox d) (Detection.confidence d)
                (Detection.class_id d) (Detection.class_name d) id).

Lemma apply_updates_preserves m : forall store,
  (forall r d, In (r, d) m -> D (val d)) ->
  Forall P store -> Forall P (EnhancedTracker.apply_updates sqrt m store).
Proof.
  unfold EnhancedTracker.apply_updates.
  induction m as [|[r d] m IH]; intros store Hm H; simpl; [exact H|].
  apply IH; [intros r' d' H'; apply (Hm r' d'); right; exact H'|].
  apply Forall_alter; [exact H|]. intros t _ Ht.
  apply P_update; [exact Ht|]. apply (Hm r d). left. reflexivity.
Qed.

Lemma mark_unmatched_preserves all store :
  Forall P store -> Forall P (EnhancedTracker.mark_unmatched all store).
Proof.
  unfold EnhancedTracker.mark_unmatched. generalize 0%nat.
  induction store as [|t store IH]; intros k H; simpl; [constructor|].
  apply Forall_cons in H as [Ht H]. constructor; [|apply IH; exact H].
  destruct (mem_track _ _); simpl; [exact Ht|apply P_missed; exact Ht].
Qed.

Lemma new_tracks_preserves ds : forall n,
  (forall d, In d ds -> D (val d)) -> Forall P (new_tracks ds n).
Proof.
  induction ds as [|d ds IH]; intros n H; simpl; constructor.
  - apply P_init. apply H. left. reflexivity.
  - apply IH. intros d' H'. apply H. right. exact H'.
Qed.

(** A property of tracks that [predict], [Track.update], [mark_missed] and
    the constructor keep is kept by a call of [update] on detections that
    qualify. *)
Lemma update_preserves fuel self dets self' :
  Forall P (EnhancedTracker.tracks self) -> Forall D dets ->
  EnhancedTracker.update sqrt scipy fuel self dets = Ret self' ->
  Forall P (EnhancedTracker.tracks self').
Proof.
  intros HP HD Hup. unfold EnhancedTracker.update in Hup.
  destruct (EnhancedTracker.run_stages _ _ _ _ _) as [s| |] eqn:Es;
    simpl in Hup; try discriminate.
  injection Hup as <-. rewrite finish_spec. cbv zeta.
  cbn [EnhancedTracker.tracks].
  destruct (run_stages_inv _ _ _ _ _ _ Es)
    as (_ & _ & _ & _ & _ & _ & _ & _ & _ & _ & _ & _ & _ & HsB & HsC & _).
  destruct (run_stages_after _ _ _ _ Es) as (HsA & Hafter & _).
  destruct (stage_detections_incl _ _ _ _ Es) as (Hm & Hc & _).
  assert (HDv : forall d, In (val d) dets -> D (val d)).
  { intros d Hd. apply (proj1 (List.Forall_forall _ _) HD). exact Hd. }
  apply List.Forall_forall. intros t Ht. apply filter_In in Ht as [Ht _].
  revert t Ht. apply List.Forall_forall. apply mark_unmatched_preserves.
  apply Forall_app. split.
  - rewrite Hafter, HsC, HsB, HsA.
    apply apply_updates_preserves.
    { intros r d H. apply HDv, (Hm r d). apply in_or_app. right.
      apply in_or_app. right. exact H. }
    apply apply_updates_preserves.
    { intros r d H. apply HDv, (Hm r d). apply in_or_app. right.
      apply in_or_app. left. exact H. }
    apply apply_updates_preserves.
    { intros r d H. apply HDv, (Hm r d). apply in_or_app. left. exact H. }
    apply List.Forall_forall. intros t Ht.
    apply in_map_iff in Ht as (t0 & <- & Ht0). apply P_predict.
    revert t0 Ht0. apply List.Forall_forall. exact HP.
  - apply new_tracks_preserves. intros d Hd. apply HDv, Hc. exact Hd.
Qed.

Lemma updates_preserves fuel frames : forall self self',
  Forall P (EnhancedTracker.tracks self) -> Forall (Forall D) frames ->
  EnhancedTracker.updates sqrt scipy fuel self frames = Ret self' ->
  Forall P (EnhancedTracker.tracks self').
Proof.
  induction frames as [|dets frames IH]; intros self self' HP HD; simpl.
  - intros [= <-]. exact HP.
  - apply Forall_cons in HD as [HD1 HD].
    destruct (EnhancedTracker.update _ _ _ _ _) as [self1| |] eqn:E; simpl;
      try discriminate.
    apply IH; [|exact HD]. eapply update_preserves; eassumption.
Qed.
End Preserve.
End Incl.

(** ** Tracks: counters, histories and scores *)

Lemma last_n_length {A} n (l : list A) :
  length (Py.last_n n l) = Nat.min n (length l).
Proof. unfold Py.last_n. rewrite length_skipn. lia. Qed.

Lemma last_last_n {A} n (l : list A) :
  (1 <= n)%nat -> last (Py.last_n n l) = last l.
Proof.
  intros Hn. unfold Py.last_n. rewrite !last_lookup, length_skipn.
  destruct (length l) as [|m] eqn:E.
  { apply length_zero_iff_nil in E. subst l. reflexivity. }
  change (skipn ?a ?b) with (drop a b). rewrite lookup_drop. f_equal. lia.
Qed.

Ltac fields :=
  cbn [Track.bbox Track.confidence Track.hits Track.age
       Track.time_since_update Track.state Track.history
       Track.confidence_history Track.stability_score
       Track.consistency_score Track.quality_score].

Lemma consistent_init b c cid cname id :
  consistent (Track.init b c cid cname id).
Proof. constructor; unfold Track.init; fields; try reflexivity; simpl; lia. Qed.

Lemma consistent_predict t : consistent t -> consistent (fst (Track.predict t)).
Proof.
  intros []. unfold Track.predict.
  destruct (2 <=? _)%nat; constructor; fields; simpl fst; fields; assumption.
Qed.

Lemma consistent_mark_missed t : consistent t -> consistent (Track.mark_missed t).
Proof.
  intros []. constructor; unfold Track.mark_missed; fields; try assumption; lia.
Qed.

Lemma consistent_update sqrt t b c :
  consistent t -> consistent (Track.update sqrt t b c).
Proof.
  intros []. unfold Track.update.
  destruct (15 <? length (Track.history t ++ [b]))%nat eqn:E.
  - apply Nat.ltb_lt in E. rewrite length_app in E. simpl in E.
    constructor; cbn [Track.hits Track.age Track.time_since_update
      Track.history Track.confidence_history Track.bbox Track.confidence];
      try lia.
    + rewrite last_n_length, length_app. cbn [length]. lia.
    + rewrite !last_n_length, !length_app. cbn [length]. lia.
    + rewrite last_last_n by lia. apply last_snoc.
    + rewrite last_last_n by lia. apply last_snoc.
  - apply Nat.ltb_ge in E. rewrite length_app in E. simpl in E.
    constructor; cbn [Track.hits Track.age Track.time_since_update
      Track.history Track.confidence_history Track.bbox Track.confidence];
      try lia.
    + rewrite length_app. cbn [length]. lia.
    + rewrite !length_app. cbn [length]. lia.
    + apply last_snoc.
    + apply last_snoc.
Qed.

Lemma sum_acc_nonneg l : forall a,
  (0 <= a)%Q -> Forall (fun x => (0 <= x)%Q) l -> (0 <= fold_left Qplus l a)%Q.
Proof.
  induction l as [|x l IH]; intros a Ha H; simpl; [exact Ha|].
  apply Forall_cons in H as [Hx H]. apply IH; [lra|exact H].
Qed.

Lemma mean_nonneg l : Forall (fun x => (0 <= x)%Q) l -> (0 <= Py.mean l)%Q.
Proof.
  intros H. unfold Py.mean, Py.sum.
  pose proof (sum_acc_nonneg l 0 (Qle_refl 0) H) as Hs.
  unfold Qdiv. apply Qmult_le_0_compat; [exact Hs|].
  apply Qinv_le_0_compat. unfold Qle. simpl. lia.
Qed.

Lemma bbox_variations_nonneg sqrt l :
  nonnegative sqrt -> Forall (fun x => (0 <= x)%Q) (Track.bbox_variations sqrt l).
Proof.
  intros Hs. induction l as [|p [|c l] IH]; simpl; try constructor.
  - apply Hs.
  - exact IH.
Qed.

Lemma one_minus_min_in_unit y : (0 <= y)%Q -> in_unit (1 - Py.min 1 y).
Proof.
  intros Hy. unfold in_unit, Py.min.
  destruct (Py.ltb y 1) eqn:E; [apply ltb_lt in E|apply ltb_ge in E]; lra.
Qed.

Lemma scored_init b c cid cname id :
  in_unit c -> scored (Track.init b c cid cname id).
Proof. intros H. constructor; simpl; try exact H; split; lra. Qed.

Lemma scored_predict t : scored t -> scored (fst (Track.predict t)).
Proof.
  intros []. unfold Track.predict.
  destruct (2 <=? _)%nat; constructor; fields; simpl fst; fields; assumption.
Qed.

Lemma scored_mark_missed t : scored t -> scored (Track.mark_missed t).
Proof.
  intros [? ? ? [H0 H1]]. constructor; simpl; try assumption.
  split; lra.
Qed.

Lemma third_in_unit c s k :
  in_unit c -> in_unit s -> in_unit k -> in_unit ((c + s + k) / 3).
Proof.
  intros [] [] []. unfold in_unit, Qdiv. change (/ 3)%Q with (1 # 3)%Q.
  split; lra.
Qed.

Lemma stability_in_unit' sqrt h s0 :
  nonnegative sqrt -> in_unit s0 ->
  in_unit (if (3 <=? length h)%nat
           then 1 - Py.min 1 (Py.mean (Track.bbox_variations sqrt
                                         (Py.last_n 3 h)) / 100)
           else s0).
Proof.
  intros Hs H0. destruct (3 <=? length h)%nat; [|exact H0].
  apply one_minus_min_in_unit.
  pose proof (mean_nonneg _ (bbox_variations_nonneg sqrt (Py.last_n 3 h) Hs))
    as Hm.
  unfold Qdiv. apply Qmult_le_0_compat; [exact Hm|].
  unfold Qle. simpl. lia.
Qed.

Lemma consistency_in_unit' sqrt (ch : list Q) k0 :
  nonnegative sqrt -> in_unit k0 ->
  in_unit (if (3 <=? length ch)%nat
           then 1 - Py.min 1 (Track.std sqrt (Py.last_n 5 ch))
           else k0).
Proof.
  intros Hs H0. destruct (3 <=? length ch)%nat; [|exact H0].
  apply one_minus_min_in_unit. apply Hs.
Qed.

Lemma scored_update sqrt t b c :
  nonnegative sqrt -> scored t -> in_unit c ->
  scored (Track.update sqrt t b c).
Proof.
  intros Hs [Hc Hst Hco Hq] Hc'. unfold Track.update.
  destruct (15 <? _)%nat; constructor; fields;
    auto using third_in_unit, stability_in_unit', consistency_in_unit'.
Qed.

Lemma Env_sqrt_nonnegative : nonnegative Env.sqrt.
Proof.
  intros x. unfold Env.sqrt. destruct (Qle_bool x 0); [apply Qle_refl|].
  unfold Qle. cbn [Qnum Qden]. rewrite Z.mul_0_l, Z.mul_1_r.
  apply Z.sqrt_nonneg.
Qed.


Lemma state_not_deleted_predict t :
  Track.state t <> deleted -> Track.state (fst (Track.predict t)) <> deleted.
Proof. rewrite predict_state. trivial. Qed.

Lemma state_not_deleted_update sqrt t b c :
  Track.state t <> deleted -> Track.state (Track.update sqrt t b c) <> deleted.
Proof.
  intros Ht. unfold Track.update. destruct (15 <? _)%nat; simpl;
    (destruct (_ && _); [discriminate|]);
    (destruct (1 <=? _); [discriminate|exact Ht]).
Qed.

(** ** What every track of a tracker satisfies *)

Section Invariants.
Variable sqrt : Q -> Q.
Variable scipy : option (list (list Q) -> list nat * list nat).

(** X5.  In a tracker that started from the constructor, after any run of
    calls of [update] that return, on either association path, every active
    track has consistent counters and histories: [hits >= 1],
    [hits + time_since_update <= age + 1], the two histories have the same
    length [min(hits, 15)], and they end in the track's current box and
    confidence. *)
Theorem tracks_stay_consistent fuel max_age min_hits thr frames self' :
  EnhancedTracker.updates sqrt scipy fuel
    (EnhancedTracker.init max_age min_hits thr) frames = Ret self' ->
  Forall consistent (EnhancedTracker.tracks self').
Proof.
  intros H.
  apply (updates_preserves sqrt scipy consistent (fun _ => True)
           consistent_predict
           (fun t d Ht _ => consistent_update sqrt t _ _ Ht)
           consistent_mark_missed
           (fun d id _ => consistent_init _ _ _ _ id)
           fuel frames (EnhancedTracker.init max_age min_hits thr) self');
    [constructor| |exact H].
  apply List.Forall_forall. intros ds _. apply List.Forall_forall. trivial.
Qed.

(** X6.  With a square root that is never negative and detections whose
    confidence lies in [[0, 1]], the confidence, the stability score, the
    consistency score and the quality score of every active track lie in
    [[0, 1]] after any run of calls of [update] from the constructor. *)
Theorem scores_stay_in_unit fuel max_age min_hits thr frames self' :
  nonnegative sqrt ->
  Forall (Forall (fun d => in_unit (Detection.confidence d))) frames ->
  EnhancedTracker.updates sqrt scipy fuel
    (EnhancedTracker.init max_age min_hits thr) frames = Ret self' ->
  Forall scored (EnhancedTracker.tracks self').
Proof.
  intros Hs HD H.
  apply (updates_preserves sqrt scipy scored
           (fun d => in_unit (Detection.confidence d)))
    with (fuel := fuel) (frames := frames)
         (self := EnhancedTracker.init max_age min_hits thr);
    try assumption.
  - apply scored_predict.
  - intros t d Ht Hd. apply scored_update; assumption.
  - apply scored_mark_missed.
  - intros d id Hd. apply scored_init. exact Hd.
  - constructor.
Qed.

(** X7.  The state ['deleted'] is never assigned: after any run of calls of
    [update] from the constructor every active track is tentative or
    confirmed. *)
Theorem tracks_never_deleted fuel max_age min_hits thr frames self' :
  EnhancedTracker.updates sqrt scipy fuel
    (EnhancedTracker.init max_age min_hits thr) frames = Ret self' ->
  Forall (fun t => Track.state t <> deleted) (EnhancedTracker.tracks self').
Proof.
  intros H.
  apply (updates_preserves sqrt scipy (fun t => Track.state t <> deleted)
           (fun _ => True)
           state_not_deleted_predict
           (fun t d Ht _ => state_not_deleted_update sqrt t _ _ Ht)
           (fun t Ht => Ht)
           (fun d id _ => ltac:(discriminate))
           fuel frames (EnhancedTracker.init max_age min_hits thr) self');
    [constructor| |exact H].
  apply List.Forall_forall. intros ds _. apply List.Forall_forall. trivial.
Qed.
End Invariants.

(** X5, X6 and X7 at the tracker after three frames that show [dA]. *)
Lemma tracks_stay_consistent_witness :
  Forall consistent (EnhancedTracker.tracks Examples.tracker_confirmed).
Proof.
  apply (tracks_stay_consistent Env.sqrt None 2 30 3 (3 # 10)
           (repeat [Examples.dA] 3)).
  vm_compute. reflexivity.
Defined.

Lemma scores_stay_in_unit_witness :
  Forall scored (EnhancedTracker.tracks Examples.tracker_confirmed).
Proof.
  apply (scores_stay_in_unit Env.sqrt None 2 30 3 (3 # 10)
           (repeat [Examples.dA] 3)).
  - exact Env_sqrt_nonnegative.
  - simpl. repeat constructor; apply Qle_bool_iff; reflexivity.
  - vm_compute. reflexivity.
Defined.

Lemma tracks_never_deleted_witness :
  Forall (fun t => Track.state t <> deleted)
         (EnhancedTracker.tracks Examples.tracker_confirmed).
Proof.
  apply (tracks_never_deleted Env.sqrt None 2 30 3 (3 # 10)
           (repeat [Examples.dA] 3)).
  vm_compute. reflexivity.
Defined.

(** ** The tracks a call returns *)

Lemma update_carries sqrt t d :
  carries (Track.update sqrt t (Detection.bbox d) (Detection.confidence d)) d.
Proof.
  unfold carries, Track.update. destruct (15 <? _)%nat; simpl; auto.
Qed.

Lemma new_tracks_from ds : forall n t,
  In t (new_tracks ds n) ->
  exists d, In d ds /\ n <= Track.track_id t
    /\ t = Track.init (Detection.bbox (val d)) (Detection.confidence (val d))
                      (Detection.class_id (val d)) (Detection.class_name (val d))
                      (Track.track_id t).
Proof.
  induction ds as [|d ds IH]; intros n t; simpl; [tauto|].
  intros [<-|H].
  - exists d. split; [left; reflexivity|]. simpl. split; [lia|reflexivity].
  - apply IH in H as (d' & Hd' & Hn & Ht). exists d'.
    split; [right; exact Hd'|]. split; [lia|exact Ht].
Qed.

Section Cases.
Variable sqrt : Q -> Q.
Variable scipy : option (list (list Q) -> list nat * list nat).

Lemma apply_updates_app m1 m2 store :
  EnhancedTracker.apply_updates sqrt (m1 ++ m2) store
  = EnhancedTracker.apply_updates sqrt m2
      (EnhancedTracker.apply_updates sqrt m1 store).
Proof. unfold EnhancedTracker.apply_updates. apply fold_left_app. Qed.

Lemma apply_updates_length m : forall store,
  length (EnhancedTracker.apply_updates sqrt m store) = length store.
Proof.
  unfold EnhancedTracker.apply_updates.
  induction m as [|[r d] m IH]; intros store; simpl; [reflexivity|].
  rewrite IH. apply length_alter.
Qed.

(** The track at a position after the updates of a list of matches: as it
    was when no pair names the position, and else updated, last from the
    detection of one of the pairs that name it. *)
Lemma apply_updates_at m : forall store r t,
  store !! r = Some t ->
  exists t', EnhancedTracker.apply_updates sqrt m store !! r = Some t'
    /\ Track.track_id t' = Track.track_id t
    /\ ((~ In r (map fst m) /\ t' = t)
        \/ (exists d, In (r, d) m /\ carries t' (val d)
                      /\ Track.hits t < Track.hits t')).
Proof.
  unfold EnhancedTracker.apply_updates.
  induction m as [|[r0 d0] m IH]; intros store r t Hr; simpl.
  - exists t. split; [exact Hr|]. split; [reflexivity|]. left. tauto.
  - destruct (Nat.eq_dec r0 r) as [->|Hne].
    + set (t1 := Track.update sqrt t (Detection.bbox (val d0))
                   (Detection.confidence (val d0))).
      destruct (IH (alter (fun tr => Track.update sqrt tr
                                       (Detection.bbox (val d0))
                                       (Detection.confidence (val d0)))
                          r store) r t1)
        as (t' & Ht' & Hid & Hcase).
      { rewrite list_lookup_alter_eq, Hr. reflexivity. }
      exists t'. split; [exact Ht'|]. split.
      { rewrite Hid. apply update_track_id. }
      right. destruct Hcase as [[Hnot ->]|(d & Hd & Hc & Hh)].
      * exists d0. split; [left; reflexivity|]. split.
        -- apply update_carries.
        -- unfold t1. rewrite hits_update. lia.
      * exists d. split; [right; exact Hd|]. split; [exact Hc|].
        unfold t1 in Hh. rewrite hits_update in Hh. lia.
    + destruct (IH (alter (fun tr => Track.update sqrt tr
                                       (Detection.bbox (val d0))
                                       (Detection.confidence (val d0)))
                          r0 store) r t)
        as (t' & Ht' & Hid & Hcase).
      { rewrite list_lookup_alter_ne by exact Hne. exact Hr. }
      exists t'. split; [exact Ht'|]. split; [exact Hid|].
      destruct Hcase as [[Hnot ->]|(d & Hd & Hc & Hh)].
      * left. split; [|reflexivity]. intros [H|H]; [exact (Hne H)|exact (Hnot H)].
      * right. exists d. split; [right; exact Hd|]. split; assumption.
Qed.

Lemma mark_unmatched_lookup all store r :
  EnhancedTracker.mark_unmatched all store !! r
  = (fun t => if mem_track r all then t else Track.mark_missed t)
      <$> store !! r.
Proof.
  unfold EnhancedTracker.mark_unmatched. rewrite list_lookup_fmap.
  destruct (refs_from 0 store !! r) as [x|] eqn:E.
  - apply refs_from_lookup in E as [Ho Hv]. rewrite Hv. simpl.
    rewrite Ho. reflexivity.
  - apply lookup_ge_None in E.
    assert (Hlen : length (refs_from 0 store) = length store).
    { rewrite <- (length_map oid), refs_from_oid, length_seq. reflexivity. }
    rewrite (proj2 (lookup_ge_None store r)) by lia. reflexivity.
Qed.

(** The tracks a call leaves, before the eviction, against the tracks and
    the detections it was given. *)
Lemma update_cases_at fuel self dets s r t' :
  EnhancedTracker.run_stages sqrt scipy fuel self dets = Ret s ->
  let all := map fst (EnhancedTracker.matched_high_conf s
                      ++ EnhancedTracker.matched_unconfirmed s
                      ++ EnhancedTracker.matched_low_conf s) in
  EnhancedTracker.mark_unmatched all
    (EnhancedTracker.tracks (EnhancedTracker.after_stages s)
     ++ new_tracks (EnhancedTracker.creators s) (EnhancedTracker.next_id self))
    !! r = Some t' ->
  (exists d, In d dets /\ high_confidence d = true
     /\ EnhancedTracker.next_id self <= Track.track_id t'
        < EnhancedTracker.next_id self
          + Z.of_nat (length (EnhancedTracker.creators s))
     /\ t' = Track.mark_missed
               (Track.init (Detection.bbox d) (Detection.confidence d)
                           (Detection.class_id d) (Detection.class_name d)
                           (Track.track_id t')))
  \/ (exists t, EnhancedTracker.tracks self !! r = Some t
        /\ t' = Track.mark_missed (fst (Track.predict t)))
  \/ (exists t d, EnhancedTracker.tracks self !! r = Some t /\ In d dets
        /\ Track.track_id t' = Track.track_id t
        /\ Track.hits t < Track.hits t'
        /\ carries t' d).
Proof.
  intros Hrun all Hlk.
  destruct (run_stages_inv _ _ _ _ _ _ Hrun)
    as (selfA & _ & _ & _ & _ & _ & _ & _ & _ & _ & EA & _ & _ & HsB & HsC
        & Hhigh & _).
  destruct (run_stages_after _ _ _ _ _ _ Hrun) as (HsA & Hafter & _).
  destruct (stage_detections_incl _ _ _ _ _ _ Hrun) as (Hm & Hc & Hlt).
  assert (Hold : EnhancedTracker.tracks (EnhancedTracker.after_stages s)
                 = EnhancedTracker.apply_updates sqrt
                     (EnhancedTracker.matched_high_conf s
                      ++ EnhancedTracker.matched_unconfirmed s
                      ++ EnhancedTracker.matched_low_conf s)
                     (map (fun track => fst (Track.predict track))
                          (EnhancedTracker.tracks self))).
  { rewrite Hafter, HsC, HsB, HsA, !apply_updates_app. reflexivity. }
  rewrite mark_unmatched_lookup in Hlk.
  destruct (decide (r < length (EnhancedTracker.tracks self))%nat) as [Hr|Hr].
  - right. destruct (lookup_lt_is_Some_2 _ _ Hr) as [t Ht].
    rewrite lookup_app_l in Hlk
      by (rewrite Hold, apply_updates_length, length_map; exact Hr).
    destruct (apply_updates_at
                (EnhancedTracker.matched_high_conf s
                 ++ EnhancedTracker.matched_unconfirmed s
                 ++ EnhancedTracker.matched_low_conf s)
                (map (fun track => fst (Track.predict track))
                     (EnhancedTracker.tracks self)) r (fst (Track.predict t)))
      as (t1 & Ht1 & Hid & Hcase).
    { rewrite list_lookup_fmap, Ht. reflexivity. }
    rewrite Hold, Ht1 in Hlk. simpl in Hlk.
    destruct Hcase as [[Hnot ->]|(d & Hd & Hcar & Hh)].
    + left. exists t. split; [exact Ht|].
      destruct (mem_track r all) eqn:Em.
      * apply mem_track_In in Em. contradiction.
      * injection Hlk as <-. reflexivity.
    + right. exists t, (val d). split; [exact Ht|].
      split; [apply (Hm r d Hd)|].
      assert (Em : mem_track r all = true).
      { apply mem_track_In. apply (in_map fst) in Hd. exact Hd. }
      rewrite Em in Hlk. injection Hlk as <-.
      split; [rewrite Hid; apply predict_track_id|].
      split; [rewrite hits_predict in Hh; exact Hh|exact Hcar].
  - left. apply Nat.nlt_ge in Hr.
    assert (Hlen : length (EnhancedTracker.tracks
                             (EnhancedTracker.after_stages s))
                   = length (EnhancedTracker.tracks self)).
    { rewrite Hold, apply_updates_length, length_map. reflexivity. }
    rewrite lookup_app_r in Hlk by lia.
    destruct (new_tracks (EnhancedTracker.creators s)
                (EnhancedTracker.next_id self) !! _) as [t0|] eqn:E0;
      [|discriminate].
    simpl in Hlk.
    assert (Em : mem_track r all = false).
    { destruct (mem_track r all) eqn:Em; [|reflexivity].
      apply mem_track_In in Em. apply in_map_iff in Em as ([r' d] & Heq & Hin).
      simpl in Heq. subst r'. apply Hlt in Hin. lia. }
    rewrite Em in Hlk. injection Hlk as <-.
    apply list_elem_of_lookup_2, list_elem_of_In in E0.
    clear -E0 Hc Hhigh EA.
    assert (Hcr : forall d, In d (EnhancedTracker.creators s) ->
                    In (val d) dets /\ high_confidence (val d) = true).
    { intros d Hd. split; [apply Hc; exact Hd|].
      apply filter_In in Hd as [Hd _].
      destruct (associate_incl _ _ _ _ _ _ _ _ EA) as [_ DA].
      specialize (DA d (in_or_app _ _ _ (or_intror Hd))).
      rewrite Hhigh in DA. apply filter_In in DA as [_ DA]. exact DA. }
    pose proof (new_tracks_ids _ _ _ E0) as Hn.
    apply new_tracks_from in E0 as (d & Hd & _ & E0).
    destruct (Hcr d Hd) as [H1 H2].
    exists (val d). split; [exact H1|]. split; [exact H2|].
    split; [exact Hn|]. rewrite E0 at 1. reflexivity.
Qed.

End Cases.

(** ** The ids of the active tracks *)

Lemma StronglySorted_filter_map {A} (f : A -> Z) (p : A -> bool) (l : list A) :
  StronglySorted Z.lt (map f l) ->
  StronglySorted Z.lt (map f (List.filter p l)).
Proof.
  induction l as [|x l IH]; simpl; intros H; [constructor|].
  apply StronglySorted_inv in H as [H Hx].
  destruct (p x); simpl; [|apply IH; exact H].
  constructor; [apply IH; exact H|].
  apply List.Forall_forall. intros y Hy.
  apply in_map_iff in Hy as (z & <- & Hz). apply filter_In in Hz as [Hz _].
  apply (proj1 (List.Forall_forall _ _) Hx). apply in_map. exact Hz.
Qed.

Lemma StronglySorted_lt_app (l1 l2 : list Z) :
  (forall x1 x2, In x1 l1 -> In x2 l2 -> x1 < x2) ->
  StronglySorted Z.lt l1 -> StronglySorted Z.lt l2 ->
  StronglySorted Z.lt (l1 ++ l2).
Proof.
  intros H H1 H2. induction H1 as [|x l H1 IH Hx]; simpl; [exact H2|].
  constructor.
  - apply IH. intros x1 x2 Hx1 Hx2. apply H; [right; exact Hx1|exact Hx2].
  - apply Forall_app. split; [exact Hx|].
    apply List.Forall_forall. intros y Hy. apply H; [left; reflexivity|exact Hy].
Qed.

Lemma new_tracks_sorted ds : forall n,
  StronglySorted Z.lt (map Track.track_id (new_tracks ds n)).
Proof.
  induction ds as [|d ds IH]; intros n; simpl; constructor.
  - apply IH.
  - apply List.Forall_forall. intros y Hy.
    apply in_map_iff in Hy as (t & <- & Ht). apply new_tracks_ids in Ht. lia.
Qed.

Section Ids.
Variable sqrt : Q -> Q.
Variable scipy : option (list (list Q) -> list nat * list nat).

Lemma update_ordered_ids fuel self dets self' :
  ordered_ids self -> 1 <= EnhancedTracker.next_id self ->
  EnhancedTracker.update sqrt scipy fuel self dets = Ret self' ->
  ordered_ids self' /\ 1 <= EnhancedTracker.next_id self'.
Proof.
  intros [Hs Hr] Hn Hup.
  pose proof (update_spec _ _ _ _ _ _ Hup) as (_ & Hn' & _ & Hids).
  split; [|lia]. split.
  - unfold EnhancedTracker.update in Hup.
    destruct (EnhancedTracker.run_stages _ _ _ _ _) as [s| |] eqn:Es;
      simpl in Hup; try discriminate.
    injection Hup as <-. unfold ids. rewrite finish_spec. cbv zeta.
    cbn [EnhancedTracker.tracks].
    apply run_stages_frame in Es as (Hold & Hnext & _).
    apply StronglySorted_filter_map.
    rewrite mark_unmatched_ids, map_app, Hold, Hnext.
    apply StronglySorted_lt_app; [|exact Hs|apply new_tracks_sorted].
    intros x1 x2 H1 H2.
    apply (proj1 (List.Forall_forall _ _) Hr) in H1.
    apply in_map_iff in H2 as (t & <- & Ht). apply new_tracks_ids in Ht. lia.
  - apply List.Forall_forall. intros id Hid.
    apply in_map_iff in Hid as (t & <- & Ht).
    destruct (Hids t Ht) as [Hin|Hnew]; [|lia].
    apply (proj1 (List.Forall_forall _ _) Hr) in Hin. lia.
Qed.

Lemma updates_ordered_ids fuel frames : forall self self',
  ordered_ids self -> 1 <= EnhancedTracker.next_id self ->
  EnhancedTracker.updates sqrt scipy fuel self frames = Ret self' ->
  ordered_ids self'.
Proof.
  induction frames as [|dets frames IH]; intros self self' Ho Hn; simpl.
  - intros [= <-]. exact Ho.
  - destruct (EnhancedTracker.update _ _ _ _ _) as [self1| |] eqn:E; simpl;
      try discriminate.
    destruct (update_ordered_ids _ _ _ _ Ho Hn E) as [Ho1 Hn1].
    apply IH; assumption.
Qed.

Lemma ordered_ids_init max_age min_hits thr :
  ordered_ids (EnhancedTracker.init max_age min_hits thr).
Proof. split; constructor. Qed.

Lemma ordered_ids_NoDup self : ordered_ids self -> NoDup (ids self).
Proof.
  intros [Hs _]. induction Hs as [|x l Hs IH Hx]; constructor; [|exact IH].
  intros Hin. apply list_elem_of_In in Hin.
  apply (proj1 (List.Forall_forall _ _) Hx) in Hin. lia.
Qed.

(** X8.  After any run of calls of [update] from the constructor, on
    either association path, the ids of the active tracks are strictly
    increasing along [self.tracks] (the list [update] returns), so no two
    active tracks share an id, and every id lies between 1 and
    [next_id - 1]. *)
Theorem track_ids_increase fuel max_age min_hits thr frames self' :
  EnhancedTracker.updates sqrt scipy fuel
    (EnhancedTracker.init max_age min_hits thr) frames = Ret self' ->
  StronglySorted Z.lt (ids self')
  /\ NoDup (ids self')
  /\ Forall (fun id => 1 <= id < EnhancedTracker.next_id self') (ids self').
Proof.
  intros H.
  pose proof (updates_ordered_ids fuel frames _ _
                (ordered_ids_init max_age min_hits thr) (Z.le_refl 1) H) as Ho.
  split; [exact (proj1 Ho)|]. split; [apply ordered_ids_NoDup; exact Ho|].
  exact (proj2 Ho).
Qed.

(** X9.  Every track a call of [update] returns has
    [time_since_update < max_age] and is of one of three kinds:
    - a track the call created, [Track(d.bbox, d.confidence, d.class_id,
      d.class_name, id)] for a detection [d] of the call of confidence 0.5
      or more and a fresh id, with [mark_missed] already applied to it (so
      it is returned with [age = 1], [time_since_update = 1] and its
      quality multiplied by 0.95);
    - a track it was given and did not match, after [predict] and
      [mark_missed];
    - a track it was given and matched: the same id, more hits, and the box
      and the confidence of a detection of the call, with
      [time_since_update = 0]. *)
Theorem update_track_cases fuel self dets self' :
  EnhancedTracker.update sqrt scipy fuel self dets = Ret self' ->
  Forall
    (fun t' =>
       Track.time_since_update t' < EnhancedTracker.max_age self
       /\ ((exists d, In d dets /\ high_confidence d = true
              /\ EnhancedTracker.next_id self <= Track.track_id t'
                 < EnhancedTracker.next_id self'
              /\ t' = Track.mark_missed
                        (Track.init (Detection.bbox d) (Detection.confidence d)
                                    (Detection.class_id d)
                                    (Detection.class_name d)
                                    (Track.track_id t')))
           \/ (exists t, In t (EnhancedTracker.tracks self)
                 /\ t' = Track.mark_missed (fst (Track.predict t)))
           \/ (exists t d, In t (EnhancedTracker.tracks self) /\ In d dets
                 /\ Track.track_id t' = Track.track_id t
                 /\ Track.hits t < Track.hits t'
                 /\ carries t' d)))
    (EnhancedTracker.tracks self').
Proof.
  intros Hup. apply List.Forall_forall. intros t' Ht'.
  pose proof (update_spec _ _ _ _ _ _ Hup) as (_ & _ & Hage & _).
  split; [apply Hage; exact Ht'|].
  unfold EnhancedTracker.update in Hup.
  destruct (EnhancedTracker.run_stages _ _ _ _ _) as [s| |] eqn:Es;
    simpl in Hup; try discriminate.
  injection Hup as <-. rewrite finish_spec in Ht'. cbv zeta in Ht'.
  cbn [EnhancedTracker.tracks] in Ht'.
  apply filter_In in Ht' as [Ht' _].
  apply list_elem_of_In, list_elem_of_lookup in Ht' as [r Hr].
  pose proof (run_stages_frame _ _ _ _ _ _ Es) as (_ & Hnext & _).
  rewrite Hnext in Hr.
  destruct (update_cases_at _ _ _ _ _ _ _ _ Es Hr)
    as [(d & Hd & Hh & Hn & Heq)|[(t & Ht & Heq)|(t & d & Ht & Hd & Hrest)]].
  - left. exists d. split; [exact Hd|]. split; [exact Hh|].
    split; [|exact Heq]. rewrite finish_spec. cbv zeta.
    cbn [EnhancedTracker.next_id]. rewrite Hnext. exact Hn.
  - right. left. exists t. split; [|exact Heq].
    apply list_elem_of_In, list_elem_of_lookup. exists r. exact Ht.
  - right. right. exists t, d. split; [|split; [exact Hd|exact Hrest]].
    apply list_elem_of_In, list_elem_of_lookup. exists r. exact Ht.
Qed.
End Ids.

(** X8 at the tracker after three frames that show [dA]. *)
Lemma track_ids_increase_witness :
  StronglySorted Z.lt (ids Examples.tracker_confirmed)
  /\ NoDup (ids Examples.tracker_confirmed)
  /\ Forall (fun id => 1 <= id < EnhancedTracker.next_id Examples.tracker_confirmed)
            (ids Examples.tracker_confirmed).
Proof.
  apply (track_ids_increase Env.sqrt None 2 30 3 (3 # 10)
           (repeat [Examples.dA] 3)).
  vm_compute. reflexivity.
Defined.

(** X9 at the tracker that holds [tA], on a frame that shows [dA] and
    [dB]: the track is matched to the one and a track is created from the
    other. *)
Lemma update_track_cases_witness :
  exists self',
    EnhancedTracker.update Env.sqrt Examples.scipy 0 Examples.trackerA
      [Examples.dA; Examples.dB] = Ret self'
    /\ Forall
         (fun t' =>
            Track.time_since_update t'
            < EnhancedTracker.max_age Examples.trackerA
            /\ ((exists d, In d [Examples.dA; Examples.dB]
                   /\ high_confidence d = true
                   /\ EnhancedTracker.next_id Examples.trackerA
                      <= Track.track_id t' < EnhancedTracker.next_id self'
                   /\ t' = Track.mark_missed
                             (Track.init (Detection.bbox d)
                                         (Detection.confidence d)
                                         (Detection.class_id d)
                                         (Detection.class_name d)
                                         (Track.track_id t')))
                \/ (exists t, In t (EnhancedTracker.tracks Examples.trackerA)
                      /\ t' = Track.mark_missed (fst (Track.predict t)))
                \/ (exists t d,
                      In t (EnhancedTracker.tracks Examples.trackerA)
                      /\ In d [Examples.dA; Examples.dB]
                      /\ Track.track_id t' = Track.track_id t
                      /\ Track.hits t < Track.hits t'
                      /\ carries t' d)))
         (EnhancedTracker.tracks self').
Proof.
  eexists. split; [vm_compute; reflexivity|].
  apply (update_track_cases Env.sqrt Examples.scipy 0 Examples.trackerA
           [Examples.dA; Examples.dB]).
  vm_compute. reflexivity.
Defined.

(** ** The detections a frame passes on *)

Lemma insert_desc_sorted {A} (key : A -> Q) (x : A) (l : list A) :
  StronglySorted (fun a b => (key b <= key a)%Q) l ->
  StronglySorted (fun a b => (key b <= key a)%Q) (Py.insert_desc key x l).
Proof.
  induction l as [|y l IH]; intros H; simpl.
  - constructor; constructor.
  - apply StronglySorted_inv in H as [H Hy].
    destruct (Qle_bool (key y) (key x)) eqn:E.
    + apply Qle_bool_iff in E. constructor; [constructor; assumption|].
      constructor; [exact E|].
      apply List.Forall_forall. intros z Hz.
      apply (proj1 (List.Forall_forall _ _) Hy) in Hz. simpl in Hz.
      eapply Qle_trans; eassumption.
    + assert (Hlt : (key x < key y)%Q).
      { apply Qnot_le_lt. intros Hle. apply Qle_bool_iff in Hle. congruence. }
      constructor; [apply IH; exact H|].
      apply List.Forall_forall. intros z Hz.
      apply (Permutation_in _ (insert_desc_perm key x l)) in Hz.
      destruct Hz as [<-|Hz]; [apply Qlt_le_weak; exact Hlt|].
      apply (proj1 (List.Forall_forall _ _) Hy). exact Hz.
Qed.

Lemma sorted_desc_sorted {A} (key : A -> Q) (l : list A) :
  StronglySorted (fun a b => (key b <= key a)%Q) (Py.sorted_desc key l).
Proof.
  induction l as [|x l IH]; simpl; [constructor|].
  apply insert_desc_sorted. exact IH.
Qed.

Lemma StronglySorted_app_inv {A} (R : A -> A -> Prop) (l1 l2 : list A) :
  StronglySorted R (l1 ++ l2) ->
  StronglySorted R l1 /\ forall x y, In x l1 -> In y l2 -> R x y.
Proof.
  induction l1 as [|a l1 IH]; simpl; intros H.
  - split; [constructor|intros x y []].
  - apply StronglySorted_inv in H as [H Ha]. destruct (IH H) as [H1 H2].
    split.
    + constructor; [exact H1|]. apply Forall_app in Ha as [Ha _]. exact Ha.
    + intros x y [<-|Hx] Hy; [|apply H2; assumption].
      apply (proj1 (List.Forall_forall _ _) Ha). apply in_or_app. right.
      exact Hy.
Qed.

(** X10.  With a cap that is not negative, [filter_detections] returns
    [min(len(detections), max_tracks_per_frame)] detections in descending
    order of confidence; they and the detections it leaves out make up the
    input, and none that is left out is more confident than one that is
    kept. *)
Theorem filter_detections_keeps_the_best (self : TrackingService.t)
    (dets : list Detection.t) :
  0 <= TrackingService.max_tracks_per_frame self ->
  let kept := TrackingService.filter_detections self dets in
  length kept
  = Nat.min (length dets) (Z.to_nat (TrackingService.max_tracks_per_frame self))
  /\ StronglySorted at_least kept
  /\ exists dropped,
       Permutation (kept ++ dropped) dets
       /\ forall k d, In k kept -> In d dropped -> at_least k d.
Proof.
  intros HK kept. subst kept. unfold TrackingService.filter_detections.
  set (sorted := Py.sorted_desc Detection.confidence dets).
  pose proof (sorted_desc_perm Detection.confidence dets) as Hp.
  fold sorted in Hp.
  pose proof (sorted_desc_sorted Detection.confidence dets) as Hs.
  fold sorted in Hs.
  pose proof (Permutation_length Hp) as Hl.
  unfold Py.slice_to.
  destruct (0 <=? _) eqn:E; [|apply Z.leb_gt in E; lia].
  set (n := Z.to_nat (Z.min (Z.of_nat (length sorted))
                            (TrackingService.max_tracks_per_frame self))).
  rewrite <- (firstn_skipn n sorted) in Hs, Hp.
  apply StronglySorted_app_inv in Hs as [Hs1 Hs2].
  split; [rewrite length_firstn; unfold n; lia|].
  split; [exact Hs1|].
  exists (skipn n sorted). split; [exact Hp|exact Hs2].
Qed.

(** X10 at the service that keeps one detection per frame: of three
    detections the one of confidence 1.5 is kept. *)
Lemma filter_detections_keeps_the_best_witness :
  let dets := [Examples.dA; Examples.d_over; Examples.dB] in
  let kept := TrackingService.filter_detections Examples.service1 dets in
  length kept
  = Nat.min (length dets)
            (Z.to_nat (TrackingService.max_tracks_per_frame Examples.service1))
  /\ StronglySorted at_least kept
  /\ exists dropped,
       Permutation (kept ++ dropped) dets
       /\ forall k d, In k kept -> In d dropped -> at_least k d.
Proof.
  apply (filter_detections_keeps_the_best Examples.service1
           [Examples.dA; Examples.d_over; Examples.dB]).
  vm_compute. discriminate.
Defined.

(** ** The frames of a video *)

Lemma slice_to_sublist {A} (k : Z) (l : list A) : Py.slice_to k l `sublist_of` l.
Proof. unfold Py.slice_to. destruct (0 <=? k); apply sublist_take. Qed.

Lemma slice_to_In {A} (k : Z) (l : list A) (x : A) :
  In x (Py.slice_to k l) -> In x l.
Proof.
  intros H. apply list_elem_of_In. apply list_elem_of_In in H.
  eapply elem_of_sublist; [exact H|apply slice_to_sublist].
Qed.

Lemma filter_detections_In self dets d :
  In d (TrackingService.filter_detections self dets) -> In d dets.
Proof.
  unfold TrackingService.filter_detections. intros H.
  apply slice_to_In in H.
  apply (Permutation_in _ (sorted_desc_perm Detection.confidence dets)).
  exact H.
Qed.

Lemma filter_refs_none {A} (p : A -> bool) (l : list A) : forall k,
  Forall (fun x => p x = false) l ->
  List.filter (fun r => p (val r)) (refs_from k l) = [].
Proof.
  induction l as [|x l IH]; intros k H; simpl; [reflexivity|].
  apply Forall_cons in H as [Hx H]. rewrite Hx. apply IH. exact H.
Qed.

Section Service.
Variable sqrt : Q -> Q.
Variable scipy : option (list (list Q) -> list nat * list nat).
Variable Frame : Type.
Variable yolo_model : option (Frame -> list Detection.t).

Lemma detected_above_threshold self frame d :
  In d (TrackingService.filter_detections self
          (TrackingService.detect_objects_in_frame Frame yolo_model self frame)) ->
  (TrackingService.confidence_threshold self <= Detection.confidence d)%Q.
Proof.
  intros H. apply filter_detections_In in H.
  unfold TrackingService.detect_objects_in_frame in H.
  destruct yolo_model as [model|]; [|destruct H].
  apply filter_In in H as [_ H]. apply negb_true_iff, ltb_ge in H. exact H.
Qed.

(** X11.  [detect_objects_in_frame] drops the boxes below
    [confidence_threshold], and the tracker calls a detection low when its
    confidence is below 0.5.  So with a threshold of 0.5 or more (0.5 is
    the default) the tracker is never given a low-confidence detection:
    in every call the list for the second association is empty and that
    association matches nothing. *)
Theorem threshold_starves_second_association fuel self tracker frame s :
  (1 # 2 <= TrackingService.confidence_threshold self)%Q ->
  EnhancedTracker.run_stages sqrt scipy fuel tracker
    (TrackingService.filter_detections self
       (TrackingService.detect_objects_in_frame Frame yolo_model self frame))
  = Ret s ->
  EnhancedTracker.low_conf_detections s = []
  /\ EnhancedTracker.matched_low_conf s = [].
Proof.
  intros Hthr Hrun.
  destruct (run_stages_inv _ _ _ _ _ _ Hrun)
    as (selfA & selfB & selfC & uB & tB & uC & tC & _ & _ & _
        & _ & _ & EC & _ & _ & _ & Hlow & _).
  assert (Hnone : EnhancedTracker.low_conf_detections s = []).
  { rewrite Hlow.
    apply (filter_refs_none (fun d => negb (high_confidence d))).
    apply List.Forall_forall. intros d Hd.
    apply detected_above_threshold in Hd.
    apply negb_false_iff. unfold high_confidence. apply geb_le.
    eapply Qle_trans; eassumption. }
  split; [exact Hnone|].
  rewrite Hnone in EC. unfold EnhancedTracker.associate_detections_to_tracks in EC.
  destruct (length _ =? 0)%nat; simpl in EC; injection EC as <- _ _; reflexivity.
Qed.

(** The frames [detect_and_track] samples. *)
Lemma frames_loop_numbers fuel frames : forall self i acc self' frs,
  TrackingService.frame_skip self <> 0 ->
  TrackingService.frames_loop sqrt scipy Frame yolo_model fuel self
    (Z.of_nat i) frames acc = Ret (self', frs) ->
  exists new,
    frs = acc ++ new
    /\ map TrackingService.frame_number new
       = List.filter (fun n => n mod TrackingService.frame_skip self =? 0)
                     (map Z.of_nat (seq i (length frames)))
    /\ Forall (fun fr => TrackingService.timestamp fr
                         = TrackingService.frame_number fr * 500) new.
Proof.
  induction frames as [|frame frames IH]; intros self i acc self' frs Hk;
    cbn [TrackingService.frames_loop].
  - intros [= <- <-]. exists []. rewrite app_nil_r. repeat split. constructor.
  - destruct (TrackingService.frame_skip self =? 0) eqn:E0;
      [apply Z.eqb_eq in E0; contradiction|].
    replace (Z.of_nat i + 1) with (Z.of_nat (S i)) by lia.
    cbn [length seq map List.filter].
    destruct (Z.of_nat i mod TrackingService.frame_skip self =? 0); cbn [negb].
    + unfold TrackingService.process_frame.
      destruct (EnhancedTracker.update _ _ _ _ _) as [tracker'| |]; simpl;
        try discriminate.
      intros H. apply IH in H as (new & -> & Hn & Ht); [|exact Hk].
      eexists (_ :: new). rewrite <- app_assoc. split; [reflexivity|].
      split; [simpl; f_equal; exact Hn|].
      constructor; [reflexivity|exact Ht].
    + intros H. apply IH in H as (new & -> & Hn & Ht); [|exact Hk].
      exists new. repeat split; assumption.
Qed.

(** X12.  When the loop of [detect_and_track] over the frames returns, it
    has produced one frame result for every frame whose index is a multiple
    of [frame_skip], in order, each with [frame_number] the index and
    [timestamp = 500 * frame_number]. *)
Theorem sampled_frame_numbers fuel self frames self' frame_results :
  TrackingService.frame_skip self <> 0 ->
  TrackingService.frames_loop sqrt scipy Frame yolo_model fuel self 0 frames []
  = Ret (self', frame_results) ->
  map TrackingService.frame_number frame_results
  = List.filter (fun n => n mod TrackingService.frame_skip self =? 0)
                (map Z.of_nat (seq 0 (length frames)))
  /\ Forall (fun fr => TrackingService.timestamp fr
                       = TrackingService.frame_number fr * 500) frame_results.
Proof.
  intros Hk H. apply (frames_loop_numbers fuel frames self 0%nat) in H
    as (new & -> & Hn & Ht); [|exact Hk].
  split; assumption.
Qed.

(** A property of the service that every processed frame keeps holds after
    the loop, and so does what it implies for the frame results. *)
Lemma frames_loop_inv (J : TrackingService.t -> Prop)
    (G : TrackingService.frame_result -> Prop) fuel :
  (forall self dets tracker' idx, J self ->
     EnhancedTracker.update sqrt scipy fuel (TrackingService.tracker self) dets
     = Ret tracker' ->
     J (TrackingService.set_tracker self tracker')
     /\ G {| TrackingService.frame_number := idx;
             TrackingService.timestamp := idx * 500;
             TrackingService.fr_tracks :=
               TrackingService.emit self (EnhancedTracker.tracks tracker') |}) ->
  forall frames self idx acc self' frs,
    J self -> Forall G acc ->
    TrackingService.frames_loop sqrt scipy Frame yolo_model fuel self idx
      frames acc = Ret (self', frs) ->
    J self' /\ Forall G frs.
Proof.
  intros Hstep. induction frames as [|frame frames IH];
    intros self idx acc self' frs HJ HG; cbn [TrackingService.frames_loop].
  - intros [= <- <-]. split; assumption.
  - destruct (_ =? 0); [discriminate|].
    destruct (negb _); [apply IH; assumption|].
    unfold TrackingService.process_frame.
    destruct (EnhancedTracker.update _ _ _ _ _) as [tracker'| |] eqn:E; simpl;
      try discriminate.
    destruct (Hstep _ _ _ idx HJ E) as [HJ' HG'].
    apply IH; [exact HJ'|]. apply Forall_app. split; [exact HG|].
    constructor; [exact HG'|constructor].
Qed.
End Service.

(** X11 at the default service, for a tracker that holds [tA] and a frame
    that shows [dA]. *)
Lemma threshold_starves_second_association_witness :
  exists s,
    EnhancedTracker.run_stages Env.sqrt Examples.scipy 0 Examples.trackerA
      (TrackingService.filter_detections Examples.service
         (TrackingService.detect_objects_in_frame Examples.Frame Examples.yolo
            Examples.service [Examples.dA]))
    = Ret s
    /\ EnhancedTracker.low_conf_detections s = []
    /\ EnhancedTracker.matched_low_conf s = [].
Proof.
  eexists. split; [vm_compute; reflexivity|].
  apply (threshold_starves_second_association Env.sqrt Examples.scipy
           Examples.Frame Examples.yolo 0 Examples.service Examples.trackerA
           [Examples.dA]).
  - vm_compute. discriminate.
  - vm_compute. reflexivity.
Defined.

(** X12 at the default service on the seven frames of [Examples.video]:
    frames 0, 2, 4 and 6 are sampled. *)
Lemma sampled_frame_numbers_witness :
  exists self' frame_results,
    TrackingService.frames_loop Env.sqrt Examples.scipy Examples.Frame
      Examples.yolo 0 Examples.service 0 Examples.video []
    = Ret (self', frame_results)
    /\ map TrackingService.frame_number frame_results
       = List.filter
           (fun n => n mod TrackingService.frame_skip Examples.service =? 0)
           (map Z.of_nat (seq 0 (length Examples.video)))
    /\ Forall (fun fr => TrackingService.timestamp fr
                         = TrackingService.frame_number fr * 500)
              frame_results.
Proof.
  eexists. eexists. split; [vm_compute; reflexivity|].
  eapply (sampled_frame_numbers Env.sqrt Examples.scipy Examples.Frame
            Examples.yolo 0 Examples.service Examples.video).
  - vm_compute. discriminate.
  - vm_compute. reflexivity.
Defined.

(** ** What a frame result lists *)

Lemma emit_spec self tracked_objects :
  exists capped,
    capped `sublist_of` tracked_objects
    /\ TrackingService.emit self tracked_objects
       = map TrackingService.snapshot (List.filter (stable self) capped).
Proof.
  unfold TrackingService.emit.
  rewrite (fold_left_append_if (stable self) TrackingService.snapshot).
  destruct (_ <? _); eexists; (split; [|reflexivity]);
    [apply slice_to_sublist|reflexivity].
Qed.

Section Reports.
Variable sqrt : Q -> Q.
Variable scipy : option (list (list Q) -> list nat * list nat).
Variable Frame : Type.
Variable yolo_model : option (Frame -> list Detection.t).

Lemma sound_init max_age min_hits thr :
  sound (EnhancedTracker.init max_age min_hits thr).
Proof.
  constructor.
  - apply ordered_ids_init.
  - simpl. lia.
  - constructor.
  - constructor.
Qed.

Lemma sound_update fuel tracker dets tracker' :
  sound tracker ->
  EnhancedTracker.update sqrt scipy fuel tracker dets = Ret tracker' ->
  sound tracker'.
Proof.
  intros [Hi Hn Hc Hs] Hup.
  destruct (update_ordered_ids _ _ _ _ _ _ Hi Hn Hup) as [Hi' Hn'].
  assert (HD : Forall (fun _ : Detection.t => True) dets).
  { apply List.Forall_forall. trivial. }
  constructor; [exact Hi'|exact Hn'| |].
  - apply (update_preserves sqrt scipy consistent (fun _ => True)
             consistent_predict
             (fun t d Ht _ => consistent_update sqrt t _ _ Ht)
             consistent_mark_missed
             (fun d id _ => consistent_init _ _ _ _ id)
             fuel tracker dets tracker' Hc HD Hup).
  - apply (update_preserves sqrt scipy (fun t => Track.state t <> deleted)
             (fun _ => True)
             state_not_deleted_predict
             (fun t d Ht _ => state_not_deleted_update sqrt t _ _ Ht)
             (fun t Ht => Ht)
             (fun d id _ => ltac:(discriminate))
             fuel tracker dets tracker' Hs HD Hup).
Qed.

Lemma sound_emit self tracker idx :
  sound tracker ->
  well_reported self
    {| TrackingService.frame_number := idx;
       TrackingService.timestamp := idx * 500;
       TrackingService.fr_tracks :=
         TrackingService.emit self (EnhancedTracker.tracks tracker) |}.
Proof.
  intros [Hi Hn Hc Hs]. unfold well_reported.
  cbn [TrackingService.fr_tracks].
  destruct (emit_spec self (EnhancedTracker.tracks tracker))
    as (capped & Hsub & ->).
  assert (Hsub' : List.filter (stable self) capped
                  `sublist_of` EnhancedTracker.tracks tracker).
  { etransitivity; [apply list_filter_sublist|exact Hsub]. }
  split.
  - rewrite map_map. cbn [TrackingService.snapshot TrackingService.td_track_id].
    eapply sublist_NoDup; [apply ordered_ids_NoDup; exact Hi|].
    apply (fmap_sublist Track.track_id) in Hsub'. exact Hsub'.
  - apply List.Forall_forall. intros td Htd.
    apply in_map_iff in Htd as (t & <- & Ht).
    pose proof Ht as Hst. apply filter_In in Hst as [_ Hst].
    assert (Hin : In t (EnhancedTracker.tracks tracker)).
    { apply list_elem_of_In. eapply elem_of_sublist; [|exact Hsub'].
      apply list_elem_of_In. exact Ht. }
    destruct (proj1 (List.Forall_forall _ _) Hc t Hin).
    constructor; cbn [TrackingService.snapshot TrackingService.td_track_id
                      TrackingService.td_hits TrackingService.td_age
                      TrackingService.td_state].
    + destruct Hi as [_ Hr].
      apply (proj1 (List.Forall_forall _ _) Hr (Track.track_id t)
               (in_map _ _ _ Hin)).
    + apply Z.leb_le. exact Hst.
    + lia.
    + apply (proj1 (List.Forall_forall _ _) Hs t Hin).
Qed.

Lemma well_reported_ext self self' fr :
  TrackingService.min_track_duration self'
  = TrackingService.min_track_duration self ->
  well_reported self' fr -> well_reported self fr.
Proof.
  intros Heq [Hn Hr]. split; [exact Hn|].
  apply List.Forall_forall. intros td Htd.
  destruct (proj1 (List.Forall_forall _ _) Hr td Htd).
  constructor; try assumption. rewrite <- Heq. assumption.
Qed.

Lemma frames_loop_sound fuel frames self idx acc self' frs :
  sound (TrackingService.tracker self) -> Forall (well_reported self) acc ->
  TrackingService.frames_loop sqrt scipy Frame yolo_model fuel self idx
    frames acc = Ret (self', frs) ->
  Forall (well_reported self) frs.
Proof.
  intros Hs Hacc Hloop.
  apply (frames_loop_inv sqrt scipy Frame yolo_model
           (fun s => sound (TrackingService.tracker s)
                     /\ TrackingService.min_track_duration s
                        = TrackingService.min_track_duration self)
           (well_reported self) fuel) in Hloop.
  - apply Hloop.
  - intros s dets tracker' i [Hss Heq] Hup.
    pose proof (sound_update _ _ _ _ Hss Hup) as Hs'.
    split; [split; [exact Hs'|exact Heq]|].
    apply (well_reported_ext self s); [exact Heq|].
    apply sound_emit. exact Hs'.
  - split; [exact Hs|reflexivity].
  - exact Hacc.
Qed.

Lemma dummy_well_reported self (frames : list Frame) :
  TrackingService.min_track_duration self <= 3 ->
  Forall (well_reported self)
    (TrackingService.frame_results
       (TrackingService.get_dummy_tracking_results frames)).
Proof.
  intros Hm. unfold TrackingService.get_dummy_tracking_results.
  cbn [TrackingService.frame_results].
  apply List.Forall_forall. intros fr Hfr.
  apply in_map_iff in Hfr as (r & <- & _). split; simpl.
  - repeat constructor. intros H. inversion H.
  - constructor; [|constructor].
    constructor; simpl; [lia|exact Hm|lia|discriminate].
Qed.

Lemma detect_and_track_sound fuel self frames r :
  sound (TrackingService.tracker self) ->
  TrackingService.min_track_duration self <= 3 ->
  TrackingService.detect_and_track sqrt scipy Frame yolo_model fuel self frames
  = Ret r ->
  Forall (well_reported self) (TrackingService.frame_results r).
Proof.
  intros Hs Hm. unfold TrackingService.detect_and_track.
  destruct yolo_model as [model|] eqn:Ey.
  - destruct (TrackingService.frames_loop _ _ _ _ _ _ _ _ _)
      as [[self' frs]| |] eqn:E; try discriminate.
    + intros [= <-]. cbn [TrackingService.frame_results].
      rewrite <- Ey in E.
      eapply frames_loop_sound; [exact Hs|constructor|exact E].
    + intros [= <-]. apply dummy_well_reported. exact Hm.
  - intros [= <-]. apply dummy_well_reported. exact Hm.
Qed.
(** X13.  Whatever a service fresh from the constructor returns from
    [detect_and_track], tracked or dummy results: no frame result lists the
    same track id twice, and every entry has an id of 1 or more,
    [hits >= min_track_duration], [hits <= age + 1] and a state that is
    not ['deleted']. *)
Theorem frame_results_well_reported fuel confidence_threshold iou_threshold
    max_objects_per_frame (frames : list Frame) r :
  let self := TrackingService.init confidence_threshold iou_threshold
                max_objects_per_frame in
  TrackingService.detect_and_track sqrt scipy Frame yolo_model fuel self frames
  = Ret r ->
  Forall (well_reported self) (TrackingService.frame_results r).
Proof.
  intros self. apply detect_and_track_sound.
  - apply sound_init.
  - simpl. lia.
Qed.
End Reports.

(** X13 at the default service on [Examples.video]. *)
Lemma frame_results_well_reported_witness :
  exists r,
    TrackingService.detect_and_track Env.sqrt Examples.scipy Examples.Frame
      Examples.yolo 0 Examples.service Examples.video = Ret r
    /\ Forall (well_reported Examples.service)
              (TrackingService.frame_results r).
Proof.
  eexists. split; [vm_compute; reflexivity|].
  apply (frame_results_well_reported Env.sqrt Examples.scipy Examples.Frame
           Examples.yolo 0 (1 # 2) (45 # 100) 10 Examples.video).
  vm_compute. reflexivity.
Defined.


(** ** The statistics *)

Lemma fold_max_ge l : forall a,
  a <= fold_left Z.max l a /\ forall x, In x l -> x <= fold_left Z.max l a.
Proof.
  induction l as [|y l IH]; intros a; simpl; [split; [lia|tauto]|].
  destruct (IH (Z.max a y)) as [H1 H2]. split; [lia|].
  intros x [<-|Hx]; [lia|apply H2; exact Hx].
Qed.

(** No more distinct ids than the largest of them, when all are positive. *)
Lemma distinct_le_largest (l : list Z) :
  Forall (fun id => 1 <= id) l ->
  Z.of_nat (size (list_to_set l : gset Z)) <= fold_left Z.max l 0.
Proof.
  intros Hpos. destruct (fold_max_ge l 0) as [H0 Hmax].
  set (M := fold_left Z.max l 0) in *.
  set (range := map Z.of_nat (seq 1 (Z.to_nat M))).
  assert (Hsub : (list_to_set l : gset Z) ⊆ list_to_set range).
  { intros x Hx. apply elem_of_list_to_set in Hx. apply elem_of_list_to_set.
    apply list_elem_of_In in Hx. apply list_elem_of_In.
    pose proof (proj1 (List.Forall_forall _ _) Hpos x Hx) as H1.
    pose proof (Hmax x Hx) as H2. cbv beta in H1.
    apply in_map_iff. exists (Z.to_nat x). split; [lia|].
    apply in_seq. lia. }
  apply subseteq_size in Hsub.
  rewrite (size_list_to_set range) in Hsub.
  - unfold range in Hsub. rewrite length_map, length_seq in Hsub. lia.
  - unfold range. apply (NoDup_fmap_2 Z.of_nat). apply NoDup_seq.
Qed.

Lemma emitted_ids_positive self frs :
  Forall (well_reported self) frs -> Forall (fun id => 1 <= id) (emitted_ids frs).
Proof.
  intros H. apply List.Forall_forall. intros id Hid.
  unfold emitted_ids, emitted in Hid.
  apply in_map_iff in Hid as (td & <- & Htd).
  apply in_concat in Htd as (tds & Htds & Htd).
  apply in_map_iff in Htds as (fr & <- & Hfr).
  destruct (proj1 (List.Forall_forall _ _) H fr Hfr) as [_ Hr].
  destruct (proj1 (List.Forall_forall _ _) Hr td Htd). assumption.
Qed.

(** X14.  [calculate_tracking_stats] accounts for every emitted entry:
    [total_detections] is the number of entries of all frames,
    [track_durations] has a key for exactly the ids that were emitted and
    maps each to the number of entries that carry it, the durations add up
    to [total_detections], and [avg_track_duration] is [total_detections]
    over the number of distinct ids, 0 when nothing was emitted. *)
Theorem stats_account_for_every_entry
    (frame_results : list TrackingService.frame_result) :
  let s := TrackingService.calculate_tracking_stats frame_results in
  TrackingService.st_total_detections s
  = Z.of_nat (length (emitted frame_results))
  /\ (forall id,
        default 0 (TrackingService.st_track_durations s !! id)
        = Z.of_nat (count_occ Z.eq_dec (emitted_ids frame_results) id))
  /\ (forall id, is_Some (TrackingService.st_track_durations s !! id)
                 <-> In id (emitted_ids frame_results))
  /\ TrackingService.sum_values (TrackingService.st_track_durations s)
     = TrackingService.st_total_detections s
  /\ TrackingService.st_avg_track_duration s
     = (if (distinct_ids frame_results =? 0)%nat then 0%Q
        else (inject_Z (TrackingService.st_total_detections s)
              / inject_Z (Z.of_nat (distinct_ids frame_results)))%Q).
Proof.
  destruct (calculate_tracking_stats_spec frame_results)
    as (Htot & Hdur & Hsize & Havg & _).
  cbv zeta in *. split; [exact Htot|]. split; [|split; [|split]].
  - intros id. rewrite Hdur.
    destruct (Z.of_nat _ =? 0) eqn:E; simpl; [apply Z.eqb_eq in E; lia|].
    reflexivity.
  - intros id. rewrite Hdur. rewrite (count_occ_In Z.eq_dec).
    destruct (Z.of_nat _ =? 0) eqn:E.
    + apply Z.eqb_eq in E. split; [intros [x Hx]; discriminate|lia].
    + apply Z.eqb_neq in E. split; [intros _; lia|intros _; eauto].
  - rewrite Htot. unfold TrackingService.calculate_tracking_stats.
    rewrite fold_count_frame. cbn [TrackingService.st_track_durations].
    rewrite sum_values_fold. unfold emitted_ids. rewrite length_map.
    unfold TrackingService.sum_values. rewrite map_fold_empty. lia.
  - rewrite Havg, Htot. reflexivity.
Qed.

Section Totals.
Variable sqrt : Q -> Q.
Variable scipy : option (list (list Q) -> list nat * list nat).
Variable Frame : Type.
Variable yolo_model : option (Frame -> list Detection.t).

(** X15.  In what a service fresh from the constructor returns from
    [detect_and_track], the result's [total_tracks] (the number of distinct
    ids emitted) is never more than [tracking_stats.total_tracks] (the
    largest id emitted): the ids are positive. *)
Theorem total_tracks_within_stats fuel confidence_threshold iou_threshold
    max_objects_per_frame (frames : list Frame) r :
  TrackingService.detect_and_track sqrt scipy Frame yolo_model fuel
    (TrackingService.init confidence_threshold iou_threshold
       max_objects_per_frame) frames = Ret r ->
  TrackingService.total_tracks r
  <= TrackingService.st_total_tracks (TrackingService.stats r).
Proof.
  set (self := TrackingService.init _ _ _).
  unfold TrackingService.detect_and_track.
  destruct yolo_model as [model|] eqn:Ey; [|intros [= <-]; simpl; lia].
  destruct (TrackingService.frames_loop _ _ _ _ _ _ _ _ _)
    as [[self' frs]| |] eqn:E; try discriminate;
    [|intros [= <-]; simpl; lia].
  intros [= <-].
  cbn [TrackingService.total_tracks TrackingService.frame_results
       TrackingService.stats].
  destruct (calculate_tracking_stats_spec frs) as (_ & _ & _ & _ & Hmax).
  cbv zeta in Hmax. rewrite Hmax.
  apply distinct_le_largest.
  apply (emitted_ids_positive self).
  rewrite <- Ey in E.
  eapply frames_loop_sound; [|constructor|exact E].
  apply sound_init.
Qed.
End Totals.

(** X15 at the default service on [Examples.video]. *)
Lemma total_tracks_within_stats_witness :
  exists r,
    TrackingService.detect_and_track Env.sqrt Examples.scipy Examples.Frame
      Examples.yolo 0 Examples.service Examples.video = Ret r
    /\ TrackingService.total_tracks r
       <= TrackingService.st_total_tracks (TrackingService.stats r).
Proof.
  eexists. split; [vm_compute; reflexivity|].
  apply (total_tracks_within_stats Env.sqrt Examples.scipy Examples.Frame
           Examples.yolo 0 (1 # 2) (45 # 100) 10 Examples.video).
  vm_compute. reflexivity.
Defined.

(** ** The associator under the solver's contract *)

Lemma map_fst_combine {A B} (l : list A) : forall l' : list B,
  length l = length l' -> map fst (combine l l') = l.
Proof.
  induction l as [|x l IH]; intros [|y l'] H; simpl in *; try discriminate;
    [reflexivity|]. rewrite IH; [reflexivity|lia].
Qed.

Lemma map_snd_combine {A B} (l : list A) : forall l' : list B,
  length l = length l' -> map snd (combine l l') = l'.
Proof.
  induction l as [|x l IH]; intros [|y l'] H; simpl in *; try discriminate;
    [reflexivity|]. rewrite IH; [reflexivity|lia].
Qed.

(** The items picked at distinct positions and the items at the other
    positions make up the list. *)
Lemma picked_and_rest_perm {A} (l : list A) (positions : list nat)
    (picked : list A) :
  NoDup l -> NoDup positions ->
  Forall2 (fun i x => l !! i = Some x) positions picked ->
  Permutation (picked ++ EnhancedTracker.not_indexed positions l) l.
Proof.
  intros Hl Hp HF. apply NoDup_Permutation.
  - apply (picked_and_rest_NoDup l positions positions picked Hl Hp); auto.
  - exact Hl.
  - intros x. rewrite elem_of_app. split.
    + intros [Hx|Hx]; apply list_elem_of_In in Hx.
      * destruct (picked_in _ _ _ _ HF Hx) as (i & _ & Hi).
        apply list_elem_of_lookup. exists i. exact Hi.
      * apply not_indexed_spec in Hx as (i & Hi & _).
        apply list_elem_of_lookup. exists i. exact Hi.
    + intros Hx. apply list_elem_of_lookup in Hx as [i Hi].
      destruct (in_dec Nat.eq_dec i positions) as [Hin|Hout].
      * left. apply list_elem_of_In, list_elem_of_lookup in Hin as [k Hk].
        destruct (Forall2_lookup_l _ _ _ _ _ HF Hk) as (y & Hy & Hly).
        rewrite Hi in Hly. injection Hly as <-.
        apply list_elem_of_lookup. exists k. exact Hy.
      * right. apply list_elem_of_In. apply not_indexed_spec.
        exists i. split; assumption.
Qed.

Section Conservation.
Variable self : EnhancedTracker.t.

(** The detections half of the next theorem, for the stages of a call. *)
Lemma solver_detections_conserved lsa fuel trs dets m ud ut :
  assigns_once lsa -> pairs_up lsa -> NoDup (map oid dets) ->
  EnhancedTracker.associate_detections_to_tracks (Some lsa) fuel self dets trs
  = Ret (m, ud, ut) ->
  Permutation (map snd m ++ ud) dets.
Proof.
  intros Hlsa Hlen Hdets.
  unfold EnhancedTracker.associate_detections_to_tracks.
  destruct (length trs =? 0)%nat; [intros [= <- <- <-]; reflexivity|].
  destruct (length dets =? 0)%nat eqn:E2.
  { apply Nat.eqb_eq, length_zero_iff_nil in E2. subst dets.
    intros [= <- <- <-]. reflexivity. }
  destruct (Hlsa (EnhancedTracker.cost_matrix self trs dets)) as [_ Hdi].
  specialize (Hlen (EnhancedTracker.cost_matrix self trs dets)).
  destruct (lsa _) as [ti di]. simpl in Hdi, Hlen.
  destruct (EnhancedTracker.find_matches _ _ _ _ _ _ _ _)
    as [[[m0 ut0] ud0]| |] eqn:Efm; simpl; try discriminate.
  intros [= <- <- <-].
  apply find_matches_perm in Efm as (pt & pd & _ & Hpd & _ & Hd).
  simpl in Hd. rewrite (map_snd_combine _ _ Hlen) in Hpd.
  rewrite app_assoc, Hd. apply picked_and_rest_perm; try assumption.
  apply (NoDup_fmap_1 oid). exact Hdets.
Qed.

(** X16.  With a solver that assigns no row and no column twice and returns
    as many rows as columns, the associator loses nothing and doubles
    nothing: for distinct tracks and distinct detections, the tracks of
    [matched] and [unmatched_tracks] are a permutation of the tracks it was
    given, and the detections of [matched] and [unmatched_detections] are a
    permutation of the detections it was given. *)
Theorem solver_returns_every_track_and_detection lsa fuel trs dets m ud ut :
  assigns_once lsa -> pairs_up lsa ->
  NoDup trs -> NoDup (map oid dets) ->
  EnhancedTracker.associate_detections_to_tracks (Some lsa) fuel self dets trs
  = Ret (m, ud, ut) ->
  Permutation (map fst m ++ ut) trs
  /\ Permutation (map snd m ++ ud) dets.
Proof.
  intros Hlsa Hlen Htrs Hdets.
  unfold EnhancedTracker.associate_detections_to_tracks.
  destruct (length trs =? 0)%nat eqn:E1.
  { apply Nat.eqb_eq, length_zero_iff_nil in E1. subst trs.
    intros [= <- <- <-]. simpl. split; reflexivity. }
  destruct (length dets =? 0)%nat eqn:E2.
  { apply Nat.eqb_eq, length_zero_iff_nil in E2. subst dets.
    intros [= <- <- <-]. simpl. split; reflexivity. }
  destruct (Hlsa (EnhancedTracker.cost_matrix self trs dets)) as [Hti Hdi].
  specialize (Hlen (EnhancedTracker.cost_matrix self trs dets)).
  destruct (lsa _) as [ti di]. simpl in Hti, Hdi, Hlen.
  destruct (EnhancedTracker.find_matches _ _ _ _ _ _ _ _)
    as [[[m0 ut0] ud0]| |] eqn:Efm; simpl; try discriminate.
  intros [= <- <- <-].
  apply find_matches_perm in Efm as (pt & pd & Hpt & Hpd & Ht & Hd).
  simpl in Ht, Hd.
  rewrite (map_fst_combine _ _ Hlen) in Hpt.
  rewrite (map_snd_combine _ _ Hlen) in Hpd.
  split.
  - rewrite app_assoc, Ht. apply picked_and_rest_perm; assumption.
  - rewrite app_assoc, Hd. apply picked_and_rest_perm; try assumption.
    apply (NoDup_fmap_1 oid). exact Hdets.
Qed.
End Conservation.

Lemma Env_pairs_up : pairs_up Env.linear_sum_assignment.
Proof.
  intros cost. unfold Env.linear_sum_assignment. simpl.
  rewrite !length_map. reflexivity.
Qed.

(** X16 at the tracker that holds [tA], for the detections [dA] and [dB]. *)
Lemma solver_returns_every_track_and_detection_witness :
  exists m ud ut,
    EnhancedTracker.associate_detections_to_tracks Examples.scipy 0
      Examples.trackerA [Examples.rA; mkref 1 Examples.dB] [0%nat]
    = Ret (m, ud, ut)
    /\ Permutation (map fst m ++ ut) [0%nat]
    /\ Permutation (map snd m ++ ud) [Examples.rA; mkref 1 Examples.dB].
Proof.
  eexists. eexists. eexists. split; [vm_compute; reflexivity|].
  apply (solver_returns_every_track_and_detection Examples.trackerA
           Env.linear_sum_assignment 0).
  - exact Env_assigns_once.
  - exact Env_pairs_up.
  - exact (NoDup_seq 0 1).
  - exact (NoDup_seq 0 2).
  - vm_compute. reflexivity.
Defined.

(** ** A call under the solver's contract *)

Section Once.
Variable sqrt : Q -> Q.
Variable scipy : option (list (list Q) -> list nat * list nat).
Hypothesis scipy_assigns_once : forall lsa, scipy = Some lsa -> assigns_once lsa.

(** Under the solver's contract no track is matched twice in a call. *)
Lemma matched_tracks_NoDup fuel self dets s :
  EnhancedTracker.run_stages sqrt scipy fuel self dets = Ret s ->
  NoDup (map fst (EnhancedTracker.matched_high_conf s
                  ++ EnhancedTracker.matched_unconfirmed s
                  ++ EnhancedTracker.matched_low_conf s)).
Proof.
  intros Hrun.
  destruct (run_stages_inv _ _ _ _ _ _ Hrun)
    as (selfA & selfB & selfC & uB & tB & uC & tC & _ & _ & _
        & EA & EB & EC & HsB & HsC & Hhigh & Hlow & Hconf & Hunconf & Hafter).
  assert (Hnh : NoDup (map oid (EnhancedTracker.high_conf_detections s))).
  { rewrite Hhigh. apply refs_filter_NoDup. }
  assert (Hnl : NoDup (map oid (EnhancedTracker.low_conf_detections s))).
  { rewrite Hlow. apply refs_filter_NoDup. }
  assert (Hnc : NoDup (EnhancedTracker.confirmed_tracks s)).
  { rewrite Hconf. apply tracks_in_state_NoDup. }
  assert (Hnu : NoDup (EnhancedTracker.unconfirmed_tracks s)).
  { rewrite Hunconf. apply tracks_in_state_NoDup. }
  destruct (associate_partition _ _ _ _ _ _ _ _ scipy_assigns_once Hnc Hnh EA)
    as (PA1 & PA2 & PA3 & PA4).
  destruct (associate_partition _ _ _ _ _ _ _ _ scipy_assigns_once Hnu PA2 EB)
    as (PB1 & PB2 & PB3 & PB4).
  assert (Hna : NoDup (EnhancedTracker.unmatched_confirmed_after_high s)).
  { rewrite Hafter. eapply sublist_NoDup; [|apply list_filter_sublist].
    apply NoDup_app in PA1 as (_ & _ & PA1). exact PA1. }
  destruct (associate_partition _ _ _ _ _ _ _ _ scipy_assigns_once Hna Hnl EC)
    as (PC1 & PC2 & PC3 & PC4).
  rewrite !map_app. apply NoDup_app in PA1 as (NA & DA & _).
  apply NoDup_app in PB1 as (NB & _ & _).
  apply NoDup_app in PC1 as (NC & _ & _).
  assert (HC : forall r, In r (map fst (EnhancedTracker.matched_low_conf s)) ->
                 In r (EnhancedTracker.unmatched_confirmed s)
                 /\ ~ In r (map fst (EnhancedTracker.matched_unconfirmed s))).
  { intros r Hr. specialize (PC3 r (in_or_app _ _ _ (or_introl Hr))).
    rewrite Hafter in PC3. apply filter_In in PC3 as [H1 H2]. split; [exact H1|].
    apply negb_true_iff in H2. intros Hin. apply mem_track_In in Hin.
    congruence. }
  apply NoDup_app. split; [exact NA|]. split.
  - intros r HrA Hr. apply list_elem_of_In in Hr.
    apply in_app_or in Hr as [HrB|HrC].
    + apply list_elem_of_In in HrA.
      specialize (PA3 r (in_or_app _ _ _ (or_introl HrA))).
      specialize (PB3 r (in_or_app _ _ _ (or_introl HrB))).
      rewrite Hconf in PA3. rewrite Hunconf in PB3.
      apply tracks_in_state_spec in PA3, PB3. congruence.
    + destruct (HC r HrC) as [Hu _]. apply (DA r HrA).
      apply list_elem_of_In. exact Hu.
  - apply NoDup_app. split; [exact NB|]. split; [|exact NC].
    intros r HrB HrC. apply list_elem_of_In in HrB, HrC.
    destruct (HC r HrC) as [_ Hn]. contradiction.
Qed.

Lemma apply_updates_once m : forall store r t d,
  NoDup (map fst m) -> store !! r = Some t -> In (r, d) m ->
  EnhancedTracker.apply_updates sqrt m store !! r
  = Some (Track.update sqrt t (Detection.bbox (val d))
                       (Detection.confidence (val d))).
Proof.
  unfold EnhancedTracker.apply_updates.
  induction m as [|[r0 d0] m IH]; intros store r t d Hn Hr Hin; simpl;
    [destruct Hin|].
  simpl in Hn. apply NoDup_cons in Hn as [Hr0 Hn].
  destruct Hin as [[= -> ->]|Hin].
  - assert (Hlk : alter (fun tr => Track.update sqrt tr
                                     (Detection.bbox (val d))
                                     (Detection.confidence (val d)))
                        r store !! r
                  = Some (Track.update sqrt t (Detection.bbox (val d))
                                       (Detection.confidence (val d)))).
    { rewrite list_lookup_alter_eq, Hr. reflexivity. }
    clear IH Hn Hr. revert Hr0 Hlk.
    generalize (alter (fun tr => Track.update sqrt tr
                                   (Detection.bbox (val d))
                                   (Detection.confidence (val d))) r store).
    generalize (Track.update sqrt t (Detection.bbox (val d))
                             (Detection.confidence (val d))).
    induction m as [|[r1 d1] m IH]; intros t1 store1 Hr0 Hlk; simpl;
      [exact Hlk|].
    apply IH.
    + intros H. apply Hr0. simpl. apply elem_of_cons. right. exact H.
    + rewrite list_lookup_alter_ne; [exact Hlk|].
      intros ->. apply Hr0. simpl. apply elem_of_cons. left. reflexivity.
  - apply IH; [exact Hn| |exact Hin].
    rewrite list_lookup_alter_ne; [exact Hr|].
    intros ->. apply Hr0. apply list_elem_of_In.
    apply (in_map fst) in Hin. exact Hin.
Qed.

Lemma after_stages_tracks fuel self dets s :
  EnhancedTracker.run_stages sqrt scipy fuel self dets = Ret s ->
  EnhancedTracker.tracks (EnhancedTracker.after_stages s)
  = EnhancedTracker.apply_updates sqrt
      (EnhancedTracker.matched_high_conf s
       ++ EnhancedTracker.matched_unconfirmed s
       ++ EnhancedTracker.matched_low_conf s)
      (map (fun track => fst (Track.predict track))
           (EnhancedTracker.tracks self)).
Proof.
  intros Hrun.
  destruct (run_stages_inv _ _ _ _ _ _ Hrun)
    as (_ & _ & _ & _ & _ & _ & _ & _ & _ & _ & _ & _ & _ & HsB & HsC & _).
  destruct (run_stages_after _ _ _ _ _ _ Hrun) as (HsA & Hafter & _).
  rewrite Hafter, HsC, HsB, HsA, !apply_updates_app. reflexivity.
Qed.

Lemma update_exact_cases fuel self dets self' :
  EnhancedTracker.update sqrt scipy fuel self dets = Ret self' ->
  Forall
    (fun t' =>
       (exists d, In d dets /\ high_confidence d = true
          /\ t' = Track.mark_missed
                    (Track.init (Detection.bbox d) (Detection.confidence d)
                                (Detection.class_id d) (Detection.class_name d)
                                (Track.track_id t')))
       \/ (exists t, In t (EnhancedTracker.tracks self)
             /\ t' = Track.mark_missed (fst (Track.predict t)))
       \/ (exists t d, In t (EnhancedTracker.tracks self) /\ In d dets
             /\ t' = Track.update sqrt (fst (Track.predict t))
                                  (Detection.bbox d) (Detection.confidence d)))
    (EnhancedTracker.tracks self').
Proof.
  intros Hup. apply List.Forall_forall. intros t' Ht'.
  unfold EnhancedTracker.update in Hup.
  destruct (EnhancedTracker.run_stages _ _ _ _ _) as [s| |] eqn:Es;
    simpl in Hup; try discriminate.
  injection Hup as <-. rewrite finish_spec in Ht'. cbv zeta in Ht'.
  cbn [EnhancedTracker.tracks] in Ht'.
  apply filter_In in Ht' as [Ht' _].
  apply list_elem_of_In, list_elem_of_lookup in Ht' as [r Hr].
  pose proof (run_stages_frame _ _ _ _ _ _ Es) as (_ & Hnext & _).
  rewrite Hnext in Hr.
  destruct (decide (r < length (EnhancedTracker.tracks self))%nat) as [Hlt|Hge].
  - destruct (lookup_lt_is_Some_2 _ _ Hlt) as [t Ht].
    assert (Hin : In t (EnhancedTracker.tracks self)).
    { apply list_elem_of_In, list_elem_of_lookup. exists r. exact Ht. }
    pose proof (after_stages_tracks _ _ _ _ Es) as Hold.
    pose proof (matched_tracks_NoDup _ _ _ _ Es) as Hnd.
    destruct (stage_detections_incl _ _ _ _ _ _ Es) as (Hm & _ & _).
    set (pairs := EnhancedTracker.matched_high_conf s
                  ++ EnhancedTracker.matched_unconfirmed s
                  ++ EnhancedTracker.matched_low_conf s) in *.
    rewrite mark_unmatched_lookup in Hr.
    rewrite lookup_app_l in Hr
      by (rewrite Hold, apply_updates_length, length_map; exact Hlt).
    assert (Hp : map (fun track => fst (Track.predict track))
                     (EnhancedTracker.tracks self) !! r
                 = Some (fst (Track.predict t))).
    { rewrite list_lookup_fmap, Ht. reflexivity. }
    destruct (mem_track r (map fst pairs)) eqn:Em.
    + right. right. apply mem_track_In in Em.
      apply in_map_iff in Em as ([r' d] & Heq & Hd). simpl in Heq. subst r'.
      rewrite Hold, (apply_updates_once pairs _ r _ d Hnd Hp Hd) in Hr.
      simpl in Hr. injection Hr as <-.
      exists t, (val d). split; [exact Hin|]. split; [|reflexivity].
      apply (Hm r d Hd).
    + right. left. exists t. split; [exact Hin|].
      assert (Hsame : EnhancedTracker.apply_updates sqrt pairs
                        (map (fun track => fst (Track.predict track))
                             (EnhancedTracker.tracks self)) !! r
                      = Some (fst (Track.predict t))).
      { destruct (apply_updates_at sqrt pairs _ r _ Hp)
          as (t1 & Ht1 & _ & [[_ ->]|(d & Hd & _)]); [exact Ht1|].
        apply (in_map fst) in Hd. apply mem_track_In in Hd. simpl in Hd.
        congruence. }
      rewrite Hold, Hsame in Hr. simpl in Hr. injection Hr as <-. reflexivity.
  - left.
    destruct (update_cases_at _ _ _ _ _ _ _ _ Es Hr)
      as [(d & Hd & Hh & _ & Heq)|[(t & Ht & _)|(t & d & Ht & _)]].
    + exists d. auto.
    + apply lookup_lt_Some in Ht. contradiction.
    + apply lookup_lt_Some in Ht. contradiction.
Qed.

Lemma update_frame_count fuel self dets self' :
  EnhancedTracker.update sqrt scipy fuel self dets = Ret self' ->
  EnhancedTracker.frame_count self' = EnhancedTracker.frame_count self + 1.
Proof.
  unfold EnhancedTracker.update.
  destruct (EnhancedTracker.run_stages _ _ _ _ _) as [s| |] eqn:Es; simpl;
    try discriminate.
  intros [= <-]. rewrite finish_spec. cbv zeta.
  cbn [EnhancedTracker.frame_count].
  apply run_stages_after in Es as (_ & _ & Hfc & _). exact Hfc.
Qed.

(** X17.  With a solver that assigns no row and no column twice, or on the
    greedy path, a call of [update] that returns advances [frame_count] by
    one, keeps [max_age], and updates every track at most once: each track
    it returns is a track it created from a detection of confidence 0.5 or
    more, with [mark_missed] applied, or a track it was given after
    [predict] and [mark_missed], or a track it was given after [predict]
    and exactly one [update(d.bbox, d.confidence)] for a detection [d] of
    the call. *)
Theorem update_matches_each_track_once fuel self dets self' :
  EnhancedTracker.update sqrt scipy fuel self dets = Ret self' ->
  EnhancedTracker.frame_count self' = EnhancedTracker.frame_count self + 1
  /\ EnhancedTracker.max_age self' = EnhancedTracker.max_age self
  /\ Forall
       (fun t' =>
          (exists d, In d dets /\ high_confidence d = true
             /\ t' = Track.mark_missed
                       (Track.init (Detection.bbox d) (Detection.confidence d)
                                   (Detection.class_id d)
                                   (Detection.class_name d)
                                   (Track.track_id t')))
          \/ (exists t, In t (EnhancedTracker.tracks self)
                /\ t' = Track.mark_missed (fst (Track.predict t)))
          \/ (exists t d, In t (EnhancedTracker.tracks self) /\ In d dets
                /\ t' = Track.update sqrt (fst (Track.predict t))
                                     (Detection.bbox d)
                                     (Detection.confidence d)))
       (EnhancedTracker.tracks self').
Proof.
  intros Hup. split; [exact (update_frame_count _ _ _ _ Hup)|].
  split; [|exact (update_exact_cases _ _ _ _ Hup)].
  apply update_spec in Hup as (Hage & _). exact Hage.
Qed.
End Once.

(** X17 at the tracker that holds [tA], on a frame that shows [dA] and
    [dB]. *)
Lemma update_matches_each_track_once_witness :
  exists self',
    EnhancedTracker.update Env.sqrt Examples.scipy 0 Examples.trackerA
      [Examples.dA; Examples.dB] = Ret self'
    /\ EnhancedTracker.frame_count self'
       = EnhancedTracker.frame_count Examples.trackerA + 1
    /\ EnhancedTracker.max_age self' = EnhancedTracker.max_age Examples.trackerA
    /\ Forall
         (fun t' =>
            (exists d, In d [Examples.dA; Examples.dB]
               /\ high_confidence d = true
               /\ t' = Track.mark_missed
                         (Track.init (Detection.bbox d)
                                     (Detection.confidence d)
                                     (Detection.class_id d)
                                     (Detection.class_name d)
                                     (Track.track_id t')))
            \/ (exists t, In t (EnhancedTracker.tracks Examples.trackerA)
                  /\ t' = Track.mark_missed (fst (Track.predict t)))
            \/ (exists t d, In t (EnhancedTracker.tracks Examples.trackerA)
                  /\ In d [Examples.dA; Examples.dB]
                  /\ t' = Track.update Env.sqrt (fst (Track.predict t))
                                       (Detection.bbox d)
                                       (Detection.confidence d)))
         (EnhancedTracker.tracks self').
Proof.
  eexists. split; [vm_compute; reflexivity|].
  apply (update_matches_each_track_once Env.sqrt Examples.scipy
           ltac:(intros lsa [= <-]; exact Env_assigns_once) 0
           Examples.trackerA [Examples.dA; Examples.dB]).
  vm_compute. reflexivity.
Defined.

(** The items of [l] that are not among [picked], and [picked], make up
    [l], when the objects of each list are distinct and [picked] is taken
    from [l]. *)
Lemma picked_and_filtered_perm {A} (picked l : list (ref A)) :
  NoDup (map oid l) -> NoDup (map oid picked) ->
  (forall x, In x picked -> In x l) ->
  Permutation (picked ++ List.filter (fun x => negb (mem x picked)) l) l.
Proof.
  intros Hl Hp Hsub.
  pose proof (NoDup_fmap_1 oid _ Hl) as Hl'.
  pose proof (NoDup_fmap_1 oid _ Hp) as Hp'.
  apply NoDup_Permutation.
  - apply NoDup_app. split; [exact Hp'|]. split.
    + intros x Hx Hf. apply list_elem_of_In in Hx, Hf.
      apply filter_In in Hf as [_ Hf]. apply negb_true_iff in Hf.
      assert (Hm : mem x picked = true).
      { apply mem_In. apply in_map. exact Hx. }
      congruence.
    + eapply sublist_NoDup; [exact Hl'|apply list_filter_sublist].
  - exact Hl'.
  - intros x. rewrite elem_of_app. split.
    + intros [Hx|Hx]; apply list_elem_of_In in Hx; apply list_elem_of_In.
      * apply Hsub. exact Hx.
      * apply filter_In in Hx as [Hx _]. exact Hx.
    + intros Hx. apply list_elem_of_In in Hx.
      destruct (mem x picked) eqn:Em.
      * left. apply mem_In in Em. apply in_map_iff in Em as (y & Heq & Hy).
        assert (y = x) as <-; [|apply list_elem_of_In; exact Hy].
        apply Hsub in Hy.
        apply list_elem_of_In, list_elem_of_lookup in Hy as [i Hi].
        apply list_elem_of_In, list_elem_of_lookup in Hx as [j Hj].
        assert (i = j) as ->.
        { apply (NoDup_lookup (map oid l) i j (oid x) Hl).
          - rewrite list_lookup_fmap, Hi. simpl. f_equal. exact Heq.
          - rewrite list_lookup_fmap, Hj. reflexivity. }
        congruence.
      * right. apply list_elem_of_In. apply filter_In. split; [exact Hx|].
        rewrite Em. reflexivity.
Qed.

Section Detections.
Variable sqrt : Q -> Q.

(** X18.  With a solver that assigns no row and no column twice and returns
    as many rows as columns, a call of [update] loses no detection of
    confidence 0.5 or more and uses none twice: the detections matched in
    the first association, those matched to tentative tracks, and those
    that start a track are together a permutation of the high-confidence
    detections of the call. *)
Theorem no_confident_detection_is_lost lsa fuel self dets s :
  assigns_once lsa -> pairs_up lsa ->
  EnhancedTracker.run_stages sqrt (Some lsa) fuel self dets = Ret s ->
  Permutation
    (map snd (EnhancedTracker.matched_high_conf s)
     ++ map snd (EnhancedTracker.matched_unconfirmed s)
     ++ EnhancedTracker.creators s)
    (List.filter (fun d => high_confidence (val d)) (refs_from 0 dets)).
Proof.
  intros Hlsa Hlen Hrun.
  destruct (run_stages_inv _ _ _ _ _ _ Hrun)
    as (selfA & selfB & selfC & uB & tB & uC & tC & _ & _ & _
        & EA & EB & _ & _ & _ & Hhigh & _ & Hconf & Hunconf & _).
  assert (Hnh : NoDup (map oid (EnhancedTracker.high_conf_detections s))).
  { rewrite Hhigh. apply refs_filter_NoDup. }
  assert (Hnc : NoDup (EnhancedTracker.confirmed_tracks s)).
  { rewrite Hconf. apply tracks_in_state_NoDup. }
  assert (Hnu : NoDup (EnhancedTracker.unconfirmed_tracks s)).
  { rewrite Hunconf. apply tracks_in_state_NoDup. }
  pose proof (solver_detections_conserved _ _ _ _ _ _ _ _
                Hlsa Hlen Hnh EA) as PA.
  destruct (associate_solver_partition _ _ _ _ _ _ _ _ Hlsa Hnc Hnh EA)
    as (_ & NA & _ & _).
  rewrite map_app in NA. apply NoDup_app in NA as (_ & _ & NuA).
  destruct (associate_solver_partition _ _ _ _ _ _ _ _ Hlsa Hnu NuA EB)
    as (_ & NB & _ & IB).
  rewrite map_app in NB. apply NoDup_app in NB as (NmB & _ & _).
  rewrite <- Hhigh, <- PA. apply Permutation_app_head.
  unfold EnhancedTracker.creators.
  apply picked_and_filtered_perm; [exact NuA|exact NmB|].
  intros d Hd. apply IB. apply in_or_app. left. exact Hd.
Qed.
End Detections.

(** X18 at the tracker that holds [tA], on a frame that shows [dA] and
    [dB]. *)
Lemma no_confident_detection_is_lost_witness :
  exists s,
    EnhancedTracker.run_stages Env.sqrt Examples.scipy 0 Examples.trackerA
      [Examples.dA; Examples.dB] = Ret s
    /\ Permutation
         (map snd (EnhancedTracker.matched_high_conf s)
          ++ map snd (EnhancedTracker.matched_unconfirmed s)
          ++ EnhancedTracker.creators s)
         (List.filter (fun d => high_confidence (val d))
                      (refs_from 0 [Examples.dA; Examples.dB])).
Proof.
  eexists. split; [vm_compute; reflexivity|].
  apply (no_confident_detection_is_lost Env.sqrt Env.linear_sum_assignment 0
           Examples.trackerA [Examples.dA; Examples.dB]).
  - exact Env_assigns_once.
  - exact Env_pairs_up.
  - vm_compute. reflexivity.
Defined.

(** ** Hits against calls *)

Lemma age_predict t : Track.age (fst (Track.predict t)) = Track.age t.
Proof. unfold Track.predict. destruct (2 <=? _)%nat; reflexivity. Qed.

Lemma age_update sqrt t b c :
  Track.age (Track.update sqrt t b c) = Track.age t + 1.
Proof. unfold Track.update. destruct (15 <? _)%nat; reflexivity. Qed.

Section Bounds.
Variable sqrt : Q -> Q.
Variable scipy : option (list (list Q) -> list nat * list nat).
Hypothesis scipy_assigns_once : forall lsa, scipy = Some lsa -> assigns_once lsa.

Lemma update_seasoned fuel self dets self' :
  0 <= EnhancedTracker.frame_count self ->
  Forall (seasoned (EnhancedTracker.frame_count self))
         (EnhancedTracker.tracks self) ->
  EnhancedTracker.update sqrt scipy fuel self dets = Ret self' ->
  Forall (seasoned (EnhancedTracker.frame_count self'))
         (EnhancedTracker.tracks self').
Proof.
  intros Hfc Hs Hup. rewrite (update_frame_count _ _ _ _ _ _ Hup).
  pose proof (update_exact_cases sqrt scipy scipy_assigns_once
                _ _ _ _ Hup) as Hcases.
  apply List.Forall_forall. intros t' Ht'.
  apply (proj1 (List.Forall_forall _ _) Hcases) in Ht'.
  destruct Ht' as [(d & _ & _ & ->)|[(t & Ht & ->)|(t & d & Ht & _ & ->)]].
  - split; simpl; lia.
  - destruct (proj1 (List.Forall_forall _ _) Hs t Ht) as [H1 H2].
    unfold seasoned. cbn [Track.mark_missed Track.hits Track.age].
    rewrite hits_predict, age_predict. lia.
  - destruct (proj1 (List.Forall_forall _ _) Hs t Ht) as [H1 H2].
    unfold seasoned. rewrite hits_update, age_update, hits_predict, age_predict.
    lia.
Qed.

Lemma updates_seasoned fuel frames : forall self self',
  0 <= EnhancedTracker.frame_count self ->
  Forall (seasoned (EnhancedTracker.frame_count self))
         (EnhancedTracker.tracks self) ->
  EnhancedTracker.updates sqrt scipy fuel self frames = Ret self' ->
  EnhancedTracker.frame_count self'
  = EnhancedTracker.frame_count self + Z.of_nat (length frames)
  /\ Forall (seasoned (EnhancedTracker.frame_count self'))
            (EnhancedTracker.tracks self').
Proof.
  induction frames as [|dets frames IH]; intros self self' Hfc Hs;
    cbn [EnhancedTracker.updates length].
  - intros [= <-]. split; [lia|exact Hs].
  - destruct (EnhancedTracker.update _ _ _ _ _) as [self1| |] eqn:E; simpl;
      try discriminate.
    intros H. pose proof (update_frame_count _ _ _ _ _ _ E) as Hfc1.
    apply IH in H as [H1 H2].
    + split; [lia|exact H2].
    + lia.
    + eapply update_seasoned; eassumption.
Qed.

(** X19.  With a solver that assigns no row and no column twice, or on the
    greedy path: after [n] calls of [update] from the constructor,
    [frame_count] is [n] and every active track has [hits <= age] and
    [age <= frame_count]; a track cannot gather more hits than there were
    calls. *)
Theorem hits_bounded_by_calls fuel max_age min_hits thr frames self' :
  EnhancedTracker.updates sqrt scipy fuel
    (EnhancedTracker.init max_age min_hits thr) frames = Ret self' ->
  EnhancedTracker.frame_count self' = Z.of_nat (length frames)
  /\ Forall (fun t => Track.hits t <= Track.age t
                      /\ Track.age t <= EnhancedTracker.frame_count self')
            (EnhancedTracker.tracks self').
Proof.
  intros H. apply updates_seasoned in H as [H1 H2].
  - split; [exact H1|exact H2].
  - simpl. lia.
  - constructor.
Qed.
End Bounds.

(** X19 at the tracker after three frames that show [dA]. *)
Lemma hits_bounded_by_calls_witness :
  EnhancedTracker.frame_count Examples.tracker_confirmed
  = Z.of_nat (length (repeat [Examples.dA] 3))
  /\ Forall (fun t => Track.hits t <= Track.age t
                      /\ Track.age t
                         <= EnhancedTracker.frame_count
                              Examples.tracker_confirmed)
            (EnhancedTracker.tracks Examples.tracker_confirmed).
Proof.
  apply (hits_bounded_by_calls Env.sqrt None ltac:(intros lsa [=]) 2 30 3
           (3 # 10) (repeat [Examples.dA] 3)).
  vm_compute. reflexivity.
Defined.

Section WarmUp.
Variable sqrt : Q -> Q.
Variable scipy : option (list (list Q) -> list nat * list nat).
Hypothesis scipy_assigns_once : forall lsa, scipy = Some lsa -> assigns_once lsa.
Variable Frame : Type.
Variable yolo_model : option (Frame -> list Detection.t).

Lemma emit_hits self tracker :
  Forall (seasoned (EnhancedTracker.frame_count tracker))
         (EnhancedTracker.tracks tracker) ->
  Forall (fun td => TrackingService.td_hits td
                    <= EnhancedTracker.frame_count tracker)
         (TrackingService.emit self (EnhancedTracker.tracks tracker)).
Proof.
  intros Hs. destruct (emit_spec self (EnhancedTracker.tracks tracker))
    as (capped & Hsub & ->).
  apply List.Forall_forall. intros td Htd.
  apply in_map_iff in Htd as (t & <- & Ht). apply filter_In in Ht as [Ht _].
  assert (Hin : In t (EnhancedTracker.tracks tracker)).
  { apply list_elem_of_In. eapply elem_of_sublist; [|exact Hsub].
    apply list_elem_of_In. exact Ht. }
  destruct (proj1 (List.Forall_forall _ _) Hs t Hin) as [H1 H2].
  cbn [TrackingService.snapshot TrackingService.td_hits]. lia.
Qed.

Lemma frames_loop_hits fuel frames : forall self idx acc self' frs,
  EnhancedTracker.frame_count (TrackingService.tracker self)
  = Z.of_nat (length acc) ->
  Forall (seasoned (EnhancedTracker.frame_count (TrackingService.tracker self)))
         (EnhancedTracker.tracks (TrackingService.tracker self)) ->
  hits_within acc ->
  TrackingService.frames_loop sqrt scipy Frame yolo_model fuel self idx
    frames acc = Ret (self', frs) ->
  hits_within frs.
Proof.
  induction frames as [|frame frames IH]; intros self idx acc self' frs
    Hfc Hs Hacc; cbn [TrackingService.frames_loop].
  - intros [= <- <-]. exact Hacc.
  - destruct (_ =? 0); [discriminate|].
    destruct (negb _); [apply IH; assumption|].
    unfold TrackingService.process_frame.
    destruct (EnhancedTracker.update _ _ _ _ _) as [tracker'| |] eqn:E; simpl;
      try discriminate.
    pose proof (update_frame_count _ _ _ _ _ _ E) as Hfc'.
    assert (Hs' : Forall (seasoned (EnhancedTracker.frame_count tracker'))
                         (EnhancedTracker.tracks tracker')).
    { eapply (update_seasoned sqrt scipy scipy_assigns_once);
        [|exact Hs|exact E]. lia. }
    apply IH.
    + cbn [TrackingService.set_tracker TrackingService.tracker].
      rewrite length_app. simpl. lia.
    + exact Hs'.
    + intros k fr Hk.
      destruct (decide (k < length acc)%nat) as [Hlt|Hge].
      * rewrite lookup_app_l in Hk by exact Hlt. apply (Hacc k fr Hk).
      * rewrite lookup_app_r in Hk by lia.
        destruct (k - length acc)%nat as [|j] eqn:Ej; [|destruct j; discriminate].
        injection Hk as <-. cbn [TrackingService.fr_tracks].
        eapply Forall_impl; [apply emit_hits; exact Hs'|].
        intros td Htd. simpl in Htd. lia.
Qed.

(** The entries of the [k]-th sampled frame, when the loop returns. *)
Lemma frames_loop_warm_up fuel confidence_threshold iou_threshold
    max_objects_per_frame (frames : list Frame) self' frame_results :
  TrackingService.frames_loop sqrt scipy Frame yolo_model fuel
    (TrackingService.init confidence_threshold iou_threshold
       max_objects_per_frame) 0 frames [] = Ret (self', frame_results) ->
  forall k fr, frame_results !! k = Some fr ->
    Forall (fun td => 3 <= TrackingService.td_hits td <= Z.of_nat k + 1)
           (TrackingService.fr_tracks fr)
    /\ ((k < 2)%nat -> TrackingService.fr_tracks fr = []).
Proof.
  intros Hloop k fr Hk.
  assert (Hhi : Forall (fun td => TrackingService.td_hits td <= Z.of_nat k + 1)
                       (TrackingService.fr_tracks fr)).
  { refine (frames_loop_hits fuel frames _ 0 [] self' frame_results
              _ _ _ Hloop k fr Hk).
    - reflexivity.
    - constructor.
    - intros j x Hj. discriminate. }
  assert (Hwr : Forall (well_reported
                          (TrackingService.init confidence_threshold
                             iou_threshold max_objects_per_frame))
                       frame_results).
  { refine (frames_loop_sound sqrt scipy Frame yolo_model fuel frames _ 0 []
              self' frame_results _ _ Hloop).
    - apply sound_init.
    - constructor. }
  apply list_elem_of_lookup_2, list_elem_of_In in Hk.
  destruct (proj1 (List.Forall_forall _ _) Hwr fr Hk) as [_ Hrep].
  assert (Hall : Forall (fun td => 3 <= TrackingService.td_hits td
                                   <= Z.of_nat k + 1)
                        (TrackingService.fr_tracks fr)).
  { apply List.Forall_forall. intros td Htd.
    destruct (proj1 (List.Forall_forall _ _) Hrep td Htd) as [_ H3 _ _].
    pose proof (proj1 (List.Forall_forall _ _) Hhi td Htd) as Hle.
    simpl in H3, Hle. lia. }
  split; [exact Hall|]. intros Hlt.
  destruct (TrackingService.fr_tracks fr) as [|td tds]; [reflexivity|].
  apply Forall_cons in Hall as [Htd _]. lia.
Qed.

(** X20.  With a solver that assigns no row and no column twice, or on the
    greedy path, a service fresh from the constructor answers
    [detect_and_track] in one of two ways.
    - With the dummy results, when YOLO is missing or the loop over the
      frames raises: their first frame result, for frame 0 of a video that
      has a frame, reports track 1 with 3 hits.
    - With the frame results of the loop: the entries of the [k]-th sampled
      frame (counting from 0) have between 3 and [k + 1] hits, so the first
      two sampled frames report no track at all. *)
Theorem no_report_before_third_sampled_frame fuel confidence_threshold
    iou_threshold max_objects_per_frame (frames : list Frame) r :
  let self := TrackingService.init confidence_threshold iou_threshold
                max_objects_per_frame in
  TrackingService.detect_and_track sqrt scipy Frame yolo_model fuel self frames
  = Ret r ->
  ((yolo_model = None
    \/ TrackingService.frames_loop sqrt scipy Frame yolo_model fuel self 0
         frames [] = Raise)
   /\ r = TrackingService.get_dummy_tracking_results frames
   /\ (frames <> [] ->
       exists fr, TrackingService.frame_results r !! 0%nat = Some fr
         /\ TrackingService.frame_number fr = 0
         /\ TrackingService.fr_tracks fr = [TrackingService.dummy_track]
         /\ TrackingService.td_hits TrackingService.dummy_track = 3))
  \/ ((exists self',
         TrackingService.frames_loop sqrt scipy Frame yolo_model fuel self 0
           frames [] = Ret (self', TrackingService.frame_results r))
      /\ yolo_model <> None
      /\ forall k fr, TrackingService.frame_results r !! k = Some fr ->
           Forall (fun td => 3 <= TrackingService.td_hits td <= Z.of_nat k + 1)
                  (TrackingService.fr_tracks fr)
           /\ ((k < 2)%nat -> TrackingService.fr_tracks fr = [])).
Proof.
  intros self Hrun.
  assert (Hdummy : forall fs : list Frame, fs <> [] ->
            exists fr,
              TrackingService.frame_results
                (TrackingService.get_dummy_tracking_results fs) !! 0%nat
              = Some fr
              /\ TrackingService.frame_number fr = 0
              /\ TrackingService.fr_tracks fr = [TrackingService.dummy_track]
              /\ TrackingService.td_hits TrackingService.dummy_track = 3).
  { intros [|f fs] Hne; [congruence|]. eexists. split; [reflexivity|].
    repeat split. }
  unfold TrackingService.detect_and_track in Hrun.
  destruct yolo_model as [model|] eqn:Ey.
  - destruct (TrackingService.frames_loop sqrt scipy Frame (Some model) fuel
                self 0 frames []) as [[self' frs]| |] eqn:El;
      [| |discriminate].
    + right. injection Hrun as <-. cbn [TrackingService.frame_results].
      split; [exists self'; reflexivity|]. split; [discriminate|].
      rewrite <- Ey in El.
      exact (frames_loop_warm_up fuel confidence_threshold iou_threshold
               max_objects_per_frame frames self' frs El).
    + left. injection Hrun as <-. split; [right; reflexivity|].
      split; [reflexivity|]. apply Hdummy.
  - left. injection Hrun as <-. split; [left; reflexivity|].
    split; [reflexivity|]. apply Hdummy.
Qed.
End WarmUp.

(** X20 at the default service on [Examples.video]: the loop returns, and
    its second sampled frame reports nothing. *)
Lemma no_report_before_third_sampled_frame_witness :
  exists r,
    TrackingService.detect_and_track Env.sqrt Examples.scipy Examples.Frame
      Examples.yolo 0 Examples.service Examples.video = Ret r
    /\ map TrackingService.fr_tracks
           (firstn 2 (TrackingService.frame_results r)) = [[]; []]
    /\ let self := Examples.service in
       let frames := Examples.video in
       ((Examples.yolo = None
         \/ TrackingService.frames_loop Env.sqrt Examples.scipy Examples.Frame
              Examples.yolo 0 self 0 frames [] = Raise)
        /\ r = TrackingService.get_dummy_tracking_results frames
        /\ (frames <> [] ->
            exists fr, TrackingService.frame_results r !! 0%nat = Some fr
              /\ TrackingService.frame_number fr = 0
              /\ TrackingService.fr_tracks fr = [TrackingService.dummy_track]
              /\ TrackingService.td_hits TrackingService.dummy_track = 3))
       \/ ((exists self',
              TrackingService.frames_loop Env.sqrt Examples.scipy
                Examples.Frame Examples.yolo 0 self 0 frames []
              = Ret (self', TrackingService.frame_results r))
           /\ Examples.yolo <> None
           /\ forall k fr, TrackingService.frame_results r !! k = Some fr ->
                Forall (fun td => 3 <= TrackingService.td_hits td
                                  <= Z.of_nat k + 1)
                       (TrackingService.fr_tracks fr)
                /\ ((k < 2)%nat -> TrackingService.fr_tracks fr = [])).
Proof.
  eexists. split; [vm_compute; reflexivity|].
  split; [vm_compute; reflexivity|].
  apply (no_report_before_third_sampled_frame Env.sqrt Examples.scipy
           ltac:(intros lsa [= <-]; exact Env_assigns_once) Examples.Frame
           Examples.yolo 0 (1 # 2) (45 # 100) 10 Examples.video).
  vm_compute. reflexivity.
Defined.

(** ** Calls that return *)

Section Completes.
Variable sqrt : Q -> Q.
Variable lsa : list (list Q) -> list nat * list nat.
Variable Frame : Type.
Variable yolo_model : option (Frame -> list Detection.t).

Lemma frames_loop_returns fuel frames : forall self idx acc,
  in_range lsa -> TrackingService.frame_skip self <> 0 ->
  exists self' frs,
    TrackingService.frames_loop sqrt (Some lsa) Frame yolo_model fuel self idx
      frames acc = Ret (self', frs).
Proof.
  induction frames as [|frame frames IH]; intros self idx acc Hlsa Hk;
    cbn [TrackingService.frames_loop]; [eauto|].
  destruct (TrackingService.frame_skip self =? 0) eqn:E0;
    [apply Z.eqb_eq in E0; contradiction|].
  destruct (negb _); [apply IH; assumption|].
  unfold TrackingService.process_frame.
  destruct (update_returns_with_solver sqrt lsa Hlsa fuel
              (TrackingService.tracker self)
              (TrackingService.filter_detections self
                 (TrackingService.detect_objects_in_frame Frame yolo_model
                    self frame))) as [tracker' E].
  rewrite E. simpl. apply IH; assumption.
Qed.

(** X21.  With YOLO loaded, a solver whose indices are in range and a
    [frame_skip] that is not 0, [detect_and_track] needs no luck: the loop
    over the frames returns, no exception sends the service to the dummy
    results, and the result is built from the frame results of the loop. *)
Theorem tracking_completes_with_solver fuel self (frames : list Frame)
    (model : Frame -> list Detection.t) :
  in_range lsa -> TrackingService.frame_skip self <> 0 ->
  yolo_model = Some model ->
  exists self' frame_results,
    TrackingService.frames_loop sqrt (Some lsa) Frame yolo_model fuel self 0
      frames [] = Ret (self', frame_results)
    /\ TrackingService.detect_and_track sqrt (Some lsa) Frame yolo_model fuel
         self frames
       = Ret {| TrackingService.total_frames := Z.of_nat (length frames);
                TrackingService.total_tracks :=
                  Z.of_nat (distinct_ids frame_results);
                TrackingService.frame_results := frame_results;
                TrackingService.stats :=
                  TrackingService.calculate_tracking_stats frame_results |}.
Proof.
  intros Hlsa Hk Hy.
  destruct (frames_loop_returns fuel frames self 0 [] Hlsa Hk)
    as (self' & frs & E).
  exists self', frs. split; [exact E|].
  unfold TrackingService.detect_and_track. rewrite E. rewrite Hy.
  reflexivity.
Qed.
End Completes.

(** X21 at the default service on [Examples.video]. *)
Lemma tracking_completes_with_solver_witness :
  exists self' frame_results,
    TrackingService.frames_loop Env.sqrt (Some Env.linear_sum_assignment)
      Examples.Frame Examples.yolo 0 Examples.service 0 Examples.video []
    = Ret (self', frame_results)
    /\ TrackingService.detect_and_track Env.sqrt
         (Some Env.linear_sum_assignment) Examples.Frame Examples.yolo 0
         Examples.service Examples.video
       = Ret {| TrackingService.total_frames :=
                  Z.of_nat (length Examples.video);
                TrackingService.total_tracks :=
                  Z.of_nat (distinct_ids frame_results);
                TrackingService.frame_results := frame_results;
                TrackingService.stats :=
                  TrackingService.calculate_tracking_stats frame_results |}.
Proof.
  apply (tracking_completes_with_solver Env.sqrt Env.linear_sum_assignment
           Examples.Frame Examples.yolo 0 Examples.service Examples.video
           (fun frame => frame)).
  - exact Env_in_range.
  - vm_compute. discriminate.
  - reflexivity.
Defined.


Section Greedy.
Variable self : EnhancedTracker.t.

(** X22.  When [greedy_assignment] returns, every detection was matched:
    [matched] pairs the detections, in descending order of confidence, each
    with a track above the threshold; the list of unmatched
    detections it returns is that same list of all detections; the tracks
    of [matched] and [unmatched_tracks] are a permutation of the tracks it
    was given.  So it returns only when there are at least as many tracks
    as detections. *)
Theorem greedy_returns_only_when_all_match fuel dets trs m ud ut :
  EnhancedTracker.greedy_assignment fuel self dets trs = Ret (m, ud, ut) ->
  ud = Py.sorted_desc (fun x => Detection.confidence (val x)) dets
  /\ map snd m = ud
  /\ Permutation (map fst m ++ ut) trs
  /\ Forall (above_threshold self) m
  /\ (length dets <= length trs)%nat.
Proof.
  intros Hret.
  pose proof (greedy_loop_tracks self _ _ _ _ _ Hret) as Hp. simpl in Hp.
  assert (Ha : Forall (above_threshold self) m).
  { eapply greedy_loop_above; [|exact Hret]. constructor. }
  apply greedy_assignment_returns in Hret as [Hud Hm].
  split; [exact Hud|]. split; [exact Hm|]. split; [exact Hp|].
  split; [exact Ha|].
  pose proof (Permutation_length Hp) as Hl. rewrite length_app, length_map in Hl.
  pose proof (f_equal (@length _) Hm) as Hl'. rewrite length_map in Hl'.
  rewrite Hud in Hl'.
  rewrite (Permutation_length
             (sorted_desc_perm (fun x => Detection.confidence (val x)) dets))
    in Hl'.
  lia.
Qed.
End Greedy.

(** X22 at the tracker that holds [tA], for the detection [dA]. *)
Lemma greedy_returns_only_when_all_match_witness :
  [Examples.rA]
  = Py.sorted_desc (fun x => Detection.confidence (val x)) [Examples.rA]
  /\ map snd [(0%nat, Examples.rA)] = [Examples.rA]
  /\ Permutation (map fst [(0%nat, Examples.rA)] ++ []) [0%nat]
  /\ Forall (above_threshold Examples.trackerA) [(0%nat, Examples.rA)]
  /\ (length [Examples.rA] <= length [0%nat])%nat.
Proof.
  apply (greedy_returns_only_when_all_match Examples.trackerA 2
           [Examples.rA] [0%nat] [(0%nat, Examples.rA)] [Examples.rA] []).
  vm_compute. reflexivity.
Defined.

(** ** The predicted box *)

Lemma nth_last {A} (l : list A) (d c : A) :
  last l = Some c -> nth (length l - 1) l d = c.
Proof.
  rewrite last_lookup. intros H.
  replace (length l - 1)%nat with (Nat.pred (length l)) by lia.
  apply nth_lookup_Some with (d := d) in H. exact H.
Qed.

(** X23.  For a track with two or more boxes in its history, the box
    [predict] returns has the width and the height of the last box of the
    history, and its centre is the centre of that box moved by the velocity
    the call has just stored. *)
Theorem predicted_box_keeps_size (t : Track.t) (c : BBox) :
  (2 <= length (Track.history t))%nat ->
  last (Track.history t) = Some c ->
  let p := snd (Track.predict t) in
  let v := Track.velocity (fst (Track.predict t)) in
  (b2 p - b0 p == b2 c - b0 c)%Q
  /\ (b3 p - b1 p == b3 c - b1 c)%Q
  /\ (Track.center_x p == Track.center_x c + fst v)%Q
  /\ (Track.center_y p == Track.center_y c + snd v)%Q.
Proof.
  intros Hlen Hlast. unfold Track.predict.
  apply Nat.leb_le in Hlen. rewrite Hlen. cbv zeta.
  rewrite (nth_last _ (Track.bbox t) c Hlast).
  cbn [fst snd Track.velocity b0 b1 b2 b3].
  unfold Track.center_x, Track.center_y. cbn [b0 b1 b2 b3].
  repeat split; field.
Qed.

(** X23 at the track [tA] after an update that moved it two to the
    right. *)
Lemma predicted_box_keeps_size_witness :
  let t := Track.update Env.sqrt Examples.tA (mkBBox 2 0 12 10) (9 # 10) in
  let c := mkBBox 2 0 12 10 in
  let p := snd (Track.predict t) in
  let v := Track.velocity (fst (Track.predict t)) in
  (b2 p - b0 p == b2 c - b0 c)%Q
  /\ (b3 p - b1 p == b3 c - b1 c)%Q
  /\ (Track.center_x p == Track.center_x c + fst v)%Q
  /\ (Track.center_y p == Track.center_y c + snd v)%Q.
Proof.
  apply (predicted_box_keeps_size
           (Track.update Env.sqrt Examples.tA (mkBBox 2 0 12 10) (9 # 10))
           (mkBBox 2 0 12 10)).
  - vm_compute. lia.
  - reflexivity.
Defined.

(** ** The dummy results *)

Lemma fold_bump_repeat n : forall (m : gmap Z Z) id,
  fold_left bump (repeat id n) m
  = if (n =? 0)%nat then m
    else <[id := default 0 (m !! id) + Z.of_nat n]> m.
Proof.
  induction n as [|n IH]; intros m id; [reflexivity|].
  cbn [repeat fold_left]. rewrite IH. unfold bump.
  destruct n as [|n]; cbn [Nat.eqb].
  - reflexivity.
  - rewrite lookup_insert_eq, insert_insert_eq. simpl default.
    f_equal. lia.
Qed.

Lemma fold_max_repeat n : forall a id,
  fold_left Z.max (repeat id n) a = if (n =? 0)%nat then a else Z.max a id.
Proof.
  induction n as [|n IH]; intros a id; [reflexivity|].
  cbn [repeat fold_left]. rewrite IH. destruct n; simpl; lia.
Qed.

(** X24.  For a video of at least one frame, the dummy results are
    consistent with themselves: there is a frame result, [total_tracks] is
    the number of distinct ids in the frame results, and the statistics
    they carry are the ones [calculate_tracking_stats] computes from their
    frame results. *)
Theorem dummy_results_are_consistent {Frame} (frames : list Frame) :
  frames <> [] ->
  let r := TrackingService.get_dummy_tracking_results frames in
  let s := TrackingService.calculate_tracking_stats
             (TrackingService.frame_results r) in
  TrackingService.frame_results r <> []
  /\ TrackingService.total_tracks r
     = Z.of_nat (distinct_ids (TrackingService.frame_results r))
  /\ TrackingService.st_total_tracks (TrackingService.stats r)
     = TrackingService.st_total_tracks s
  /\ TrackingService.st_total_detections (TrackingService.stats r)
     = TrackingService.st_total_detections s
  /\ TrackingService.st_track_durations (TrackingService.stats r)
     = TrackingService.st_track_durations s
  /\ (TrackingService.st_avg_track_duration (TrackingService.stats r)
      == TrackingService.st_avg_track_duration s)%Q.
Proof.
  intros Hne r. cbv zeta.
  set (frs := TrackingService.frame_results r).
  set (s := TrackingService.calculate_tracking_stats frs).
  set (n := length frs).
  assert (Hn : (0 < n)%nat).
  { subst n frs r. destruct frames as [|f frames]; [contradiction|].
    unfold TrackingService.get_dummy_tracking_results. simpl. lia. }
  assert (Hids : emitted_ids frs = repeat 1 n).
  { subst n frs r. unfold TrackingService.get_dummy_tracking_results.
    cbn [TrackingService.frame_results]. unfold emitted_ids, emitted.
    generalize (List.filter (fun r => Z.of_nat (oid r) mod 5 =? 0)
                            (refs_from 0 frames)).
    intros l. induction l as [|x l IH]; simpl; [reflexivity|].
    rewrite IH. reflexivity. }
  assert (Hem : length (emitted frs) = n).
  { rewrite <- (length_map TrackingService.td_track_id).
    fold (emitted_ids frs). rewrite Hids, repeat_length. reflexivity. }
  assert (Hdist : distinct_ids frs = 1%nat).
  { unfold distinct_ids. rewrite Hids. destruct n as [|k]; [lia|].
    clear. induction k as [|k IH].
    - cbn [repeat]. rewrite list_to_set_cons, list_to_set_nil, union_empty_r_L.
      apply size_singleton.
    - change (repeat 1 (S (S k))) with (1 :: repeat 1 (S k)).
      rewrite list_to_set_cons. cbn [repeat] in *.
      rewrite list_to_set_cons in *.
      rewrite union_assoc_L, union_idemp_L. exact IH. }
  destruct (calculate_tracking_stats_spec frs)
    as (Htot & _ & _ & Havg & Hmax).
  fold s in Htot, Havg, Hmax.
  assert (Hdur : TrackingService.st_track_durations s = {[ 1 := Z.of_nat n ]}).
  { subst s. unfold TrackingService.calculate_tracking_stats.
    rewrite fold_count_frame. cbn [TrackingService.st_track_durations].
    rewrite Hids, fold_bump_repeat.
    destruct (n =? 0)%nat eqn:E; [apply Nat.eqb_eq in E; lia|].
    rewrite lookup_empty. simpl. reflexivity. }
  split; [intros H; subst n; rewrite H in Hn; simpl in Hn; lia|].
  split; [rewrite Hdist; reflexivity|].
  split; [rewrite Hmax, Hids, fold_max_repeat;
          destruct (n =? 0)%nat eqn:E; [apply Nat.eqb_eq in E; lia|reflexivity]|].
  split; [rewrite Htot, Hem; reflexivity|].
  split; [rewrite Hdur; reflexivity|].
  rewrite Havg, Hdist, Hem. simpl. unfold Qdiv.
  change (/ inject_Z 1)%Q with 1%Q. rewrite Qmult_1_r. reflexivity.
Qed.

(** X24 at [Examples.video]. *)
Lemma dummy_results_are_consistent_witness :
  let r := TrackingService.get_dummy_tracking_results Examples.video in
  let s := TrackingService.calculate_tracking_stats
             (TrackingService.frame_results r) in
  TrackingService.frame_results r <> []
  /\ TrackingService.total_tracks r
     = Z.of_nat (distinct_ids (TrackingService.frame_results r))
  /\ TrackingService.st_total_tracks (TrackingService.stats r)
     = TrackingService.st_total_tracks s
  /\ TrackingService.st_total_detections (TrackingService.stats r)
     = TrackingService.st_total_detections s
  /\ TrackingService.st_track_durations (TrackingService.stats r)
     = TrackingService.st_track_durations s
  /\ (TrackingService.st_avg_track_duration (TrackingService.stats r)
      == TrackingService.st_avg_track_duration s)%Q.
Proof.
  apply (dummy_results_are_consistent Examples.video). discriminate.
Defined.

(** ** Frames without detections *)

Lemma associate_no_detections scipy fuel self trs :
  exists ut,
    EnhancedTracker.associate_detections_to_tracks scipy fuel self [] trs
    = Ret ([], [], ut).
Proof.
  unfold EnhancedTracker.associate_detections_to_tracks.
  destruct (length trs =? 0)%nat; simpl; eauto.
Qed.

Lemma mark_unmatched_none store :
  EnhancedTracker.mark_unmatched [] store = map Track.mark_missed store.
Proof.
  unfold EnhancedTracker.mark_unmatched. generalize 0%nat.
  induction store as [|t store IH]; intros k; simpl; [reflexivity|].
  rewrite IH. reflexivity.
Qed.

Section Empty.
Variable sqrt : Q -> Q.
Variable scipy : option (list (list Q) -> list nat * list nat).

(** The stages of a call without detections match nothing and leave the
    tracks as [predict] left them. *)
Lemma run_stages_no_detections fuel self :
  exists s,
    EnhancedTracker.run_stages sqrt scipy fuel self [] = Ret s
    /\ EnhancedTracker.matched_high_conf s = []
    /\ EnhancedTracker.matched_unconfirmed s = []
    /\ EnhancedTracker.matched_low_conf s = []
    /\ EnhancedTracker.creators s = []
    /\ EnhancedTracker.tracks (EnhancedTracker.after_stages s)
       = map (fun t => fst (Track.predict t)) (EnhancedTracker.tracks self)
    /\ EnhancedTracker.max_age (EnhancedTracker.after_stages s)
       = EnhancedTracker.max_age self
    /\ EnhancedTracker.min_hits (EnhancedTracker.after_stages s)
       = EnhancedTracker.min_hits self
    /\ EnhancedTracker.iou_threshold (EnhancedTracker.after_stages s)
       = EnhancedTracker.iou_threshold self
    /\ EnhancedTracker.frame_count (EnhancedTracker.after_stages s)
       = EnhancedTracker.frame_count self + 1
    /\ EnhancedTracker.next_id (EnhancedTracker.after_stages s)
       = EnhancedTracker.next_id self.
Proof.
  unfold EnhancedTracker.run_stages. cbn [refs_from List.filter].
  repeat match goal with
  | |- context [EnhancedTracker.associate_detections_to_tracks ?a ?b ?c [] ?e] =>
      let ut := fresh "ut" in let E := fresh "E" in
      destruct (associate_no_detections a b c e) as [ut E];
      rewrite E; cbn [mbind res_bind]
  end.
  eexists. split; [reflexivity|]. repeat split; reflexivity.
Qed.

(** X25.  A call of [update] without detections returns, whether [scipy]
    is there or not and with any fuel: it creates no track, leaves
    [next_id] as it is, advances [frame_count], and returns the tracks it
    was given, each after [predict] and [mark_missed], less those whose
    [time_since_update] has reached [max_age]. *)
Theorem update_without_detections fuel self :
  EnhancedTracker.update sqrt scipy fuel self []
  = Ret {| EnhancedTracker.max_age := EnhancedTracker.max_age self;
           EnhancedTracker.min_hits := EnhancedTracker.min_hits self;
           EnhancedTracker.iou_threshold := EnhancedTracker.iou_threshold self;
           EnhancedTracker.tracks :=
             List.filter
               (fun t => Track.time_since_update t <? EnhancedTracker.max_age self)
               (map (fun t => Track.mark_missed (fst (Track.predict t)))
                    (EnhancedTracker.tracks self));
           EnhancedTracker.frame_count := EnhancedTracker.frame_count self + 1;
           EnhancedTracker.next_id := EnhancedTracker.next_id self |}.
Proof.
  destruct (run_stages_no_detections fuel self)
    as (s & Hs & HA & HB & HC & Hcr & Htr & Hma & Hmh & Hthr & Hfc & Hid).
  unfold EnhancedTracker.update. rewrite Hs. cbn [mbind res_bind mret res_ret].
  rewrite finish_spec. cbv zeta.
  rewrite HA, HB, HC, Hcr, Htr, Hma, Hmh, Hthr, Hfc, Hid.
  cbn [app map new_tracks length].
  rewrite app_nil_r, mark_unmatched_none, map_map, Z.add_0_r. reflexivity.
Qed.

(** What a call without detections does to the tracks. *)
Lemma update_no_detections_tracks fuel self :
  exists self',
    EnhancedTracker.update sqrt scipy fuel self [] = Ret self'
    /\ EnhancedTracker.max_age self' = EnhancedTracker.max_age self
    /\ forall k, Forall (fun t => k <= Track.time_since_update t)
                        (EnhancedTracker.tracks self) ->
         Forall (fun t => k + 1 <= Track.time_since_update t
                          < EnhancedTracker.max_age self)
                (EnhancedTracker.tracks self').
Proof.
  destruct (run_stages_no_detections fuel self)
    as (s & Hs & HA & HB & HC & Hcr & Htr & Hma & _).
  unfold EnhancedTracker.update. rewrite Hs. cbn [mbind res_bind mret res_ret].
  eexists. split; [reflexivity|]. rewrite finish_spec. cbv zeta.
  cbn [EnhancedTracker.max_age EnhancedTracker.tracks].
  split; [exact Hma|]. intros k Hk.
  rewrite HA, HB, HC, Hcr, Htr, Hma. cbn [app map new_tracks].
  rewrite app_nil_r, mark_unmatched_none, map_map.
  apply List.Forall_forall. intros t' Ht'. apply filter_In in Ht' as [Ht' Hlt].
  apply Z.ltb_lt in Hlt. split; [|exact Hlt].
  apply in_map_iff in Ht' as (t & <- & Ht).
  pose proof (proj1 (List.Forall_forall _ _) Hk t Ht) as Hkt.
  cbn [Track.mark_missed Track.time_since_update].
  rewrite predict_time_since_update. simpl in Hkt. lia.
Qed.

Lemma blank_frames fuel n : forall self k,
  Forall (fun t => k <= Track.time_since_update t)
         (EnhancedTracker.tracks self) ->
  exists self',
    EnhancedTracker.updates sqrt scipy fuel self (repeat [] (S n)) = Ret self'
    /\ Forall (fun t => k + Z.of_nat (S n) <= Track.time_since_update t
                        < EnhancedTracker.max_age self)
              (EnhancedTracker.tracks self').
Proof.
  induction n as [|n IH]; intros self k Hk;
    cbn [repeat EnhancedTracker.updates];
    destruct (update_no_detections_tracks fuel self) as (self1 & E & Hma & H1);
    rewrite E; cbn [mbind res_bind]; specialize (H1 k Hk).
  - exists self1. split; [reflexivity|].
    eapply Forall_impl; [exact H1|]. intros t Ht. simpl in Ht. lia.
  - destruct (IH self1 (k + 1)) as (self' & E' & H').
    + eapply Forall_impl; [exact H1|]. intros t Ht. simpl in Ht. lia.
    + exists self'. split; [exact E'|].
      eapply Forall_impl; [exact H'|]. intros t Ht. simpl in Ht. lia.
Qed.

(** X26.  A tracker that is given no detection for [n >= max_age] calls in
    a row ([n >= 1]) holds no track afterwards, and each of these calls
    returns. *)
Theorem blank_frames_clear_the_tracker fuel self (n : nat) :
  Forall (fun t => 0 <= Track.time_since_update t)
         (EnhancedTracker.tracks self) ->
  (0 < n)%nat -> EnhancedTracker.max_age self <= Z.of_nat n ->
  exists self',
    EnhancedTracker.updates sqrt scipy fuel self (repeat [] n) = Ret self'
    /\ EnhancedTracker.tracks self' = [].
Proof.
  intros H0 Hn Hage. destruct n as [|n]; [lia|].
  destruct (blank_frames fuel n self 0 H0) as (self' & E & H).
  exists self'. split; [exact E|].
  destruct (EnhancedTracker.tracks self') as [|t ts]; [reflexivity|].
  apply Forall_cons in H as [Ht _]. lia.
Qed.
End Empty.

(** X26 at the tracker whose one track has missed 29 frames, for 30 blank
    frames. *)
Lemma blank_frames_clear_the_tracker_witness :
  exists self',
    EnhancedTracker.updates Env.sqrt Examples.scipy 0 Examples.tracker_old
      (repeat [] 30) = Ret self'
    /\ EnhancedTracker.tracks self' = [].
Proof.
  apply (blank_frames_clear_the_tracker Env.sqrt Examples.scipy 0
           Examples.tracker_old 30).
  - constructor; [vm_compute; discriminate|constructor].
  - lia.
  - vm_compute. discriminate.
Defined.

(** ** Matched boxes *)

Lemma overlap_positive_inv lo1 hi1 lo2 hi2 :
  (0 < overlap lo1 hi1 lo2 hi2)%Q -> (Py.max lo1 lo2 < Py.min hi1 hi2)%Q.
Proof.
  unfold overlap. intros H.
  destruct (Py.ltb 0 (Py.min hi1 hi2 - Py.max lo1 lo2)) eqn:E.
  - apply ltb_lt in E. lra.
  - unfold Py.max at 1 in H. rewrite E in H. lra.
Qed.

Lemma iou_positive_overlapping a b :
  (0 < EnhancedTracker.iou a b)%Q -> overlapping a b.
Proof.
  rewrite iou_unfold. cbv zeta. intros H.
  pose proof (overlap_nonneg (b0 a) (b2 a) (b0 b) (b2 b)) as Hx.
  pose proof (overlap_nonneg (b1 a) (b3 a) (b1 b) (b3 b)) as Hy.
  assert (Hi : (0 < overlap (b0 a) (b2 a) (b0 b) (b2 b)
                    * overlap (b1 a) (b3 a) (b1 b) (b3 b))%Q).
  { destruct (Py.ltb 0 _) eqn:E; [|lra]. apply ltb_lt in E.
    destruct (Qlt_le_dec 0 (overlap (b0 a) (b2 a) (b0 b) (b2 b)
                            * overlap (b1 a) (b3 a) (b1 b) (b3 b)))
      as [Hp|Hz]; [exact Hp|].
    assert (Hz' : (overlap (b0 a) (b2 a) (b0 b) (b2 b)
                   * overlap (b1 a) (b3 a) (b1 b) (b3 b) == 0)%Q).
    { apply Qle_antisym; [exact Hz|]. apply Qmult_le_0_compat; assumption. }
    rewrite Hz' in H. unfold Qdiv in H. lra. }
  split; apply overlap_positive_inv.
  - destruct (Qlt_le_dec 0 (overlap (b0 a) (b2 a) (b0 b) (b2 b)))
      as [Hp|Hz]; [exact Hp|].
    assert (Hz' : (overlap (b0 a) (b2 a) (b0 b) (b2 b) == 0)%Q) by lra.
    rewrite Hz' in Hi. lra.
  - destruct (Qlt_le_dec 0 (overlap (b1 a) (b3 a) (b1 b) (b3 b)))
      as [Hp|Hz]; [exact Hp|].
    assert (Hz' : (overlap (b1 a) (b3 a) (b1 b) (b3 b) == 0)%Q) by lra.
    rewrite Hz' in Hi. lra.
Qed.

Section Overlap.
Variable self : EnhancedTracker.t.

(** X27.  With an [iou_threshold] that is not negative, the associator
    matches a track and a detection, through the solver or through the
    greedy fallback, only when their boxes share a region of positive
    area. *)
Theorem matched_boxes_overlap scipy fuel dets trs m ud ut :
  (0 <= EnhancedTracker.iou_threshold self)%Q ->
  EnhancedTracker.associate_detections_to_tracks scipy fuel self dets trs
  = Ret (m, ud, ut) ->
  Forall (fun p =>
            overlapping
              (Track.bbox (deref (EnhancedTracker.tracks self) (fst p)))
              (Detection.bbox (val (snd p)))) m.
Proof.
  intros Hthr Hret.
  assert (Hm : Forall (above_threshold self) m).
  { revert Hret. unfold EnhancedTracker.associate_detections_to_tracks.
    destruct (length trs =? 0)%nat; [intros [= <- _ _]; constructor|].
    destruct (length dets =? 0)%nat; [intros [= <- _ _]; constructor|].
    destruct scipy as [lsa|].
    - destruct (lsa _) as [ti di].
      destruct (EnhancedTracker.find_matches _ _ _ _ _ _ _ _)
        as [[[m0 ut0] ud0]| |] eqn:Efm; simpl; try discriminate.
      intros [= <- _ _].
      apply find_matches_spec in Efm as (H & _); [exact H|constructor].
    - apply greedy_loop_above. constructor. }
  eapply Forall_impl; [exact Hm|].
  intros [r d] Hp. apply iou_positive_overlapping.
  unfold above_threshold, iou_of in Hp. simpl in *. lra.
Qed.
End Overlap.

(** X27 at the tracker that holds [tA], for the detection [dA]. *)
Lemma matched_boxes_overlap_witness :
  Forall (fun p =>
            overlapping
              (Track.bbox (deref (EnhancedTracker.tracks Examples.trackerA)
                                 (fst p)))
              (Detection.bbox (val (snd p))))
         [(0%nat, Examples.rA)].
Proof.
  apply (matched_boxes_overlap Examples.trackerA Examples.scipy 0
           [Examples.rA] [0%nat] [(0%nat, Examples.rA)] [] []).
  - vm_compute. discriminate.
  - vm_compute. reflexivity.
Defined.

(** ** A steady object *)

Lemma one_minus_min_small y :
  (y <= 1 # 100)%Q -> (99 # 100 <= 1 - Py.min 1 y)%Q.
Proof.
  intros Hy. unfold Py.min.
  destruct (Py.ltb y 1) eqn:E; [lra|]. apply ltb_ge in E. lra.
Qed.

(** X28.  With a square root that is at most 0.01 at 0: a track that is
    created from a box and a confidence between 0 and 1 and then updated
    twice with the same box and the same confidence has 3 hits, a stability
    and a consistency of 0.99 or more, a quality above 0.6, and is
    confirmed. *)
Theorem third_steady_hit_confirms sqrt (b : BBox) (c : Q) (cid : Z)
    (cname : string) (id : Z) :
  small_at_zero sqrt -> (0 <= c)%Q -> (c <= 1)%Q ->
  let t := Track.update sqrt
             (Track.update sqrt (Track.init b c cid cname id) b c) b c in
  Track.hits t = 3
  /\ (99 # 100 <= Track.stability_score t)%Q
  /\ (99 # 100 <= Track.consistency_score t)%Q
  /\ (6 # 10 < Track.quality_score t)%Q
  /\ Track.state t = confirmed.
Proof.
  intros Hs Hc Hc1.
  set (v := Track.calculate_bbox_variation sqrt b b).
  assert (Hv : (v <= 1 # 100)%Q).
  { apply Hs. unfold Track.center_x, Track.center_y. field. }
  set (sd := Track.std sqrt [c; c; c]).
  assert (Hsd : (sd <= 1 # 100)%Q).
  { apply Hs. unfold Py.mean, Py.sum. simpl. field. }
  assert (Hst : (99 # 100 <= 1 - Py.min 1 (Py.mean [v; v] / 100))%Q).
  { apply one_minus_min_small. unfold Py.mean, Py.sum. simpl.
    unfold Qdiv. change (/ inject_Z (Z.of_nat 2))%Q with (1 # 2)%Q.
    change (/ 100)%Q with (1 # 100)%Q. lra. }
  assert (Hco : (99 # 100 <= 1 - Py.min 1 sd)%Q).
  { apply one_minus_min_small. exact Hsd. }
  cbv zeta.
  assert (Heq : Track.update sqrt
                  (Track.update sqrt (Track.init b c cid cname id) b c) b c
                = let q := ((c + (1 - Py.min 1 (Py.mean [v; v] / 100))
                             + (1 - Py.min 1 sd)) / 3)%Q in
                  {| Track.bbox := b; Track.confidence := c;
                     Track.class_id := cid; Track.class_name := cname;
                     Track.track_id := id; Track.hits := 3; Track.age := 2;
                     Track.time_since_update := 0;
                     Track.state :=
                       if Py.ltb (6 # 10) q then confirmed else tentative;
                     Track.history := [b; b; b];
                     Track.confidence_history := [c; c; c];
                     Track.velocity := (0, 0)%Q;
                     Track.acceleration := (0, 0)%Q;
                     Track.stability_score :=
                       (1 - Py.min 1 (Py.mean [v; v] / 100))%Q;
                     Track.consistency_score := (1 - Py.min 1 sd)%Q;
                     Track.quality_score := q |}).
  { reflexivity. }
  rewrite Heq. cbv zeta.
  cbn [Track.hits Track.stability_score Track.consistency_score
       Track.quality_score Track.state].
  assert (Hq : (6 # 10 < (c + (1 - Py.min 1 (Py.mean [v; v] / 100))
                          + (1 - Py.min 1 sd)) / 3)%Q).
  { unfold Qdiv at 1. change (/ 3)%Q with (1 # 3)%Q. lra. }
  split; [reflexivity|]. split; [exact Hst|]. split; [exact Hco|].
  split; [exact Hq|].
  destruct (Py.ltb _ _) eqn:E; [reflexivity|].
  apply ltb_ge in E. exfalso. lra.
Qed.

Lemma Env_sqrt_small_at_zero : small_at_zero Env.sqrt.
Proof.
  intros x Hx. unfold Env.sqrt.
  assert (E : Qle_bool x 0 = true) by (apply Qle_bool_iff; lra).
  rewrite E. discriminate.
Qed.

(** X28 at the box and the confidence of [Examples.dA]. *)
Lemma third_steady_hit_confirms_witness :
  let t := Track.update Env.sqrt
             (Track.update Env.sqrt
                (Track.init (mkBBox 0 0 10 10) (9 # 10) 0 "person" 1)
                (mkBBox 0 0 10 10) (9 # 10))
             (mkBBox 0 0 10 10) (9 # 10) in
  Track.hits t = 3
  /\ (99 # 100 <= Track.stability_score t)%Q
  /\ (99 # 100 <= Track.consistency_score t)%Q
  /\ (6 # 10 < Track.quality_score t)%Q
  /\ Track.state t = confirmed.
Proof.
  apply (third_steady_hit_confirms Env.sqrt (mkBBox 0 0 10 10) (9 # 10) 0
           "person" 1).
  - exact Env_sqrt_small_at_zero.
  - discriminate.
  - discriminate.
Defined.

(** ** The prediction step and the associations *)

Section Boxes.
Variables a b : EnhancedTracker.t.
Hypothesis Hsame : same_boxes a b.

Lemma cost_matrix_boxes trs dets :
  EnhancedTracker.cost_matrix a trs dets = EnhancedTracker.cost_matrix b trs dets.
Proof.
  unfold EnhancedTracker.cost_matrix. apply map_ext. intros r.
  apply map_ext. intros d. rewrite (proj2 Hsame r). reflexivity.
Qed.

Lemma find_matches_boxes cost trs dets pairs : forall m ut ud,
  EnhancedTracker.find_matches a cost trs dets pairs m ut ud
  = EnhancedTracker.find_matches b cost trs dets pairs m ut ud.
Proof.
  induction pairs as [|[i j] pairs IH]; intros m ut ud; simpl; [reflexivity|].
  destruct (subscript cost i) as [row| |]; simpl; try reflexivity.
  destruct (subscript row j) as [c| |]; simpl; try reflexivity.
  destruct (subscript trs i) as [r| |]; simpl; try reflexivity.
  destruct (subscript dets j) as [d| |]; simpl; try reflexivity.
  rewrite (proj1 Hsame). destruct (Py.ltb _ _); apply IH.
Qed.

Lemma consider_boxes d best r :
  EnhancedTracker.consider a d best r = EnhancedTracker.consider b d best r.
Proof.
  unfold EnhancedTracker.consider. destruct best as [bt bi].
  rewrite (proj2 Hsame r), (proj1 Hsame). reflexivity.
Qed.

Lemma best_track_boxes d trs :
  EnhancedTracker.best_track a d trs = EnhancedTracker.best_track b d trs.
Proof.
  unfold EnhancedTracker.best_track. generalize (@None nat, 0%Q).
  induction trs as [|r trs IH]; intros acc; simpl; [reflexivity|].
  rewrite consider_boxes. apply IH.
Qed.

Lemma greedy_step_boxes st :
  EnhancedTracker.greedy_step a st = EnhancedTracker.greedy_step b st.
Proof.
  unfold EnhancedTracker.greedy_step.
  destruct (_ !! _) as [d|]; [|reflexivity].
  rewrite best_track_boxes. reflexivity.
Qed.

Lemma greedy_loop_boxes fuel : forall st,
  EnhancedTracker.greedy_loop fuel a st = EnhancedTracker.greedy_loop fuel b st.
Proof.
  induction fuel as [|n IH]; intros st; simpl; [reflexivity|].
  rewrite greedy_step_boxes. destruct (EnhancedTracker.greedy_step b st);
    [apply IH|reflexivity].
Qed.

(** The associator reads nothing of a track but its box. *)
Lemma associate_boxes scipy fuel dets trs :
  EnhancedTracker.associate_detections_to_tracks scipy fuel a dets trs
  = EnhancedTracker.associate_detections_to_tracks scipy fuel b dets trs.
Proof.
  unfold EnhancedTracker.associate_detections_to_tracks.
  destruct (length trs =? 0)%nat; [reflexivity|].
  destruct (length dets =? 0)%nat; [reflexivity|].
  destruct scipy as [lsa|].
  - rewrite cost_matrix_boxes. destruct (lsa _) as [ti di].
    rewrite find_matches_boxes. reflexivity.
  - apply greedy_loop_boxes.
Qed.
End Boxes.

Lemma deref_map_state (f : Track.t -> Track.t) (store : list Track.t)
    (r : track_ref) :
  (forall t, Track.state (f t) = Track.state t) ->
  Track.state (deref (map f store) r) = Track.state (deref store r).
Proof.
  intros Hf. unfold deref. rewrite list_lookup_fmap.
  destruct (store !! r); simpl; [apply Hf|reflexivity].
Qed.

Lemma tracks_in_state_predict st store :
  EnhancedTracker.tracks_in_state st
    (map (fun t => fst (Track.predict t)) store)
  = EnhancedTracker.tracks_in_state st store.
Proof.
  unfold EnhancedTracker.tracks_in_state. rewrite length_map.
  apply filter_ext. intros r.
  rewrite (deref_map_state _ _ _ predict_state). reflexivity.
Qed.

(** Updates applied to two stores that agree on the boxes leave stores that
    agree on the boxes: [Track.update] stores the box it is given. *)
Lemma apply_updates_boxes sqrt m : forall s1 s2,
  Forall2 (fun t1 t2 => Track.bbox t1 = Track.bbox t2) s1 s2 ->
  Forall2 (fun t1 t2 => Track.bbox t1 = Track.bbox t2)
          (EnhancedTracker.apply_updates sqrt m s1)
          (EnhancedTracker.apply_updates sqrt m s2).
Proof.
  unfold EnhancedTracker.apply_updates.
  induction m as [|[r d] m IH]; intros s1 s2 H; simpl; [exact H|].
  apply IH. apply Forall2_alter; [exact H|].
  intros t1 t2 _ _ _. unfold Track.update.
  destruct (15 <? _)%nat, (15 <? _)%nat; reflexivity.
Qed.

Lemma Forall2_boxes_deref s1 s2 r :
  Forall2 (fun t1 t2 => Track.bbox t1 = Track.bbox t2) s1 s2 ->
  Track.bbox (deref s1 r) = Track.bbox (deref s2 r).
Proof.
  intros H. unfold deref.
  destruct (s1 !! r) as [t1|] eqn:E1.
  - destruct (Forall2_lookup_l _ _ _ _ _ H E1) as (t2 & E2 & Hb).
    rewrite E2. exact Hb.
  - apply lookup_ge_None in E1. rewrite (Forall2_length _ _ _ H) in E1.
    apply lookup_ge_None in E1. rewrite E1. reflexivity.
Qed.

Lemma predict_boxes store :
  Forall2 (fun t1 t2 => Track.bbox t1 = Track.bbox t2)
          (map (fun t => fst (Track.predict t)) store) store.
Proof.
  induction store as [|t store IH]; simpl; constructor; [|exact IH].
  apply predict_bbox.
Qed.

Section Calls.
Variable sqrt : Q -> Q.
Variable scipy : option (list (list Q) -> list nat * list nat).

(** The three associations of a call, as they would be run on the tracks
    the call received, without the prediction step. *)
Lemma run_stages_without_predict fuel self dets s :
  EnhancedTracker.run_stages sqrt scipy fuel self dets = Ret s ->
  let before := EnhancedTracker.tracks self in
  let on := EnhancedTracker.set_tracks self in
  EnhancedTracker.confirmed_tracks s
  = EnhancedTracker.tracks_in_state confirmed before
  /\ EnhancedTracker.unconfirmed_tracks s
     = EnhancedTracker.tracks_in_state tentative before
  /\ exists selfA selfB selfC uB tB uC tC,
       EnhancedTracker.tracks selfA = EnhancedTracker.store_at_A s
       /\ EnhancedTracker.tracks selfB = EnhancedTracker.store_at_B s
       /\ EnhancedTracker.tracks selfC = EnhancedTracker.store_at_C s
       /\ EnhancedTracker.associate_detections_to_tracks scipy fuel selfA
            (EnhancedTracker.high_conf_detections s)
            (EnhancedTracker.confirmed_tracks s)
          = Ret (EnhancedTracker.matched_high_conf s,
                 EnhancedTracker.unmatched_high_conf s,
                 EnhancedTracker.unmatched_confirmed s)
       /\ EnhancedTracker.associate_detections_to_tracks scipy fuel selfB
            (EnhancedTracker.unmatched_high_conf s)
            (EnhancedTracker.unconfirmed_tracks s)
          = Ret (EnhancedTracker.matched_unconfirmed s, uB, tB)
       /\ EnhancedTracker.associate_detections_to_tracks scipy fuel selfC
            (EnhancedTracker.low_conf_detections s)
            (EnhancedTracker.unmatched_confirmed_after_high s)
          = Ret (EnhancedTracker.matched_low_conf s, uC, tC)
       /\ EnhancedTracker.associate_detections_to_tracks scipy fuel (on before)
            (EnhancedTracker.high_conf_detections s)
            (EnhancedTracker.confirmed_tracks s)
          = Ret (EnhancedTracker.matched_high_conf s,
                 EnhancedTracker.unmatched_high_conf s,
                 EnhancedTracker.unmatched_confirmed s)
       /\ EnhancedTracker.associate_detections_to_tracks scipy fuel
            (on (EnhancedTracker.apply_updates sqrt
                   (EnhancedTracker.matched_high_conf s) before))
            (EnhancedTracker.unmatched_high_conf s)
            (EnhancedTracker.unconfirmed_tracks s)
          = Ret (EnhancedTracker.matched_unconfirmed s, uB, tB)
       /\ EnhancedTracker.associate_detections_to_tracks scipy fuel
            (on (EnhancedTracker.apply_updates sqrt
                   (EnhancedTracker.matched_unconfirmed s)
                   (EnhancedTracker.apply_updates sqrt
                      (EnhancedTracker.matched_high_conf s) before)))
            (EnhancedTracker.low_conf_detections s)
            (EnhancedTracker.unmatched_confirmed_after_high s)
          = Ret (EnhancedTracker.matched_low_conf s, uC, tC).
Proof.
  intros H before on. unfold EnhancedTracker.run_stages in H.
  match type of H with
  | context [EnhancedTracker.associate_detections_to_tracks ?a ?b ?c ?d ?e] =>
      destruct (EnhancedTracker.associate_detections_to_tracks a b c d e)
        as [[[mA uA] tA]| |] eqn:EA; simpl in H; try discriminate
  end.
  match type of H with
  | context [EnhancedTracker.associate_detections_to_tracks ?a ?b ?c ?d ?e] =>
      destruct (EnhancedTracker.associate_detections_to_tracks a b c d e)
        as [[[mB uB] tB]| |] eqn:EB; simpl in H; try discriminate
  end.
  match type of H with
  | context [EnhancedTracker.associate_detections_to_tracks ?a ?b ?c ?d ?e] =>
      destruct (EnhancedTracker.associate_detections_to_tracks a b c d e)
        as [[[mC uC] tC]| |] eqn:EC; simpl in H; try discriminate
  end.
  injection H as Hs. subst s.
  cbn [EnhancedTracker.confirmed_tracks EnhancedTracker.unconfirmed_tracks
       EnhancedTracker.high_conf_detections EnhancedTracker.low_conf_detections
       EnhancedTracker.matched_high_conf EnhancedTracker.unmatched_high_conf
       EnhancedTracker.unmatched_confirmed EnhancedTracker.matched_unconfirmed
       EnhancedTracker.matched_low_conf
       EnhancedTracker.unmatched_confirmed_after_high
       EnhancedTracker.store_at_A EnhancedTracker.store_at_B
       EnhancedTracker.store_at_C
       EnhancedTracker.set_tracks EnhancedTracker.tracks].
  split; [apply tracks_in_state_predict|].
  split; [apply tracks_in_state_predict|].
  eexists _, _, _, uB, tB, uC, tC.
  split; [|split; [|split; [|split; [exact EA|split; [exact EB|
    split; [exact EC|]]]]]]; try reflexivity.
  pose proof (predict_boxes before) as HP.
  pose proof (apply_updates_boxes sqrt mA _ _ HP) as HA.
  pose proof (apply_updates_boxes sqrt mB _ _ HA) as HB.
  split; [|split].
  - refine (eq_trans (associate_boxes (on before) _ _ scipy fuel _ _) EA).
    split; [reflexivity|]. intros r. symmetry.
    apply Forall2_boxes_deref. exact HP.
  - refine (eq_trans (associate_boxes _ _ _ scipy fuel _ _) EB).
    split; [reflexivity|]. intros r. symmetry.
    apply Forall2_boxes_deref. exact HA.
  - refine (eq_trans (associate_boxes _ _ _ scipy fuel _ _) EC).
    split; [reflexivity|]. intros r. symmetry.
    apply Forall2_boxes_deref. exact HB.
Qed.

(** The box a track has when a stage associates: the box it had when the
    call began, or the box of a detection of the call. *)
Lemma stage_boxes_observed fuel self dets s r t0 :
  EnhancedTracker.run_stages sqrt scipy fuel self dets = Ret s ->
  EnhancedTracker.tracks self !! r = Some t0 ->
  Forall
    (fun store =>
       exists t1, store !! r = Some t1
         /\ (Track.bbox t1 = Track.bbox t0
             \/ exists d, In d dets /\ Track.bbox t1 = Detection.bbox d))
    [EnhancedTracker.store_at_A s; EnhancedTracker.store_at_B s;
     EnhancedTracker.store_at_C s].
Proof.
  intros Hrun Hr.
  destruct (run_stages_inv _ _ _ _ _ _ Hrun)
    as (_ & _ & _ & _ & _ & _ & _ & _ & _ & _ & _ & _ & _ & HsB & HsC & _).
  destruct (run_stages_after _ _ _ _ _ _ Hrun) as (HsA & _).
  destruct (stage_detections_incl _ _ _ _ _ _ Hrun) as (Hm & _ & _).
  assert (HA : EnhancedTracker.store_at_A s !! r
               = Some (fst (Track.predict t0))).
  { rewrite HsA, list_lookup_fmap, Hr. reflexivity. }
  constructor; [|constructor; [|constructor; [|constructor]]].
  - eexists. split; [exact HA|]. left. apply predict_bbox.
  - rewrite HsB.
    destruct (apply_updates_at sqrt (EnhancedTracker.matched_high_conf s)
                _ r _ HA) as (t1 & Ht1 & _ & [[_ Heq]|(d & Hd & Hc & _)]);
      exists t1; (split; [exact Ht1|]).
    + left. rewrite Heq. apply predict_bbox.
    + right. exists (val d). split; [|apply Hc].
      apply (Hm r d). apply in_or_app. left. exact Hd.
  - rewrite HsC, HsB, <- apply_updates_app.
    destruct (apply_updates_at sqrt
                (EnhancedTracker.matched_high_conf s
                 ++ EnhancedTracker.matched_unconfirmed s)
                _ r _ HA) as (t1 & Ht1 & _ & [[_ Heq]|(d & Hd & Hc & _)]);
      exists t1; (split; [exact Ht1|]).
    + left. rewrite Heq. apply predict_bbox.
    + right. exists (val d). split; [|apply Hc].
      apply (Hm r d). rewrite app_assoc. apply in_or_app. left. exact Hd.
Qed.
End Calls.

Section Observed.
Variable sqrt : Q -> Q.
Variable scipy : option (list (list Q) -> list nat * list nat).

(** The stores the three associations of a call read hold, track by track,
    the boxes of the stores that the same updates give without the
    prediction step. *)
Lemma stage_stores_boxes fuel self dets s :
  EnhancedTracker.run_stages sqrt scipy fuel self dets = Ret s ->
  let before := EnhancedTracker.tracks self in
  let after_A :=
    EnhancedTracker.apply_updates sqrt (EnhancedTracker.matched_high_conf s)
      before in
  let after_B :=
    EnhancedTracker.apply_updates sqrt (EnhancedTracker.matched_unconfirmed s)
      after_A in
  Forall2 (Forall2 (fun t1 t2 => Track.bbox t1 = Track.bbox t2))
    [EnhancedTracker.store_at_A s; EnhancedTracker.store_at_B s;
     EnhancedTracker.store_at_C s]
    [before; after_A; after_B].
Proof.
  intros Hrun before after_A after_B.
  destruct (run_stages_inv _ _ _ _ _ _ Hrun)
    as (_ & _ & _ & _ & _ & _ & _ & _ & _ & _ & _ & _ & _ & HsB & HsC & _).
  destruct (run_stages_after _ _ _ _ _ _ Hrun) as (HsA & _).
  pose proof (predict_boxes before) as HP. fold before in HsA.
  rewrite <- HsA in HP.
  pose proof (apply_updates_boxes sqrt (EnhancedTracker.matched_high_conf s)
                _ _ HP) as HA.
  rewrite <- HsB in HA. fold after_A in HA.
  pose proof (apply_updates_boxes sqrt (EnhancedTracker.matched_unconfirmed s)
                _ _ HA) as HB.
  rewrite <- HsC in HB. fold after_B in HB.
  repeat constructor; assumption.
Qed.
End Observed.

(** C9.  [predict] assigns the velocity only: when the history has two
    entries or more the new velocity is [0.7 * old + 0.3 * displacement] of
    the centre between the last two boxes, and otherwise nothing changes.
    The box, history, confidence, scores, counters and state are as
    before.  In a call of [update] the prediction step runs first, and
    the three associations follow, on the stores [store_at_A],
    [store_at_B] and [store_at_C].
    - The associator and its cost matrix depend on the tracker through
      [iou_threshold] and the [bbox] of the tracks alone.
    - In each of these stores a track has the box it had when the call
      began or the box of a detection of the call.
    - The three associations are run on trackers that hold these stores,
      and their cost matrices and what they return are those of the same
      call without the prediction step: on the tracks as the call received
      them, and on these tracks after the updates of the first and of the
      second association. *)
Theorem C9_predict_changes_only_velocity (sqrt : Q -> Q)
    (scipy : option (list (list Q) -> list nat * list nat)) (fuel : nat)
    (self : Track.t) (tracker : EnhancedTracker.t) (dets : list Detection.t)
    (s : EnhancedTracker.stages) :
  EnhancedTracker.run_stages sqrt scipy fuel tracker dets = Ret s ->
  let self' := fst (Track.predict self) in
  let h := Track.history self in
  let prev_bbox := nth (length h - 2) h (Track.bbox self) in
  let curr_bbox := nth (length h - 1) h (Track.bbox self) in
  let before := EnhancedTracker.tracks tracker in
  let on := EnhancedTracker.set_tracks tracker in
  let after_A :=
    EnhancedTracker.apply_updates sqrt (EnhancedTracker.matched_high_conf s)
      before in
  let after_B :=
    EnhancedTracker.apply_updates sqrt (EnhancedTracker.matched_unconfirmed s)
      after_A in
  (Track.bbox self' = Track.bbox self
   /\ Track.history self' = Track.history self
   /\ Track.confidence self' = Track.confidence self
   /\ Track.confidence_history self' = Track.confidence_history self
   /\ Track.stability_score self' = Track.stability_score self
   /\ Track.consistency_score self' = Track.consistency_score self
   /\ Track.quality_score self' = Track.quality_score self
   /\ Track.hits self' = Track.hits self
   /\ Track.age self' = Track.age self
   /\ Track.time_since_update self' = Track.time_since_update self
   /\ Track.state self' = Track.state self
   /\ Track.class_id self' = Track.class_id self
   /\ Track.class_name self' = Track.class_name self
   /\ Track.track_id self' = Track.track_id self
   /\ Track.acceleration self' = Track.acceleration self)
  /\ Track.velocity self'
     = (if (2 <=? length h)%nat
        then (((7 # 10) * fst (Track.velocity self)
               + (3 # 10) * (Track.center_x curr_bbox - Track.center_x prev_bbox))%Q,
              ((7 # 10) * snd (Track.velocity self)
               + (3 # 10) * (Track.center_y curr_bbox - Track.center_y prev_bbox))%Q)
        else Track.velocity self)
  /\ (forall a b ds trs, same_boxes a b ->
        EnhancedTracker.cost_matrix a trs ds = EnhancedTracker.cost_matrix b trs ds
        /\ EnhancedTracker.associate_detections_to_tracks scipy fuel a ds trs
           = EnhancedTracker.associate_detections_to_tracks scipy fuel b ds trs)
  /\ EnhancedTracker.store_at_A s
     = map (fun track => fst (Track.predict track)) before
  /\ (forall r t0, before !! r = Some t0 ->
        Forall
          (fun store =>
             exists t1, store !! r = Some t1
               /\ (Track.bbox t1 = Track.bbox t0
                   \/ exists d, In d dets /\ Track.bbox t1 = Detection.bbox d))
          [EnhancedTracker.store_at_A s; EnhancedTracker.store_at_B s;
           EnhancedTracker.store_at_C s])
  /\ Forall2
       (fun store store0 =>
          forall trs ds,
            EnhancedTracker.cost_matrix (on store) trs ds
            = EnhancedTracker.cost_matrix (on store0) trs ds)
       [EnhancedTracker.store_at_A s; EnhancedTracker.store_at_B s;
        EnhancedTracker.store_at_C s]
       [before; after_A; after_B]
  /\ EnhancedTracker.confirmed_tracks s
     = EnhancedTracker.tracks_in_state confirmed before
  /\ EnhancedTracker.unconfirmed_tracks s
     = EnhancedTracker.tracks_in_state tentative before
  /\ exists selfA selfB selfC uB tB uC tC,
       EnhancedTracker.tracks selfA = EnhancedTracker.store_at_A s
       /\ EnhancedTracker.tracks selfB = EnhancedTracker.store_at_B s
       /\ EnhancedTracker.tracks selfC = EnhancedTracker.store_at_C s
       /\ EnhancedTracker.associate_detections_to_tracks scipy fuel selfA
            (EnhancedTracker.high_conf_detections s)
            (EnhancedTracker.confirmed_tracks s)
          = Ret (EnhancedTracker.matched_high_conf s,
                 EnhancedTracker.unmatched_high_conf s,
                 EnhancedTracker.unmatched_confirmed s)
       /\ EnhancedTracker.associate_detections_to_tracks scipy fuel selfB
            (EnhancedTracker.unmatched_high_conf s)
            (EnhancedTracker.unconfirmed_tracks s)
          = Ret (EnhancedTracker.matched_unconfirmed s, uB, tB)
       /\ EnhancedTracker.associate_detections_to_tracks scipy fuel selfC
            (EnhancedTracker.low_conf_detections s)
            (EnhancedTracker.unmatched_confirmed_after_high s)
          = Ret (EnhancedTracker.matched_low_conf s, uC, tC)
       /\ EnhancedTracker.associate_detections_to_tracks scipy fuel (on before)
            (EnhancedTracker.high_conf_detections s)
            (EnhancedTracker.confirmed_tracks s)
          = Ret (EnhancedTracker.matched_high_conf s,
                 EnhancedTracker.unmatched_high_conf s,
                 EnhancedTracker.unmatched_confirmed s)
       /\ EnhancedTracker.associate_detections_to_tracks scipy fuel
            (on after_A)
            (EnhancedTracker.unmatched_high_conf s)
            (EnhancedTracker.unconfirmed_tracks s)
          = Ret (EnhancedTracker.matched_unconfirmed s, uB, tB)
       /\ EnhancedTracker.associate_detections_to_tracks scipy fuel
            (on after_B)
            (EnhancedTracker.low_conf_detections s)
            (EnhancedTracker.unmatched_confirmed_after_high s)
          = Ret (EnhancedTracker.matched_low_conf s, uC, tC).
Proof.
  intros Hrun. cbv zeta.
  split; [|split; [|split; [|split; [|split; [|split]]]]].
  - unfold Track.predict. destruct (2 <=? _)%nat; simpl; repeat split.
  - unfold Track.predict. destruct (2 <=? _)%nat; reflexivity.
  - intros a b ds trs Hsame. split.
    + apply cost_matrix_boxes. exact Hsame.
    + apply associate_boxes. exact Hsame.
  - apply (run_stages_after _ _ _ _ _ _ Hrun).
  - intros r t0 Hr. apply (stage_boxes_observed _ _ _ _ _ _ _ _ Hrun Hr).
  - pose proof (stage_stores_boxes _ _ _ _ _ _ Hrun) as HF. cbv zeta in HF.
    eapply Forall2_impl; [exact HF|]. intros s1 s2 H12 trs ds.
    apply cost_matrix_boxes. split; [reflexivity|].
    intros r. apply Forall2_boxes_deref. exact H12.
  - apply (run_stages_without_predict _ _ _ _ _ _ Hrun).
Qed.

(** C9 at a track with two boxes in its history, and at the call that
    shows [dA] to the tracker holding [tA]. *)
Lemma C9_predict_changes_only_velocity_witness :
  exists s,
    EnhancedTracker.run_stages Env.sqrt Examples.scipy 0 Examples.trackerA
      [Examples.dA] = Ret s
    /\ let self := Track.update Env.sqrt Examples.tA (mkBBox 2 0 12 10)
                     (9 # 10) in
       let tracker := Examples.trackerA in
       let dets := [Examples.dA] in
       let sqrt := Env.sqrt in
       let scipy := Examples.scipy in
       let fuel := 0%nat in
  let self' := fst (Track.predict self) in
  let h := Track.history self in
  let prev_bbox := nth (length h - 2) h (Track.bbox self) in
  let curr_bbox := nth (length h - 1) h (Track.bbox self) in
  let before := EnhancedTracker.tracks tracker in
  let on := EnhancedTracker.set_tracks tracker in
  let after_A :=
    EnhancedTracker.apply_updates sqrt (EnhancedTracker.matched_high_conf s)
      before in
  let after_B :=
    EnhancedTracker.apply_updates sqrt (EnhancedTracker.matched_unconfirmed s)
      after_A in
  (Track.bbox self' = Track.bbox self
   /\ Track.history self' = Track.history self
   /\ Track.confidence self' = Track.confidence self
   /\ Track.confidence_history self' = Track.confidence_history self
   /\ Track.stability_score self' = Track.stability_score self
   /\ Track.consistency_score self' = Track.consistency_score self
   /\ Track.quality_score self' = Track.quality_score self
   /\ Track.hits self' = Track.hits self
   /\ Track.age self' = Track.age self
   /\ Track.time_since_update self' = Track.time_since_update self
   /\ Track.state self' = Track.state self
   /\ Track.class_id self' = Track.class_id self
   /\ Track.class_name self' = Track.class_name self
   /\ Track.track_id self' = Track.track_id self
   /\ Track.acceleration self' = Track.acceleration self)
  /\ Track.velocity self'
     = (if (2 <=? length h)%nat
        then (((7 # 10) * fst (Track.velocity self)
               + (3 # 10) * (Track.center_x curr_bbox - Track.center_x prev_bbox))%Q,
              ((7 # 10) * snd (Track.velocity self)
               + (3 # 10) * (Track.center_y curr_bbox - Track.center_y prev_bbox))%Q)
        else Track.velocity self)
  /\ (forall a b ds trs, same_boxes a b ->
        EnhancedTracker.cost_matrix a trs ds = EnhancedTracker.cost_matrix b trs ds
        /\ EnhancedTracker.associate_detections_to_tracks scipy fuel a ds trs
           = EnhancedTracker.associate_detections_to_tracks scipy fuel b ds trs)
  /\ EnhancedTracker.store_at_A s
     = map (fun track => fst (Track.predict track)) before
  /\ (forall r t0, before !! r = Some t0 ->
        Forall
          (fun store =>
             exists t1, store !! r = Some t1
               /\ (Track.bbox t1 = Track.bbox t0
                   \/ exists d, In d dets /\ Track.bbox t1 = Detection.bbox d))
          [EnhancedTracker.store_at_A s; EnhancedTracker.store_at_B s;
           EnhancedTracker.store_at_C s])
  /\ Forall2
       (fun store store0 =>
          forall trs ds,
            EnhancedTracker.cost_matrix (on store) trs ds
            = EnhancedTracker.cost_matrix (on store0) trs ds)
       [EnhancedTracker.store_at_A s; EnhancedTracker.store_at_B s;
        EnhancedTracker.store_at_C s]
       [before; after_A; after_B]
  /\ EnhancedTracker.confirmed_tracks s
     = EnhancedTracker.tracks_in_state confirmed before
  /\ EnhancedTracker.unconfirmed_tracks s
     = EnhancedTracker.tracks_in_state tentative before
  /\ exists selfA selfB selfC uB tB uC tC,
       EnhancedTracker.tracks selfA = EnhancedTracker.store_at_A s
       /\ EnhancedTracker.tracks selfB = EnhancedTracker.store_at_B s
       /\ EnhancedTracker.tracks selfC = EnhancedTracker.store_at_C s
       /\ EnhancedTracker.associate_detections_to_tracks scipy fuel selfA
            (EnhancedTracker.high_conf_detections s)
            (EnhancedTracker.confirmed_tracks s)
          = Ret (EnhancedTracker.matched_high_conf s,
                 EnhancedTracker.unmatched_high_conf s,
                 EnhancedTracker.unmatched_confirmed s)
       /\ EnhancedTracker.associate_detections_to_tracks scipy fuel selfB
            (EnhancedTracker.unmatched_high_conf s)
            (EnhancedTracker.unconfirmed_tracks s)
          = Ret (EnhancedTracker.matched_unconfirmed s, uB, tB)
       /\ EnhancedTracker.associate_detections_to_tracks scipy fuel selfC
            (EnhancedTracker.low_conf_detections s)
            (EnhancedTracker.unmatched_confirmed_after_high s)
          = Ret (EnhancedTracker.matched_low_conf s, uC, tC)
       /\ EnhancedTracker.associate_detections_to_tracks scipy fuel (on before)
            (EnhancedTracker.high_conf_detections s)
            (EnhancedTracker.confirmed_tracks s)
          = Ret (EnhancedTracker.matched_high_conf s,
                 EnhancedTracker.unmatched_high_conf s,
                 EnhancedTracker.unmatched_confirmed s)
       /\ EnhancedTracker.associate_detections_to_tracks scipy fuel
            (on after_A)
            (EnhancedTracker.unmatched_high_conf s)
            (EnhancedTracker.unconfirmed_tracks s)
          = Ret (EnhancedTracker.matched_unconfirmed s, uB, tB)
       /\ EnhancedTracker.associate_detections_to_tracks scipy fuel
            (on after_B)
            (EnhancedTracker.low_conf_detections s)
            (EnhancedTracker.unmatched_confirmed_after_high s)
          = Ret (EnhancedTracker.matched_low_conf s, uC, tC).
Proof.
  eexists. split; [vm_compute; reflexivity|].
  apply (C9_predict_changes_only_velocity Env.sqrt Examples.scipy 0
           (Track.update Env.sqrt Examples.tA (mkBBox 2 0 12 10) (9 # 10))
           Examples.trackerA [Examples.dA]).
  vm_compute. reflexivity.
Defined.

(** ** What becomes of a detection *)

Lemma refs_from_In {A} (l : list A) (x : A) : forall k,
  In x l -> exists r, In r (refs_from k l) /\ val r = x.
Proof.
  induction l as [|y l IH]; intros k; simpl; [tauto|].
  intros [->|H].
  - eexists. split; [left; reflexivity|reflexivity].
  - destruct (IH (S k) H) as (r & Hr & Hv). exists r. split; [right; exact Hr|].
    exact Hv.
Qed.

Lemma oid_In_NoDup {A} (l : list (ref A)) (x y : ref A) :
  NoDup (map oid l) -> In x l -> In y l -> oid x = oid y -> x = y.
Proof.
  intros Hl Hx Hy Heq.
  apply list_elem_of_In, list_elem_of_lookup in Hx as [i Hi].
  apply list_elem_of_In, list_elem_of_lookup in Hy as [j Hj].
  assert (i = j) as ->.
  { apply (NoDup_lookup (map oid l) i j (oid x) Hl).
    - rewrite list_lookup_fmap, Hi. reflexivity.
    - rewrite list_lookup_fmap, Hj. simpl. f_equal. symmetry. exact Heq. }
  congruence.
Qed.

Lemma new_tracks_lookup ds : forall n j d,
  ds !! j = Some d ->
  new_tracks ds n !! j
  = Some (Track.init (Detection.bbox (val d)) (Detection.confidence (val d))
                     (Detection.class_id (val d)) (Detection.class_name (val d))
                     (n + Z.of_nat j)).
Proof.
  induction ds as [|d0 ds IH]; intros n [|j] d; simpl; try discriminate.
  - intros [= ->]. rewrite Z.add_0_r. reflexivity.
  - intros H. rewrite (IH _ _ _ H). do 2 f_equal. lia.
Qed.

Section Fate.
Variable sqrt : Q -> Q.
Variable scipy : option (list (list Q) -> list nat * list nat).
Hypothesis scipy_contract :
  forall lsa, scipy = Some lsa -> assigns_once lsa /\ pairs_up lsa.

Lemma scipy_once : forall lsa, scipy = Some lsa -> assigns_once lsa.
Proof. intros lsa H. apply scipy_contract. exact H. Qed.

(** An association that returns leaves no detection out: each is matched
    or comes back unmatched. *)
Lemma associate_keeps_detections fuel self dets trs m ud ut d :
  NoDup (map oid dets) ->
  EnhancedTracker.associate_detections_to_tracks scipy fuel self dets trs
  = Ret (m, ud, ut) ->
  In d dets -> In d (map snd m) \/ In d ud.
Proof.
  intros Hn Hret Hd. destruct scipy as [lsa|] eqn:Es.
  - destruct (scipy_contract lsa eq_refl) as [H1 H2].
    pose proof (solver_detections_conserved _ _ _ _ _ _ _ _ H1 H2 Hn Hret) as Hp.
    apply in_app_or. apply (Permutation_in _ (Permutation_sym Hp)). exact Hd.
  - revert Hret. unfold EnhancedTracker.associate_detections_to_tracks.
    destruct (length trs =? 0)%nat; [intros [= <- <- <-]; right; exact Hd|].
    destruct (length dets =? 0)%nat eqn:E2.
    { apply Nat.eqb_eq, length_zero_iff_nil in E2. subst dets. destruct Hd. }
    intros Hret. apply greedy_assignment_returns in Hret as [-> _].
    right. apply (Permutation_in _ (Permutation_sym (sorted_desc_perm _ dets))).
    exact Hd.
Qed.

(** A detection of confidence 0.5 or more is matched in the first
    association, matched to a tentative track, or starts a track. *)
Lemma confident_detection_fate fuel self dets s d :
  EnhancedTracker.run_stages sqrt scipy fuel self dets = Ret s ->
  In d dets -> high_confidence d = true ->
  exists rd, val rd = d
    /\ ((exists r, In (r, rd) (EnhancedTracker.matched_high_conf s
                               ++ EnhancedTracker.matched_unconfirmed s
                               ++ EnhancedTracker.matched_low_conf s))
        \/ In rd (EnhancedTracker.creators s)).
Proof.
  intros Hrun Hd Hh.
  destruct (run_stages_inv _ _ _ _ _ _ Hrun)
    as (selfA & selfB & selfC & uB & tB & uC & tC & _ & _ & _
        & EA & EB & _ & _ & _ & Hhigh & _ & Hconf & Hunconf & _).
  destruct (refs_from_In dets d 0%nat Hd) as (rd & Hrd & Hv).
  exists rd. split; [exact Hv|].
  assert (Hnh : NoDup (map oid (EnhancedTracker.high_conf_detections s))).
  { rewrite Hhigh. apply refs_filter_NoDup. }
  assert (Hnc : NoDup (EnhancedTracker.confirmed_tracks s)).
  { rewrite Hconf. apply tracks_in_state_NoDup. }
  assert (Hin : In rd (EnhancedTracker.high_conf_detections s)).
  { rewrite Hhigh. apply filter_In. split; [exact Hrd|]. rewrite Hv. exact Hh. }
  destruct (associate_partition _ _ _ _ _ _ _ _ scipy_once Hnc Hnh EA)
    as (_ & NuA & _ & _).
  destruct (associate_incl _ _ _ _ _ _ _ _ EB) as [_ IB].
  destruct (associate_keeps_detections _ _ _ _ _ _ _ _ Hnh EA Hin) as [HA|HA].
  - left. apply in_map_iff in HA as ([r x] & Hx & Hp). simpl in Hx. subst x.
    exists r. apply in_or_app. left. exact Hp.
  - destruct (mem rd (map snd (EnhancedTracker.matched_unconfirmed s))) eqn:Em.
    + left. apply mem_In in Em. apply in_map_iff in Em as (y & Heq & Hy).
      assert (y = rd) as ->.
      { apply (oid_In_NoDup _ _ _ NuA); [|exact HA|exact Heq].
        apply IB. apply in_or_app. left. exact Hy. }
      apply in_map_iff in Hy as ([r x] & Hx & Hp). simpl in Hx. subst x.
      exists r. apply in_or_app. right. apply in_or_app. left. exact Hp.
    + right. unfold EnhancedTracker.creators. apply filter_In.
      split; [exact HA|]. rewrite Em. reflexivity.
Qed.

(** A matched track is returned by the call, updated with the detection it
    was matched to, when [max_age] is positive. *)
Lemma matched_track_returned fuel self dets s r rd :
  EnhancedTracker.run_stages sqrt scipy fuel self dets = Ret s ->
  0 < EnhancedTracker.max_age self ->
  In (r, rd) (EnhancedTracker.matched_high_conf s
              ++ EnhancedTracker.matched_unconfirmed s
              ++ EnhancedTracker.matched_low_conf s) ->
  exists t, In t (EnhancedTracker.tracks self)
    /\ In (Track.update sqrt (fst (Track.predict t))
             (Detection.bbox (val rd)) (Detection.confidence (val rd)))
          (EnhancedTracker.tracks (EnhancedTracker.finish s)).
Proof.
  intros Hrun Hage Hp.
  pose proof (after_stages_tracks _ _ _ _ _ _ Hrun) as Hold.
  pose proof (matched_tracks_NoDup _ _ scipy_once _ _ _ _ Hrun) as Hnd.
  destruct (stage_detections_incl _ _ _ _ _ _ Hrun) as (_ & _ & Hlt).
  pose proof (run_stages_frame _ _ _ _ _ _ Hrun) as (_ & _ & Hmax).
  specialize (Hlt r rd Hp).
  destruct (lookup_lt_is_Some_2 _ _ Hlt) as [t Ht].
  exists t. split.
  { apply list_elem_of_In, list_elem_of_lookup. exists r. exact Ht. }
  rewrite finish_spec. cbv zeta. cbn [EnhancedTracker.tracks].
  apply filter_In. split.
  - apply list_elem_of_In, list_elem_of_lookup. exists r.
    rewrite mark_unmatched_lookup.
    rewrite lookup_app_l
      by (rewrite Hold, apply_updates_length, length_map; exact Hlt).
    rewrite Hold.
    rewrite (apply_updates_once sqrt _ _ r (fst (Track.predict t)) rd Hnd);
      [| rewrite list_lookup_fmap, Ht; reflexivity | exact Hp].
    simpl.
    assert (Hm : mem_track r
                   (map fst (EnhancedTracker.matched_high_conf s
                             ++ EnhancedTracker.matched_unconfirmed s
                             ++ EnhancedTracker.matched_low_conf s)) = true).
    { apply mem_track_In. apply (in_map fst) in Hp. exact Hp. }
    rewrite Hm. reflexivity.
  - rewrite Hmax. apply Z.ltb_lt.
    unfold Track.update. destruct (15 <? _)%nat; simpl; exact Hage.
Qed.

(** A detection that starts a track: the call returns the track, missed
    once, with an id from [next_id] on, when [max_age] exceeds 1. *)
Lemma created_track_returned fuel self dets s rd :
  EnhancedTracker.run_stages sqrt scipy fuel self dets = Ret s ->
  1 < EnhancedTracker.max_age self ->
  In rd (EnhancedTracker.creators s) ->
  exists id,
    EnhancedTracker.next_id self <= id
      < EnhancedTracker.next_id (EnhancedTracker.finish s)
    /\ In (Track.mark_missed
             (Track.init (Detection.bbox (val rd)) (Detection.confidence (val rd))
                         (Detection.class_id (val rd))
                         (Detection.class_name (val rd)) id))
          (EnhancedTracker.tracks (EnhancedTracker.finish s)).
Proof.
  intros Hrun Hage Hc.
  pose proof (after_stages_tracks _ _ _ _ _ _ Hrun) as Hold.
  destruct (stage_detections_incl _ _ _ _ _ _ Hrun) as (_ & _ & Hlt).
  pose proof (run_stages_frame _ _ _ _ _ _ Hrun) as (_ & Hnext & Hmax).
  apply list_elem_of_In, list_elem_of_lookup in Hc as [j Hj].
  pose proof (lookup_lt_Some _ _ _ Hj) as Hjlt.
  exists (EnhancedTracker.next_id self + Z.of_nat j).
  rewrite finish_spec. cbv zeta.
  cbn [EnhancedTracker.tracks EnhancedTracker.next_id].
  rewrite Hnext. split; [lia|].
  apply filter_In. split.
  - apply list_elem_of_In, list_elem_of_lookup.
    exists (length (EnhancedTracker.tracks (EnhancedTracker.after_stages s)) + j)%nat.
    rewrite mark_unmatched_lookup.
    rewrite lookup_app_r by lia.
    replace (_ + j - _)%nat with j by lia.
    rewrite (new_tracks_lookup _ _ _ _ Hj). simpl.
    destruct (mem_track _ _) eqn:Em; [|reflexivity].
    exfalso. apply mem_track_In in Em.
    apply in_map_iff in Em as ([r x] & Heq & Hp). simpl in Heq. subst r.
    specialize (Hlt _ _ Hp).
    rewrite Hold, apply_updates_length, length_map in Hlt. lia.
  - rewrite Hmax. apply Z.ltb_lt. simpl. lia.
Qed.

(** What a call does with a detection of confidence 0.5 or more: a track
    that was active takes it, or it starts a track with an id from
    [next_id] on. *)
Lemma detection_fate fuel self dets self' d :
  EnhancedTracker.update sqrt scipy fuel self dets = Ret self' ->
  1 < EnhancedTracker.max_age self ->
  In d dets -> high_confidence d = true ->
  (exists t t', In t (EnhancedTracker.tracks self)
     /\ In t' (EnhancedTracker.tracks self')
     /\ Track.track_id t' = Track.track_id t
     /\ Track.hits t' = Track.hits t + 1
     /\ carries t' d)
  \/ (exists t', In t' (EnhancedTracker.tracks self')
        /\ EnhancedTracker.next_id self <= Track.track_id t'
           < EnhancedTracker.next_id self'
        /\ t' = Track.mark_missed
                  (Track.init (Detection.bbox d) (Detection.confidence d)
                              (Detection.class_id d) (Detection.class_name d)
                              (Track.track_id t'))).
Proof.
  intros Hup Hage Hd Hh. unfold EnhancedTracker.update in Hup.
  destruct (EnhancedTracker.run_stages _ _ _ _ _) as [s| |] eqn:Es;
    simpl in Hup; try discriminate.
  injection Hup as <-.
  destruct (confident_detection_fate _ _ _ _ _ Es Hd Hh)
    as (rd & Hv & [[r Hp]|Hc]).
  - left. destruct (matched_track_returned _ _ _ _ _ _ Es ltac:(lia) Hp)
      as (t & Ht & Hin).
    rewrite Hv in Hin. exists t. eexists. split; [exact Ht|].
    split; [exact Hin|]. split; [|split].
    + rewrite update_track_id. apply predict_track_id.
    + rewrite hits_update, hits_predict. reflexivity.
    + apply update_carries.
  - right. destruct (created_track_returned _ _ _ _ _ Es Hage Hc)
      as (id & Hid & Hin).
    rewrite Hv in Hin. eexists. split; [exact Hin|]. split; [exact Hid|].
    reflexivity.
Qed.
End Fate.




(** ** Detections the service lets through *)

Lemma filter_map_comm {A B} (p : B -> bool) (g : A -> B) (l : list A) :
  List.filter p (map g l) = map g (List.filter (fun a => p (g a)) l).
Proof.
  induction l as [|x l IH]; simpl; [reflexivity|].
  destruct (p (g x)); simpl; rewrite IH; reflexivity.
Qed.

(** C6, amended.  The service checks no box and no upper bound of a
    confidence.  Of the boxes the detector returns for a frame,
    [detect_objects_in_frame] keeps those whose confidence is not below
    [confidence_threshold], and [filter_detections] keeps the
    [max_tracks_per_frame] most confident of these; replacing the boxes
    changes nothing in the selection.  With a solver that keeps its
    contract the frame does not fail: [update] is called on the
    detections that passed and returns, the frame's result holds the
    frame number, the timestamp and the emitted tracks and nothing about
    a detection that was dropped, and when [max_age] exceeds 1 every
    detection of confidence 0.5 or more that passed is held by a returned
    track, with its box and its confidence as they are. *)
Theorem C6_detections_are_not_validated (sqrt : Q -> Q)
    (lsa : list (list Q) -> list nat * list nat) (fuel : nat)
    (Frame : Type) (model : Frame -> list Detection.t)
    (self : TrackingService.t) (frame_idx : Z) (frame : Frame) :
  0 <= TrackingService.max_tracks_per_frame self ->
  in_range lsa -> assigns_once lsa -> pairs_up lsa ->
  let detected :=
    TrackingService.detect_objects_in_frame Frame (Some model) self frame in
  let passed := TrackingService.filter_detections self detected in
  (forall d, In d detected
     <-> In d (model frame)
         /\ (TrackingService.confidence_threshold self
             <= Detection.confidence d)%Q)
  /\ length passed
     = Nat.min (length detected)
               (Z.to_nat (TrackingService.max_tracks_per_frame self))
  /\ (exists dropped,
        Permutation (passed ++ dropped) detected
        /\ forall p d, In p passed -> In d dropped -> at_least p d)
  /\ (forall f,
        TrackingService.filter_detections self
          (TrackingService.detect_objects_in_frame Frame
             (Some (fun fr => map (with_bbox f) (model fr))) self frame)
        = map (with_bbox f) passed)
  /\ exists self' result,
       TrackingService.process_frame sqrt (Some lsa) Frame (Some model) fuel
         self frame_idx frame = Ret (self', result)
       /\ EnhancedTracker.update sqrt (Some lsa) fuel
            (TrackingService.tracker self) passed
          = Ret (TrackingService.tracker self')
       /\ result
          = {| TrackingService.frame_number := frame_idx;
               TrackingService.timestamp := frame_idx * 500;
               TrackingService.fr_tracks :=
                 TrackingService.emit self
                   (EnhancedTracker.tracks
                      (TrackingService.tracker self')) |}
       /\ (1 < EnhancedTracker.max_age (TrackingService.tracker self) ->
           forall d, In d passed -> high_confidence d = true ->
             exists t, In t (EnhancedTracker.tracks
                               (TrackingService.tracker self'))
               /\ Track.bbox t = Detection.bbox d
               /\ Track.confidence t = Detection.confidence d).
Proof.
  intros HK Hrange Honce Hpairs detected passed.
  split; [|split; [|split; [|split]]].
  - intros d. unfold detected, TrackingService.detect_objects_in_frame.
    rewrite filter_In, negb_true_iff, ltb_ge. reflexivity.
  - unfold passed, TrackingService.filter_detections, Py.slice_to.
    pose proof (Permutation_length
                  (sorted_desc_perm Detection.confidence detected)) as Hl.
    destruct (0 <=? _) eqn:E; [|apply Z.leb_gt in E; lia].
    rewrite length_firstn. lia.
  - unfold passed, TrackingService.filter_detections.
    set (sorted := Py.sorted_desc Detection.confidence detected).
    pose proof (sorted_desc_perm Detection.confidence detected) as Hp.
    fold sorted in Hp.
    pose proof (sorted_desc_sorted Detection.confidence detected) as Hs.
    fold sorted in Hs.
    pose proof (Permutation_length Hp) as Hl.
    unfold Py.slice_to.
    destruct (0 <=? _) eqn:E; [|apply Z.leb_gt in E; lia].
    set (n := Z.to_nat (Z.min (Z.of_nat (length sorted))
                              (TrackingService.max_tracks_per_frame self))).
    rewrite <- (firstn_skipn n sorted) in Hs, Hp.
    apply StronglySorted_app_inv in Hs as [_ Hs2].
    exists (skipn n sorted). split; [exact Hp|exact Hs2].
  - intros f. unfold passed, detected,
      TrackingService.detect_objects_in_frame.
    rewrite filter_map_comm. apply filter_detections_ignores_boxes.
  - destruct (update_returns_with_solver sqrt lsa Hrange fuel
                (TrackingService.tracker self) passed) as [tracker' Hup].
    unfold TrackingService.process_frame. fold detected. fold passed.
    rewrite Hup. simpl. eexists. eexists. split; [reflexivity|].
    simpl. split; [reflexivity|]. split; [reflexivity|].
    intros Hage d Hd Hh.
    assert (Hc : forall lsa0, Some lsa = Some lsa0 ->
                   assigns_once lsa0 /\ pairs_up lsa0).
    { intros lsa0 [= <-]. split; assumption. }
    destruct (detection_fate sqrt (Some lsa) Hc fuel _ _ _ _ Hup Hage Hd Hh)
      as [(t & t' & _ & Ht' & _ & _ & Hb & Hcf & _)|(t' & Ht' & _ & Heq)].
    + exists t'. auto.
    + exists t'. split; [exact Ht'|]. rewrite Heq. split; reflexivity.
Qed.

(** C6 at the fresh default service and a frame of two malformed
    detections. *)
Lemma C6_detections_are_not_validated_witness :
  let self := Examples.service in
  let model := fun frame : Examples.Frame => frame in
  let frame := [Examples.d_bad; Examples.d_over] in
  let detected :=
    TrackingService.detect_objects_in_frame Examples.Frame (Some model)
      self frame in
  let passed := TrackingService.filter_detections self detected in
  (forall d, In d detected
     <-> In d (model frame)
         /\ (TrackingService.confidence_threshold self
             <= Detection.confidence d)%Q)
  /\ length passed
     = Nat.min (length detected)
               (Z.to_nat (TrackingService.max_tracks_per_frame self))
  /\ (exists dropped,
        Permutation (passed ++ dropped) detected
        /\ forall p d, In p passed -> In d dropped -> at_least p d)
  /\ (forall f,
        TrackingService.filter_detections self
          (TrackingService.detect_objects_in_frame Examples.Frame
             (Some (fun fr => map (with_bbox f) (model fr))) self frame)
        = map (with_bbox f) passed)
  /\ exists self' result,
       TrackingService.process_frame Env.sqrt (Some Env.linear_sum_assignment)
         Examples.Frame (Some model) 0 self 0 frame = Ret (self', result)
       /\ EnhancedTracker.update Env.sqrt (Some Env.linear_sum_assignment) 0
            (TrackingService.tracker self) passed
          = Ret (TrackingService.tracker self')
       /\ result
          = {| TrackingService.frame_number := 0;
               TrackingService.timestamp := 0 * 500;
               TrackingService.fr_tracks :=
                 TrackingService.emit self
                   (EnhancedTracker.tracks
                      (TrackingService.tracker self')) |}
       /\ (1 < EnhancedTracker.max_age (TrackingService.tracker self) ->
           forall d, In d passed -> high_confidence d = true ->
             exists t, In t (EnhancedTracker.tracks
                               (TrackingService.tracker self'))
               /\ Track.bbox t = Detection.bbox d
               /\ Track.confidence t = Detection.confidence d).
Proof.
  apply (C6_detections_are_not_validated Env.sqrt Env.linear_sum_assignment 0
           Examples.Frame (fun frame => frame) Examples.service 0
           [Examples.d_bad; Examples.d_over]).
  - vm_compute. discriminate.
  - exact Env_in_range.
  - exact Env_assigns_once.
  - exact Env_pairs_up.
Defined.

(** ** Tracks that were never matched *)

Lemma decay_step (k : Z) :
  0 <= k -> ((95 # 100) ^ (k + 1) == (95 # 100) ^ k * (95 # 100))%Q.
Proof.
  intros Hk. rewrite Qpower_plus by (intros H; discriminate H). reflexivity.
Qed.

Lemma decay_bounds (k : Z) :
  0 <= k -> (0 < (95 # 100) ^ k)%Q /\ ((95 # 100) ^ k <= 1)%Q.
Proof.
  intros Hk. split; [apply Qpower_0_lt; reflexivity|].
  revert k Hk. apply natlike_ind.
  - discriminate.
  - intros k Hk IH. unfold Z.succ. rewrite decay_step by exact Hk.
    assert (H0 : (0 < (95 # 100) ^ k)%Q) by (apply Qpower_0_lt; reflexivity).
    nra.
Qed.

Lemma decay_below (k : Z) : 1 <= k -> ((95 # 100) ^ k <= 95 # 100)%Q.
Proof.
  intros Hk. replace k with (k - 1 + 1) by lia.
  rewrite decay_step by lia.
  destruct (decay_bounds (k - 1)) as [H0 H1]; [lia|]. nra.
Qed.

Lemma unscored_init b c cid cname id : unscored (Track.init b c cid cname id).
Proof.
  constructor; simpl; try reflexivity. ring.
Qed.

Lemma unscored_predict t : unscored t -> unscored (fst (Track.predict t)).
Proof.
  intros []. unfold Track.predict.
  destruct (2 <=? _)%nat; constructor; simpl; assumption.
Qed.

Lemma unscored_mark_missed t : unscored t -> unscored (Track.mark_missed t).
Proof.
  intros []. constructor; simpl; try assumption; [lia|lia|].
  rewrite decay_step by assumption. rewrite unscored_quality0. ring.
Qed.

Lemma counted_init b c cid cname id : counted (Track.init b c cid cname id).
Proof. split; [simpl; lia|]. intros _. apply unscored_init. Qed.

Lemma counted_predict t : counted t -> counted (fst (Track.predict t)).
Proof.
  unfold counted, never_matched. rewrite hits_predict. intros [H1 H2].
  split; [exact H1|]. intros H. apply unscored_predict, H2, H.
Qed.

Lemma counted_mark_missed t : counted t -> counted (Track.mark_missed t).
Proof.
  unfold counted, never_matched. rewrite hits_mark_missed. intros [H1 H2].
  split; [exact H1|]. intros H. apply unscored_mark_missed, H2, H.
Qed.

Lemma counted_update sqrt t b c : counted t -> counted (Track.update sqrt t b c).
Proof.
  unfold counted, never_matched. rewrite hits_update. intros [H1 _].
  split; lia.
Qed.

Section Fresh.
Variable sqrt : Q -> Q.
Variable scipy : option (list (list Q) -> list nat * list nat).

Lemma updates_counted fuel frames self self' :
  Forall counted (EnhancedTracker.tracks self) ->
  EnhancedTracker.updates sqrt scipy fuel self frames = Ret self' ->
  Forall counted (EnhancedTracker.tracks self').
Proof.
  intros H Hrun.
  apply (updates_preserves sqrt scipy counted (fun _ => True)
           counted_predict
           (fun t d Ht _ => counted_update sqrt t _ _ Ht)
           counted_mark_missed
           (fun d id _ => counted_init _ _ _ _ id)
           fuel frames self self' H); [|exact Hrun].
  apply List.Forall_forall. intros ds _. apply List.Forall_forall. auto.
Qed.

(** Every never-matched track a call returns has missed a call. *)
Lemma returned_unscored fuel self dets self' t :
  Forall counted (EnhancedTracker.tracks self) ->
  EnhancedTracker.update sqrt scipy fuel self dets = Ret self' ->
  In t (EnhancedTracker.tracks self') -> never_matched t ->
  unscored t /\ 1 <= Track.time_since_update t.
Proof.
  intros HP Hup Ht Hh. unfold EnhancedTracker.update in Hup.
  destruct (EnhancedTracker.run_stages _ _ _ _ _) as [s| |] eqn:Es;
    simpl in Hup; try discriminate.
  injection Hup as <-. rewrite finish_spec in Ht. cbv zeta in Ht.
  cbn [EnhancedTracker.tracks] in Ht.
  apply filter_In in Ht as [Ht _].
  apply list_elem_of_In, list_elem_of_lookup in Ht as [r Hr].
  pose proof (run_stages_frame _ _ _ _ _ _ Es) as (_ & Hnext & _).
  rewrite Hnext in Hr.
  destruct (update_cases_at _ _ _ _ _ _ _ _ Es Hr)
    as [(d & _ & _ & _ & Heq)|[(t0 & Ht0 & Heq)|(t0 & d & Ht0 & _ & _ & Hlt & _)]].
  - rewrite Heq. split; [apply unscored_mark_missed, unscored_init|].
    simpl. lia.
  - assert (Hc : counted t0).
    { apply (proj1 (List.Forall_forall _ _) HP).
      apply list_elem_of_In, list_elem_of_lookup. exists r. exact Ht0. }
    assert (Hu : unscored (fst (Track.predict t0))).
    { apply unscored_predict, Hc. unfold never_matched in *.
      rewrite Heq, hits_mark_missed, hits_predict in Hh. exact Hh. }
    rewrite Heq. split; [apply unscored_mark_missed, Hu|].
    destruct Hu. simpl. lia.
  - exfalso.
    assert (Hc : counted t0).
    { apply (proj1 (List.Forall_forall _ _) HP).
      apply list_elem_of_In, list_elem_of_lookup. exists r. exact Ht0. }
    destruct Hc as [H1 _]. unfold never_matched in Hh. lia.
Qed.
End Fresh.

(** C10 as stated fails.  The call that creates a track from [dA], of
    confidence 0.9, returns it with one hit, stability 1, consistency 1 and
    the quality 0.855: [update] runs [mark_missed] on the track it has just
    created.  [get_track_quality] reports that value, not the confidence. *)
Lemma C10_fresh_track_quality_counterexample :
  match EnhancedTracker.update Env.sqrt Examples.scipy 0
          (EnhancedTracker.init 30 3 (3 # 10)) [Examples.dA] with
  | Ret self' =>
      exists t, EnhancedTracker.tracks self' = [t]
        /\ Track.hits t = 1
        /\ Track.confidence t = (9 # 10)%Q
        /\ Track.stability_score t = 1%Q
        /\ Track.consistency_score t = 1%Q
        /\ (Track.q_quality (Track.get_track_quality t) == 171 # 200)%Q
        /\ ~ (Track.q_quality (Track.get_track_quality t)
              == Track.confidence t)%Q
  | _ => False
  end.
Proof.
  vm_compute. eexists. split; [reflexivity|]. repeat split. discriminate.
Qed.

(** C10, amended.  The track [Track.__init__] builds has stability 1,
    consistency 1 and the confidence as its quality.  A call of [update]
    never returns it so: on a tracker reached from the constructor's, every
    track that a call returns with one hit (no detection has been matched to
    it since its creation) has stability 1, consistency 1, has missed
    [k >= 1] calls, the creating one included, and has the quality
    [confidence * 0.95 ^ k], which is what [get_track_quality] reports.
    That is below the confidence when the confidence is positive, and below
    the mean of confidence, stability and consistency when the confidence
    lies between -2 and 1. *)
Theorem C10_fresh_track_quality (sqrt : Q -> Q)
    (scipy : option (list (list Q) -> list nat * list nat)) (fuel : nat)
    (max_age min_hits : Z) (iou_threshold : Q)
    (frames : list (list Detection.t)) (self : EnhancedTracker.t)
    (dets : list Detection.t) (self' : EnhancedTracker.t) :
  EnhancedTracker.updates sqrt scipy fuel
    (EnhancedTracker.init max_age min_hits iou_threshold) frames = Ret self ->
  EnhancedTracker.update sqrt scipy fuel self dets = Ret self' ->
  (forall bbox confidence class_id class_name track_id,
     let t := Track.init bbox confidence class_id class_name track_id in
     Track.stability_score t = 1%Q
     /\ Track.consistency_score t = 1%Q
     /\ Track.quality_score t = confidence)
  /\ forall t, In t (EnhancedTracker.tracks self') -> never_matched t ->
       let k := Track.time_since_update t in
       Track.stability_score t = 1%Q
       /\ Track.consistency_score t = 1%Q
       /\ 1 <= k
       /\ Track.age t = k
       /\ Track.history t = [Track.bbox t]
       /\ Track.confidence_history t = [Track.confidence t]
       /\ (Track.quality_score t == Track.confidence t * (95 # 100) ^ k)%Q
       /\ (Track.q_quality (Track.get_track_quality t)
           == Track.confidence t * (95 # 100) ^ k)%Q
       /\ ((0 < Track.confidence t)%Q ->
           (Track.quality_score t < Track.confidence t)%Q)
       /\ ((-2 <= Track.confidence t)%Q -> (Track.confidence t <= 1)%Q ->
           (Track.quality_score t
            < (Track.confidence t + Track.stability_score t
               + Track.consistency_score t) / 3)%Q).
Proof.
  intros Hrun Hup. split; [intros; simpl; repeat split|].
  intros t Ht Hh k.
  assert (HP : Forall counted (EnhancedTracker.tracks self)).
  { eapply updates_counted; [|exact Hrun]. constructor. }
  destruct (returned_unscored _ _ _ _ _ _ _ HP Hup Ht Hh) as [[] Hk].
  fold k in Hk, unscored_quality0.
  destruct (decay_bounds k) as [H0 _]; [lia|].
  pose proof (decay_below k Hk) as H1.
  repeat (split; [assumption|]). split.
  - intros Hc. rewrite unscored_quality0. nra.
  - intros Hlo Hhi. rewrite unscored_quality0, unscored_stability0,
      unscored_consistency0.
    unfold Qdiv. change (/ 3)%Q with (1 # 3)%Q.
    destruct (Qlt_le_dec (Track.confidence t) 0) as [Hneg|Hpos]; nra.
Qed.

(** C10 at the tracker that has seen [dA] in one frame, in the call for a
    frame without detections: the track comes back with one hit, two
    misses and the quality 0.9 * 0.95 ^ 2. *)
Lemma C10_fresh_track_quality_witness :
  exists self self',
    EnhancedTracker.updates Env.sqrt Examples.scipy 0
      (EnhancedTracker.init 30 3 (3 # 10)) [[Examples.dA]] = Ret self
    /\ EnhancedTracker.update Env.sqrt Examples.scipy 0 self [] = Ret self'
    /\ map (fun t => (Track.hits t, Track.time_since_update t))
           (EnhancedTracker.tracks self') = [(1, 2)]
    /\ (forall bbox confidence class_id class_name track_id,
          let t := Track.init bbox confidence class_id class_name track_id in
          Track.stability_score t = 1%Q
          /\ Track.consistency_score t = 1%Q
          /\ Track.quality_score t = confidence)
    /\ forall t, In t (EnhancedTracker.tracks self') -> never_matched t ->
         let k := Track.time_since_update t in
         Track.stability_score t = 1%Q
         /\ Track.consistency_score t = 1%Q
         /\ 1 <= k
         /\ Track.age t = k
         /\ Track.history t = [Track.bbox t]
         /\ Track.confidence_history t = [Track.confidence t]
         /\ (Track.quality_score t == Track.confidence t * (95 # 100) ^ k)%Q
         /\ (Track.q_quality (Track.get_track_quality t)
             == Track.confidence t * (95 # 100) ^ k)%Q
         /\ ((0 < Track.confidence t)%Q ->
             (Track.quality_score t < Track.confidence t)%Q)
         /\ ((-2 <= Track.confidence t)%Q -> (Track.confidence t <= 1)%Q ->
             (Track.quality_score t
              < (Track.confidence t + Track.stability_score t
                 + Track.consistency_score t) / 3)%Q).
Proof.
  eexists. eexists. split; [vm_compute; reflexivity|].
  split; [vm_compute; reflexivity|].
  split; [vm_compute; reflexivity|].
  eapply (C10_fresh_track_quality Env.sqrt Examples.scipy 0 30 3 (3 # 10)
            [[Examples.dA]] _ []).
  - vm_compute. reflexivity.
  - vm_compute. reflexivity.
Defined.
